(** * TrackSecure telemetry distribution core

    A shallow embedding of the telemetry distribution core of the
    repository and the properties established about it:

    - [Backoff]: the reconnect delay of [connectWebSocket]
      (services/websocketService.ts);
    - [Frames]: the inbound-frame callback of [TrackingDashboard.tsx]
      (identifier filter and mapping into the UI shape);
    - [Client]: the event-driven behaviour of [connectWebSocket] handles
      together with the dashboard effect that owns them (primary/fallback
      selection, reconnect timers, explicit close);
    - [Server]: [SensorController] and [SensorWebSocketHandler] of the
      Spring backend (snapshot endpoints, session registry, broadcast).  *)

From Stdlib Require Import QArith Qminmax Lqa Lia.
From stdpp Require Import base option list strings gmap.

#[local] Set Warnings "-register-all".
Local Open Scope Q_scope.

(* ===================================================================== *)
(** ** Reconnect backoff (websocketService.ts, [scheduleReconnect])      *)
(* ===================================================================== *)

Module Backoff.

(** [Math.pow(b, n)] for a counter [n] that only ever takes the values
    0, 1, 2, ...  The JavaScript numbers involved are IEEE doubles; for
    [b = 1.5] every power up to [n = 8] and its product with 1000 is a
    dyadic rational with a short mantissa, hence exact, and from [n = 9]
    on the product exceeds 30000 (also after rounding or overflow to
    [Infinity]), where [Math.min] returns the cap.  Rational arithmetic
    therefore gives the very numbers the program computes. *)
Fixpoint Math_pow (b : Q) (n : nat) : Q :=
  match n with
  | O => 1
  | S k => b * Math_pow b k
  end.

Definition capMs : Q := 30000.
Definition baseMs : Q := 1000.
Definition growthFactor : Q := 3 # 2.

(** [Math.min(30000, 1000 * Math.pow(1.5, reconnectAttempts))] *)
Definition reconnectDelay (reconnectAttempts : nat) : Q :=
  Qmin capMs (baseMs * Math_pow growthFactor reconnectAttempts).

Lemma Math_pow_pos (n : nat) : 0 < Math_pow growthFactor n.
Proof.
  induction n as [|n IH]; simpl.
  - reflexivity.
  - unfold growthFactor in *. nra.
Qed.

Lemma Math_pow_step (n : nat) :
  Math_pow growthFactor n <= Math_pow growthFactor (S n).
Proof.
  pose proof (Math_pow_pos n) as Hpos. simpl. unfold growthFactor in *. lra.
Qed.

Lemma Math_pow_mono (n m : nat) :
  (n <= m)%nat -> Math_pow growthFactor n <= Math_pow growthFactor m.
Proof.
  induction 1 as [|m Hle IH].
  - apply Qle_refl.
  - eapply Qle_trans; [exact IH | apply Math_pow_step].
Qed.

Lemma reconnectDelay_le_cap (n : nat) : reconnectDelay n <= capMs.
Proof. unfold reconnectDelay. apply Q.le_min_l. Qed.

Lemma reconnectDelay_mono (n m : nat) :
  (n <= m)%nat -> reconnectDelay n <= reconnectDelay m.
Proof.
  intros Hle. unfold reconnectDelay.
  apply Q.min_le_compat_l.
  pose proof (Math_pow_mono n m Hle). unfold baseMs. lra.
Qed.

(** From the ninth retry on the uncapped value is above the ceiling. *)
Lemma uncapped_above_cap (n : nat) :
  (9 <= n)%nat -> capMs < baseMs * Math_pow growthFactor n.
Proof.
  intros Hle. pose proof (Math_pow_mono 9 n Hle) as Hm.
  assert (H9 : Math_pow growthFactor 9 == 19683 # 512) by reflexivity.
  rewrite H9 in Hm. unfold capMs, baseMs. lra.
Qed.

Lemma reconnectDelay_capped (n : nat) :
  (9 <= n)%nat -> reconnectDelay n == capMs.
Proof.
  intros Hle. unfold reconnectDelay.
  apply Q.min_l. apply Qlt_le_weak. now apply uncapped_above_cap.
Qed.

Lemma reconnectDelay_below_cap (n : nat) :
  (n < 9)%nat -> reconnectDelay n < capMs.
Proof.
  intros Hlt.
  do 9 (destruct n as [|n]; [reflexivity|]). lia.
Qed.

(** After at least one retry the delay is at least a second and a half. *)
Lemma reconnectDelay_ge_1500 (n : nat) :
  (1 <= n)%nat -> 1500 <= reconnectDelay n.
Proof.
  intros Hle. pose proof (reconnectDelay_mono 1 n Hle) as Hm.
  assert (H1 : reconnectDelay 1 == 1500) by reflexivity.
  rewrite H1 in Hm. exact Hm.
Qed.

Example reconnectDelay_1 : reconnectDelay 1 == 1500.
Proof. reflexivity. Qed.

Example reconnectDelay_4 : reconnectDelay 4 == 10125 # 2.
Proof. reflexivity. Qed.

Example reconnectDelay_8 : reconnectDelay 8 == 820125 # 32.
Proof. reflexivity. Qed.

Example reconnectDelay_20 : reconnectDelay 20 == 30000.
Proof. reflexivity. Qed.

(** C9. For attempt counts 1..k the delay
    [min(30000, 1000 * 1.5^attemptCount)] never decreases as the count
    grows, never exceeds the cap 30000, and once it has reached the cap
    (which happens exactly from the ninth attempt on) it stays there. *)
Theorem backoff_monotone_until_cap (n m : nat) :
  (1 <= n)%nat -> (n <= m)%nat ->
  reconnectDelay n <= reconnectDelay m /\
  reconnectDelay m <= 30000 /\
  (reconnectDelay n == 30000 -> reconnectDelay m == 30000) /\
  (reconnectDelay n == 30000 <-> (9 <= n)%nat).
Proof.
  intros H1 Hnm.
  assert (Hiff : reconnectDelay n == 30000 <-> (9 <= n)%nat).
  { split.
    - intros Heq. destruct (le_lt_dec 9 n) as [Hge|Hlt]; [exact Hge|].
      pose proof (reconnectDelay_below_cap n Hlt) as Hb.
      unfold capMs in Hb. lra.
    - apply reconnectDelay_capped. }
  repeat split.
  - now apply reconnectDelay_mono.
  - apply reconnectDelay_le_cap.
  - intros Heq. apply reconnectDelay_capped. apply Hiff in Heq. lia.
  - apply Hiff.
  - apply Hiff.
Qed.

Lemma backoff_monotone_until_cap_witness :
  reconnectDelay 3 <= reconnectDelay 9 /\
  reconnectDelay 9 <= 30000 /\
  (reconnectDelay 3 == 30000 -> reconnectDelay 9 == 30000) /\
  (reconnectDelay 3 == 30000 <-> (9 <= 3)%nat).
Proof. apply (backoff_monotone_until_cap 3 9); lia. Defined.

End Backoff.

(* ===================================================================== *)
(** ** Inbound frames (TrackingDashboard.tsx, [onMessage] callback)      *)
(* ===================================================================== *)

Module Frames.

(** Run-time values of the parsed frame ([msg : any], the result of
    [JSON.parse]) and of the expressions built from it.  An object keeps
    its own properties as an association list holding each key once. *)
Inductive value : Type :=
| VUndefined
| VNull
| VBool (b : bool)
| VNum (q : Q)
| VStr (s : string)
| VArr (items : list value)
| VObj (fields : list (string * value)).

(** JavaScript truthiness ([if (v)], [!v], [a && b]). *)
Definition truthy (v : value) : bool :=
  match v with
  | VUndefined | VNull => false
  | VBool b => b
  | VNum q => negb (Qeq_bool q 0)
  | VStr s => negb (String.eqb s "")
  | VArr _ | VObj _ => true
  end.

Fixpoint assoc (k : string) (fields : list (string * value)) : option value :=
  match fields with
  | [] => None
  | (k', v) :: rest => if String.eqb k' k then Some v else assoc k rest
  end.

(** [v.k] on a receiver that is neither [null] nor [undefined], for the
    keys the dashboard reads (none of them is defined on a built-in
    prototype): an own property of an object, [undefined] otherwise. *)
Definition getProp (v : value) (k : string) : value :=
  match v with
  | VObj fields => default VUndefined (assoc k fields)
  | _ => VUndefined
  end.

(** [v?.k] *)
Definition optProp (v : value) (k : string) : value :=
  match v with
  | VUndefined | VNull => VUndefined
  | _ => getProp v k
  end.

(** [msg.g?.f] for a truthy [msg] *)
Definition fieldOf (msg : value) (g f : string) : value :=
  optProp (getProp msg g) f.

(** [v ?? d] *)
Definition nullish (v d : value) : value :=
  match v with
  | VUndefined | VNull => d
  | _ => v
  end.

(** [v !== s] against a string [s] *)
Definition strictNeqStr (v : value) (s : string) : bool :=
  match v with
  | VStr s' => negb (String.eqb s' s)
  | _ => true
  end.

Record Coordinates : Type := { lat : value; lon : value }.

Record TrackingData : Type := {
  temperature : value;
  humidity : value;
  coordinates : Coordinates;
  timestamp : value;
  packageId : value
}.

(** The component state the push channel writes. *)
Record UiState : Type := {
  trackingData : option TrackingData;
  isLoading : bool;
  wsConnected : bool
}.

Definition setTrackingData (d : option TrackingData) (ui : UiState) : UiState :=
  {| trackingData := d; isLoading := isLoading ui; wsConnected := wsConnected ui |}.

Definition setIsLoading (b : bool) (ui : UiState) : UiState :=
  {| trackingData := trackingData ui; isLoading := b; wsConnected := wsConnected ui |}.

Definition setWsConnected (b : bool) (ui : UiState) : UiState :=
  {| trackingData := trackingData ui; isLoading := isLoading ui; wsConnected := b |}.

(** The object literal [transformed]; [now] is [new Date().toISOString()]
    and [selectedPackageId] the (non-null) identifier captured by the
    effect. *)
Definition transformed (selectedPackageId now : string) (msg : value) : TrackingData :=
  {| temperature := nullish (fieldOf msg "dhtData" "temperature") (VNum 0);
     humidity := nullish (fieldOf msg "dhtData" "humidity") (VNum 0);
     coordinates :=
       {| lat := nullish (fieldOf msg "gpsData" "latitude") (VNum 0);
          lon := nullish (fieldOf msg "gpsData" "longitude") (VNum 0) |};
     timestamp := nullish (fieldOf msg "dhtData" "timestamp") (VStr now);
     packageId := nullish (getProp msg "packageId") (VStr selectedPackageId) |}.

(** The identifier filter:
    [msg.packageId && msg.packageId !== selectedPackageId]. *)
Definition filteredOut (selectedPackageId : string) (msg : value) : bool :=
  truthy (getProp msg "packageId")
  && strictNeqStr (getProp msg "packageId") selectedPackageId.

(** The first callback passed to [connectWebSocket].  No expression of
    its body can throw, so the surrounding [try]/[catch] is inert. *)
Definition onMessage (selectedPackageId now : string) (msg : value) (ui : UiState) : UiState :=
  if negb (truthy msg) then ui
  else if filteredOut selectedPackageId msg then ui
  else setIsLoading false (setTrackingData (Some (transformed selectedPackageId now msg)) ui).

(** Sample frames. *)
Definition frame (fields : list (string * value)) : value := VObj fields.

Definition sampleDht : value :=
  VObj [("temperature", VNum (45 # 2)); ("humidity", VNum 60);
        ("timestamp", VStr "2025-01-01T10:00:00")].

Definition sampleGps : value :=
  VObj [("longitude", VNum (-(171 # 25))); ("latitude", VNum (1701 # 50));
        ("satellites", VNum 7); ("timestamp", VStr "2025-01-01T10:00:00")].

Definition ui0 : UiState :=
  {| trackingData := None; isLoading := true; wsConnected := false |}.

Example onMessage_full :
  trackingData
    (onMessage "PKG-1" "NOW" (frame [("dhtData", sampleDht); ("gpsData", sampleGps)]) ui0)
  = Some {| temperature := VNum (45 # 2); humidity := VNum 60;
            coordinates := {| lat := VNum (1701 # 50); lon := VNum (-(171 # 25)) |};
            timestamp := VStr "2025-01-01T10:00:00";
            packageId := VStr "PKG-1" |}.
Proof. reflexivity. Qed.

Example onMessage_other_package :
  onMessage "PKG-1" "NOW" (frame [("packageId", VStr "PKG-2"); ("dhtData", sampleDht)]) ui0
  = ui0.
Proof. reflexivity. Qed.

Example onMessage_null_frame : onMessage "PKG-1" "NOW" VNull ui0 = ui0.
Proof. reflexivity. Qed.

Lemma strictNeqStr_spec (v : value) (s : string) :
  strictNeqStr v s = true <-> v <> VStr s.
Proof.
  destruct v; simpl; try (split; [discriminate | reflexivity]).
  rewrite negb_true_iff. split.
  - intros Hne Heq. injection Heq as ->. rewrite String.eqb_refl in Hne. discriminate.
  - intros Hne. apply String.eqb_neq. congruence.
Qed.

Lemma nullish_missing (v d : value) :
  v = VUndefined \/ v = VNull -> nullish v d = d.
Proof. intros [-> | ->]; reflexivity. Qed.

Lemma nullish_present (v d : value) :
  v <> VUndefined -> v <> VNull -> nullish v d = v.
Proof. destruct v; simpl; congruence. Qed.

(** A frame without the group, or with a group lacking the field, has
    the field missing. *)
Lemma fieldOf_no_group (fields : list (string * value)) (g f : string) :
  assoc g fields = None -> fieldOf (VObj fields) g f = VUndefined.
Proof. intros H. unfold fieldOf. simpl. rewrite H. reflexivity. Qed.

Lemma fieldOf_no_field (fields grp : list (string * value)) (g f : string) :
  assoc g fields = Some (VObj grp) -> assoc f grp = None ->
  fieldOf (VObj fields) g f = VUndefined.
Proof. intros Hg Hf. unfold fieldOf. simpl. rewrite Hg. simpl. rewrite Hf. reflexivity. Qed.

Lemma fieldOf_field (fields grp : list (string * value)) (g f : string) (v : value) :
  assoc g fields = Some (VObj grp) -> assoc f grp = Some v ->
  fieldOf (VObj fields) g f = v.
Proof. intros Hg Hf. unfold fieldOf. simpl. rewrite Hg. simpl. rewrite Hf. reflexivity. Qed.

(** A field read from the frame ends up in the UI shape as it is, or as
    the default [d] when it is missing ([undefined]) or [null]. *)
Definition substituted (src out d : value) : Prop :=
  (src = VUndefined \/ src = VNull -> out = d) /\
  (src <> VUndefined -> src <> VNull -> out = src).

Lemma nullish_substituted (src d : value) : substituted src (nullish src d) d.
Proof. split; [apply nullish_missing | apply nullish_present]. Qed.

Lemma onMessage_mapped (sel now : string) (msg : value) (ui : UiState) :
  truthy msg = true -> filteredOut sel msg = false ->
  onMessage sel now msg ui
  = setIsLoading false (setTrackingData (Some (transformed sel now msg)) ui).
Proof. intros Ht Hf. unfold onMessage. rewrite Ht, Hf. reflexivity. Qed.

(** A frame whose identifier is present but empty. *)
Definition blankIdFrame : value :=
  frame [("packageId", VStr ""); ("dhtData", sampleDht); ("gpsData", sampleGps)].

(** C6 as stated fails: an identifier that is present and differs from
    the selected one, but is the empty string, does not make the client
    discard the frame; the displayed data is replaced. *)
Lemma blank_identifier_not_discarded :
  getProp blankIdFrame "packageId" = VStr "" /\
  VStr "" <> VUndefined /\ VStr "" <> VStr "PKG-1" /\
  onMessage "PKG-1" "NOW" blankIdFrame ui0 <> ui0 /\
  trackingData (onMessage "PKG-1" "NOW" blankIdFrame ui0)
  = Some (transformed "PKG-1" "NOW" blankIdFrame).
Proof.
  split; [reflexivity|]. split; [discriminate|]. split; [discriminate|].
  split; [|reflexivity]. vm_compute. discriminate.
Qed.

(** C6 (as amended). A frame whose [packageId] is truthy (present and
    not [null], [false], [0] or the empty string) and differs from the
    selected identifier is discarded and leaves the component state as
    it was; a non-empty frame without [packageId] (or with a falsy one,
    or with the selected one) is not discarded by this filter but
    mapped and displayed. *)
Theorem identifier_filter (sel now : string) (msg : value) (ui : UiState) :
  (truthy (getProp msg "packageId") = true ->
   getProp msg "packageId" <> VStr sel ->
   onMessage sel now msg ui = ui) /\
  (truthy msg = true ->
   getProp msg "packageId" = VUndefined \/
   truthy (getProp msg "packageId") = false \/
   getProp msg "packageId" = VStr sel ->
   filteredOut sel msg = false /\
   trackingData (onMessage sel now msg ui) = Some (transformed sel now msg)).
Proof.
  split.
  - intros Ht Hne. unfold onMessage. destruct (negb (truthy msg)); [reflexivity|].
    unfold filteredOut. rewrite Ht. apply strictNeqStr_spec in Hne. rewrite Hne.
    reflexivity.
  - intros Hm Hcases.
    assert (Hf : filteredOut sel msg = false).
    { unfold filteredOut. destruct Hcases as [->|[->| ->]]; try reflexivity.
      simpl. rewrite String.eqb_refl. apply andb_false_r. }
    split; [exact Hf|]. rewrite (onMessage_mapped sel now msg ui Hm Hf). reflexivity.
Qed.

Lemma identifier_filter_witness :
  onMessage "PKG-1" "NOW" (frame [("packageId", VStr "PKG-2"); ("dhtData", sampleDht)]) ui0
  = ui0 /\
  trackingData (onMessage "PKG-1" "NOW" (frame [("dhtData", sampleDht)]) ui0)
  = Some (transformed "PKG-1" "NOW" (frame [("dhtData", sampleDht)])).
Proof.
  split.
  - apply (proj1 (identifier_filter "PKG-1" "NOW"
                    (frame [("packageId", VStr "PKG-2"); ("dhtData", sampleDht)]) ui0));
      [reflexivity | discriminate].
  - apply (proj2 (identifier_filter "PKG-1" "NOW" (frame [("dhtData", sampleDht)]) ui0));
      [reflexivity | left; reflexivity].
Defined.

(** C8. A frame that reaches the mapping (non-empty and not filtered
    out) is displayed in the canonical shape: each of temperature,
    humidity, latitude and longitude is the value read from the frame,
    or 0 when that field is missing; the timestamp is the one of the
    frame, or the current time when it is missing. *)
Theorem missing_fields_defaulted (sel now : string) (msg : value) (ui : UiState) :
  truthy msg = true -> filteredOut sel msg = false ->
  exists td,
    trackingData (onMessage sel now msg ui) = Some td /\
    isLoading (onMessage sel now msg ui) = false /\
    substituted (fieldOf msg "dhtData" "temperature") (temperature td) (VNum 0) /\
    substituted (fieldOf msg "dhtData" "humidity") (humidity td) (VNum 0) /\
    substituted (fieldOf msg "gpsData" "latitude") (lat (coordinates td)) (VNum 0) /\
    substituted (fieldOf msg "gpsData" "longitude") (lon (coordinates td)) (VNum 0) /\
    substituted (fieldOf msg "dhtData" "timestamp") (timestamp td) (VStr now).
Proof.
  intros Hm Hf. exists (transformed sel now msg).
  rewrite (onMessage_mapped sel now msg ui Hm Hf). simpl.
  repeat split; try reflexivity; try apply nullish_missing; try apply nullish_present.
Qed.

(** A frame with a position only: no [dhtData] at all, no longitude. *)
Definition positionOnlyFrame : value :=
  frame [("gpsData", VObj [("latitude", VNum (1701 # 50))])].

Lemma missing_fields_defaulted_witness :
  exists td,
    trackingData (onMessage "PKG-1" "NOW" positionOnlyFrame ui0) = Some td /\
    temperature td = VNum 0 /\ humidity td = VNum 0 /\
    lat (coordinates td) = VNum (1701 # 50) /\ lon (coordinates td) = VNum 0 /\
    timestamp td = VStr "NOW".
Proof.
  destruct (missing_fields_defaulted "PKG-1" "NOW" positionOnlyFrame ui0
              eq_refl eq_refl)
    as (td & Htd & _ & Ht & Hh & Hla & Hlo & Hts).
  exists td. split; [exact Htd|].
  split; [apply Ht; left; reflexivity|].
  split; [apply Hh; left; reflexivity|].
  split; [apply Hla; discriminate|].
  split; [apply Hlo; left; reflexivity|].
  apply Hts. left. reflexivity.
Defined.

End Frames.

(* ===================================================================== *)
(** ** Client resilience layer (websocketService.ts, TrackingDashboard)  *)
(* ===================================================================== *)

Module Client.
Import Backoff Frames.

(** *** The browser objects *)

Inductive ReadyState : Type := CONNECTING | OPEN | CLOSING | CLOSED.

Definition isClosed (r : ReadyState) : bool :=
  match r with CLOSED => true | _ => false end.

(** A [WebSocket] object.  Its four handlers are the closures installed
    by [create] and so belong to the [connectWebSocket] instance [owner]. *)
Record Socket : Type := {
  owner : nat;
  sockUrl : string;
  readyState : ReadyState
}.

(** What a pending timer runs: [() => create()] of a [connectWebSocket]
    instance, or the dashboard's delayed switch to the fallback URL. *)
Inductive Callback : Type :=
| CbReconnect (h : nat)
| CbFallback.

Record Timer : Type := {
  timerId : nat;
  due : Q;
  delay : Q;
  callback : Callback
}.

(** The variables closed over by one call of [connectWebSocket]. *)
Record Handle : Type := {
  url : string;
  ws : option nat;
  shouldReconnect : bool;
  reconnectAttempts : nat;
  reconnectTimer : option nat
}.

(** Observable actions: a call of [new WebSocket(u)] by instance [h],
    and a call of [setTimeout]. *)
Inductive Effect : Type :=
| AttemptConnect (h : nat) (u : string)
| Scheduled (cb : Callback) (d : Q).

(** The page: browser objects, the variables of the dashboard effect
    ([activeHandle], [attemptedFallback]), the component state and the
    log of observable actions (newest first). *)
Record World : Type := {
  handles : list Handle;
  sockets : list Socket;
  timers : list Timer;
  nextTimer : nat;
  clock : Q;
  activeHandle : option nat;
  attemptedFallback : bool;
  ui : UiState;
  trace : list Effect
}.

Definition set_handles (f : list Handle -> list Handle) (w : World) : World :=
  {| handles := f (handles w); sockets := sockets w; timers := timers w;
     nextTimer := nextTimer w; clock := clock w; activeHandle := activeHandle w;
     attemptedFallback := attemptedFallback w; ui := ui w; trace := trace w |}.

Definition set_sockets (f : list Socket -> list Socket) (w : World) : World :=
  {| handles := handles w; sockets := f (sockets w); timers := timers w;
     nextTimer := nextTimer w; clock := clock w; activeHandle := activeHandle w;
     attemptedFallback := attemptedFallback w; ui := ui w; trace := trace w |}.

Definition set_timers (f : list Timer -> list Timer) (w : World) : World :=
  {| handles := handles w; sockets := sockets w; timers := f (timers w);
     nextTimer := nextTimer w; clock := clock w; activeHandle := activeHandle w;
     attemptedFallback := attemptedFallback w; ui := ui w; trace := trace w |}.

Definition set_nextTimer (n : nat) (w : World) : World :=
  {| handles := handles w; sockets := sockets w; timers := timers w;
     nextTimer := n; clock := clock w; activeHandle := activeHandle w;
     attemptedFallback := attemptedFallback w; ui := ui w; trace := trace w |}.

Definition set_clock (t : Q) (w : World) : World :=
  {| handles := handles w; sockets := sockets w; timers := timers w;
     nextTimer := nextTimer w; clock := t; activeHandle := activeHandle w;
     attemptedFallback := attemptedFallback w; ui := ui w; trace := trace w |}.

Definition set_activeHandle (a : option nat) (w : World) : World :=
  {| handles := handles w; sockets := sockets w; timers := timers w;
     nextTimer := nextTimer w; clock := clock w; activeHandle := a;
     attemptedFallback := attemptedFallback w; ui := ui w; trace := trace w |}.

Definition set_attemptedFallback (b : bool) (w : World) : World :=
  {| handles := handles w; sockets := sockets w; timers := timers w;
     nextTimer := nextTimer w; clock := clock w; activeHandle := activeHandle w;
     attemptedFallback := b; ui := ui w; trace := trace w |}.

Definition set_ui (f : UiState -> UiState) (w : World) : World :=
  {| handles := handles w; sockets := sockets w; timers := timers w;
     nextTimer := nextTimer w; clock := clock w; activeHandle := activeHandle w;
     attemptedFallback := attemptedFallback w; ui := f (ui w); trace := trace w |}.

Definition emit (e : Effect) (w : World) : World :=
  {| handles := handles w; sockets := sockets w; timers := timers w;
     nextTimer := nextTimer w; clock := clock w; activeHandle := activeHandle w;
     attemptedFallback := attemptedFallback w; ui := ui w; trace := e :: trace w |}.

Definition set_ws (v : option nat) (hd : Handle) : Handle :=
  {| url := url hd; ws := v; shouldReconnect := shouldReconnect hd;
     reconnectAttempts := reconnectAttempts hd; reconnectTimer := reconnectTimer hd |}.

Definition set_shouldReconnect (b : bool) (hd : Handle) : Handle :=
  {| url := url hd; ws := ws hd; shouldReconnect := b;
     reconnectAttempts := reconnectAttempts hd; reconnectTimer := reconnectTimer hd |}.

Definition set_reconnectAttempts (n : nat) (hd : Handle) : Handle :=
  {| url := url hd; ws := ws hd; shouldReconnect := shouldReconnect hd;
     reconnectAttempts := n; reconnectTimer := reconnectTimer hd |}.

Definition set_reconnectTimer (t : option nat) (hd : Handle) : Handle :=
  {| url := url hd; ws := ws hd; shouldReconnect := shouldReconnect hd;
     reconnectAttempts := reconnectAttempts hd; reconnectTimer := t |}.

Definition set_readyState (r : ReadyState) (sk : Socket) : Socket :=
  {| owner := owner sk; sockUrl := sockUrl sk; readyState := r |}.

(** [window.setTimeout(cb, d)]: a fresh positive identifier. *)
Definition setTimeout (cb : Callback) (d : Q) (w : World) : nat * World :=
  let t := nextTimer w in
  (t, emit (Scheduled cb d)
        (set_nextTimer (S t)
           (set_timers
              (cons {| timerId := t; due := clock w + d; delay := d; callback := cb |})
              w))).

(** [clearTimeout(t)] *)
Definition clearTimeout (t : nat) (w : World) : World :=
  set_timers (List.filter (fun tm => negb (Nat.eqb (timerId tm) t))) w.

(** [WebSocket.close()]: starts the closing handshake of a socket that
    is connecting or open, does nothing otherwise. *)
Definition sockClose (s : nat) (w : World) : World :=
  set_sockets
    (alter (fun sk =>
              match readyState sk with
              | CONNECTING | OPEN => set_readyState CLOSING sk
              | _ => sk
              end) s) w.

Definition updHandle (h : nat) (f : Handle -> Handle) (w : World) : World :=
  set_handles (alter f h) w.

(** *** websocketService.ts *)

Definition scheduleReconnect (h : nat) (w : World) : World :=
  match handles w !! h with
  | None => w
  | Some hd =>
      let n := S (reconnectAttempts hd) in
      let d := reconnectDelay n in
      let '(t, w1) := setTimeout (CbReconnect h) d w in
      updHandle h (fun x => set_reconnectTimer (Some t) (set_reconnectAttempts n x)) w1
  end.

(** [create()]; [throws] tells whether [new WebSocket(url)] throws. *)
Definition create (h : nat) (throws : bool) (w : World) : World :=
  match handles w !! h with
  | None => w
  | Some hd =>
      let w0 := emit (AttemptConnect h (url hd)) w in
      if throws then scheduleReconnect h w0
      else
        let s := length (sockets w0) in
        updHandle h (set_ws (Some s))
          (set_sockets
             (fun l => l ++ [{| owner := h; sockUrl := url hd; readyState := CONNECTING |}])
             w0)
  end.

(** [if (reconnectTimer) clearTimeout(reconnectTimer)] *)
Definition cancelTimer (hd : Handle) (w : World) : World :=
  match reconnectTimer hd with
  | Some t => if Nat.eqb t 0 then w else clearTimeout t w
  | None => w
  end.

(** [if (ws) { ws.close(); ws = null }] *)
Definition closeSocket (h : nat) (hd : Handle) (w : World) : World :=
  match ws hd with
  | Some s => updHandle h (set_ws None) (sockClose s w)
  | None => w
  end.

(** [close()] of the returned handle. *)
Definition close (h : nat) (w : World) : World :=
  match handles w !! h with
  | None => w
  | Some hd =>
      closeSocket h hd (cancelTimer hd (updHandle h (set_shouldReconnect false) w))
  end.

(** [connectWebSocket(url, ...)]: fresh variables, then [create()]. *)
Definition connectWebSocket (u : string) (throws : bool) (w : World) : nat * World :=
  let h := length (handles w) in
  (h, create h throws
        (set_handles
           (fun l => l ++ [{| url := u; ws := None; shouldReconnect := true;
                              reconnectAttempts := 0; reconnectTimer := None |}])
           w)).

Section Dashboard.

Variables primaryUrl fallbackUrl selectedPackageId : string.

(** *** TrackingDashboard.tsx, the push-channel effect *)

Definition createHandler (u : string) (throws : bool) (w : World) : nat * World :=
  connectWebSocket u throws w.

Definition onOpenCb (w : World) : World := set_ui (setWsConnected true) w.

Definition fallbackDelay : Q := 250.

Definition onCloseCb (u : string) (w : World) : World :=
  let w1 := set_ui (setWsConnected false) w in
  if negb (attemptedFallback w1) && String.eqb u primaryUrl
  then snd (setTimeout CbFallback fallbackDelay (set_attemptedFallback true w1))
  else w1.

(** The delayed callback set by [onCloseCb]. *)
Definition fallbackCb (throws : bool) (w : World) : World :=
  let w1 := match activeHandle w with Some h => close h w | None => w end in
  let '(h', w2) := createHandler fallbackUrl throws w1 in
  set_activeHandle (Some h') w2.

(** The cleanup function returned by the effect. *)
Definition cleanup (w : World) : World :=
  let w1 := match activeHandle w with Some h => close h w | None => w end in
  set_ui (setWsConnected false) w1.

(** *** Socket handlers installed by [create] *)

Definition onopen (h : nat) (w : World) : World :=
  onOpenCb (updHandle h (set_reconnectAttempts 0) w).

Definition onmessage (parsed : option value) (iso : string) (w : World) : World :=
  match parsed with
  | Some msg => set_ui (onMessage selectedPackageId iso msg) w
  | None => w
  end.

Definition onclose (h : nat) (w : World) : World :=
  match handles w !! h with
  | None => w
  | Some hd =>
      let w1 := onCloseCb (url hd) w in
      match handles w1 !! h with
      | Some hd1 => if shouldReconnect hd1 then scheduleReconnect h w1 else w1
      | None => w1
      end
  end.

Definition onerror (h : nat) (w : World) : World :=
  match handles w !! h with
  | Some hd => match ws hd with Some s => sockClose s w | None => w end
  | None => w
  end.

(** *** The event loop *)

(** What the browser can deliver: a transport event on a socket, a due
    timer, or React running the effect's cleanup.  [EvMessage] carries
    the outcome of decoding and [JSON.parse] ([None] when the payload is
    of an unknown type or not JSON) and the value of
    [new Date().toISOString()]; [EvTimer] carries whether a
    [new WebSocket] made by the callback throws. *)
Inductive Event : Type :=
| EvOpen (s : nat)
| EvMessage (s : nat) (parsed : option value) (iso : string)
| EvError (s : nat)
| EvClose (s : nat)
| EvTimer (t : nat) (throws : bool)
| EvCleanup.

Definition findTimer (t : nat) (w : World) : option Timer :=
  List.find (fun tm => Nat.eqb (timerId tm) t) (timers w).

(** No pending timer is due strictly before [tm]. *)
Definition earliest (tm : Timer) (w : World) : bool :=
  forallb (fun tm' => Qle_bool (due tm) (due tm')) (timers w).

Definition runCallback (cb : Callback) (throws : bool) (w : World) : World :=
  match cb with
  | CbReconnect h => create h throws w
  | CbFallback => fallbackCb throws w
  end.

(** One turn of the event loop at time [at_].  [None]: the browser cannot
    deliver this event in this state (time does not run backwards, a
    socket fires [open] only while connecting, [message] only while
    open, nothing once closed, and timers fire in the order of their
    due times, not before they are due).  A timer that fires leaves the
    set of pending timers before its callback runs. *)
Definition step (at_ : Q) (e : Event) (w : World) : option World :=
  if negb (Qle_bool (clock w) at_) then None
  else
    let w := set_clock at_ w in
    match e with
    | EvOpen s =>
        match sockets w !! s with
        | Some sk =>
            match readyState sk with
            | CONNECTING =>
                Some (onopen (owner sk) (set_sockets (alter (set_readyState OPEN) s) w))
            | _ => None
            end
        | None => None
        end
    | EvMessage s parsed iso =>
        match sockets w !! s with
        | Some sk =>
            match readyState sk with
            | OPEN => Some (onmessage parsed iso w)
            | _ => None
            end
        | None => None
        end
    | EvError s =>
        match sockets w !! s with
        | Some sk => if isClosed (readyState sk) then None else Some (onerror (owner sk) w)
        | None => None
        end
    | EvClose s =>
        match sockets w !! s with
        | Some sk =>
            if isClosed (readyState sk) then None
            else Some (onclose (owner sk) (set_sockets (alter (set_readyState CLOSED) s) w))
        | None => None
        end
    | EvTimer t throws =>
        match findTimer t w with
        | Some tm =>
            if Qle_bool (due tm) at_ && earliest tm w
            then Some (runCallback (callback tm) throws (clearTimeout t w))
            else None
        | None => None
        end
    | EvCleanup => Some (cleanup w)
    end.

Fixpoint run (evs : list (Q * Event)) (w : World) : option World :=
  match evs with
  | [] => Some w
  | (at_, e) :: rest =>
      match step at_ e w with
      | Some w' => run rest w'
      | None => None
      end
  end.

Definition emptyWorld : World :=
  {| handles := []; sockets := []; timers := []; nextTimer := 1; clock := 0;
     activeHandle := None; attemptedFallback := false;
     ui := {| trackingData := None; isLoading := true; wsConnected := false |};
     trace := [] |}.

(** The effect body: [activeHandle = createHandler(primaryUrl)]. *)
Definition start (throws : bool) : World :=
  let '(h, w) := createHandler primaryUrl throws emptyWorld in
  set_activeHandle (Some h) w.

End Dashboard.


(** *** Structural invariant of the browser objects *)

Local Open Scope nat_scope.

(** No reconnect timer of instance [h] is pending. *)
Definition NoPending (h : nat) (w : World) : Prop :=
  forall tm, In tm (timers w) -> callback tm <> CbReconnect h.

(** Every socket created by instance [h] has fired its [close] event. *)
Definition AllClosed (h : nat) (w : World) : Prop :=
  forall s sk, sockets w !! s = Some sk -> owner sk = h -> readyState sk = CLOSED.

Definition NoFallbackPending (w : World) : Prop :=
  forall tm, In tm (timers w) -> callback tm <> CbFallback.

(** Instance [h] has been cancelled and has nothing left to run. *)
Definition Dead (h : nat) (w : World) : Prop :=
  (exists hd, handles w !! h = Some hd /\ shouldReconnect hd = false) /\ NoPending h w.

(** Timer identifiers are positive; sockets and reconnect timers belong
    to existing instances; a pending reconnect timer of an instance is
    the one remembered in its [reconnectTimer], the instance is still
    enabled and has no live socket; an instance has at most one live
    socket. *)
Record Core (w : World) : Prop := {
  core_next : 1 <= nextTimer w;
  core_ids : forall tm, In tm (timers w) -> 1 <= timerId tm;
  core_owner : forall s sk, sockets w !! s = Some sk -> owner sk < length (handles w);
  core_cb : forall tm h, In tm (timers w) -> callback tm = CbReconnect h ->
            h < length (handles w);
  core_link : forall tm h hd, In tm (timers w) -> callback tm = CbReconnect h ->
              handles w !! h = Some hd ->
              reconnectTimer hd = Some (timerId tm) /\ shouldReconnect hd = true;
  core_pending_closed : forall tm h, In tm (timers w) -> callback tm = CbReconnect h ->
                        AllClosed h w;
  core_live_unique : forall s1 s2 sk1 sk2,
      sockets w !! s1 = Some sk1 -> sockets w !! s2 = Some sk2 ->
      owner sk1 = owner sk2 ->
      readyState sk1 <> CLOSED -> readyState sk2 <> CLOSED -> s1 = s2
}.

Lemma lookup_alter_Some {A : Type} (f : A -> A) (l : list A) (i j : nat) (y : A) :
  alter f i l !! j = Some y ->
  exists x, l !! j = Some x /\ ((i = j /\ y = f x) \/ (i <> j /\ y = x)).
Proof.
  destruct (decide (i = j)) as [->|Hne].
  - rewrite list_lookup_alter_eq. destruct (l !! j) as [x|]; simpl; [|discriminate].
    intros [= <-]. exists x. auto.
  - rewrite list_lookup_alter_ne by exact Hne. intros H. exists y. auto.
Qed.

Lemma In_clear (t : nat) (l : list Timer) (tm : Timer) :
  In tm (List.filter (fun x => negb (Nat.eqb (timerId x) t)) l) <->
  In tm l /\ timerId tm <> t.
Proof.
  rewrite filter_In, negb_true_iff, Nat.eqb_neq. reflexivity.
Qed.

(** [Core] reads the handles, sockets and timers only. *)
Lemma Core_ext (w w' : World) :
  handles w' = handles w -> sockets w' = sockets w -> timers w' = timers w ->
  nextTimer w' = nextTimer w -> Core w -> Core w'.
Proof.
  intros Hh Hs Ht Hn [? ? ? ? ? ? ?].
  constructor; unfold AllClosed in *; rewrite ?Hh, ?Hs, ?Ht, ?Hn; assumption.
Qed.

(** Dropping pending timers is harmless. *)
Lemma Core_fewer_timers (w : World) (f : list Timer -> list Timer) :
  (forall tm, In tm (f (timers w)) -> In tm (timers w)) ->
  Core w -> Core (set_timers f w).
Proof.
  intros Hsub [? ? ? ? ? ? ?].
  constructor; unfold AllClosed in *; simpl; eauto.
Qed.

Lemma Core_clearTimeout (t : nat) (w : World) : Core w -> Core (clearTimeout t w).
Proof.
  apply Core_fewer_timers. intros tm Hin. apply In_clear in Hin. tauto.
Qed.

(** A socket may change state as long as a closed socket stays closed. *)
Lemma Core_sock_alter (f : Socket -> Socket) (s : nat) (w : World) :
  (forall sk, sockets w !! s = Some sk ->
              owner (f sk) = owner sk /\
              (readyState sk = CLOSED -> readyState (f sk) = CLOSED)) ->
  Core w -> Core (set_sockets (alter f s) w).
Proof.
  intros Hf [Hn Hid Hown Hcb Hlink Hpc Hlu].
  constructor; simpl; try assumption.
  - intros s' sk' Hlk. apply lookup_alter_Some in Hlk as (x & Hx & [[-> ->]|[_ ->]]).
    + destruct (Hf x Hx) as [-> _]. eauto.
    + eauto.
  - intros tm h Hin Hc s' sk' Hlk Ho. simpl in Hlk.
    apply lookup_alter_Some in Hlk as (x & Hx & [[-> ->]|[_ ->]]).
    + destruct (Hf x Hx) as [Ho' Hcl]. apply Hcl.
      eapply Hpc; eauto. congruence.
    + eapply Hpc; eauto.
  - intros s1 s2 sk1 sk2 H1 H2 Ho L1 L2.
    apply lookup_alter_Some in H1 as (x1 & Hx1 & C1).
    apply lookup_alter_Some in H2 as (x2 & Hx2 & C2).
    assert (O1 : owner sk1 = owner x1 /\ (readyState x1 = CLOSED -> readyState sk1 = CLOSED)).
    { destruct C1 as [[E1 ->]|[_ ->]]; [|tauto]. subst s1. now apply Hf. }
    assert (O2 : owner sk2 = owner x2 /\ (readyState x2 = CLOSED -> readyState sk2 = CLOSED)).
    { destruct C2 as [[E2 ->]|[_ ->]]; [|tauto]. subst s2. now apply Hf. }
    apply (Hlu s1 s2 x1 x2 Hx1 Hx2).
    + destruct O1 as [<- _], O2 as [<- _]. exact Ho.
    + intros Hc. apply L1. now apply O1.
    + intros Hc. apply L2. now apply O2.
Qed.

Lemma Core_sockClose (s : nat) (w : World) : Core w -> Core (sockClose s w).
Proof.
  apply Core_sock_alter. intros sk _.
  destruct (readyState sk) eqn:E; simpl; split; try reflexivity; try congruence.
Qed.

(** An instance may change as long as [shouldReconnect] and
    [reconnectTimer] stay. *)
Lemma Core_handle_alter (f : Handle -> Handle) (h : nat) (w : World) :
  (forall hd, shouldReconnect (f hd) = shouldReconnect hd /\
              reconnectTimer (f hd) = reconnectTimer hd) ->
  Core w -> Core (updHandle h f w).
Proof.
  intros Hf [Hn Hid Hown Hcb Hlink Hpc Hlu].
  constructor; simpl; rewrite ?length_alter; try assumption.
  intros tm k hd Hin Hc Hlk.
  apply lookup_alter_Some in Hlk as (x & Hx & [[-> ->]|[_ ->]]).
  - destruct (Hf x) as [-> ->]. eauto.
  - eauto.
Qed.

Lemma Core_set_fallback_timer (d : Q) (w : World) :
  Core w -> Core (snd (setTimeout CbFallback d w)).
Proof.
  intros [Hn Hid Hown Hcb Hlink Hpc Hlu].
  constructor; simpl; try assumption.
  - lia.
  - intros tm [<-|Hin]; simpl; [lia | auto].
  - intros tm h [<-|Hin] Hc; [discriminate | eauto].
  - intros tm h hd [<-|Hin] Hc; [discriminate | eauto].
  - intros tm h [<-|Hin] Hc; [discriminate |]. exact (Hpc tm h Hin Hc).
Qed.


Lemma Core_scheduleReconnect (h : nat) (w : World) :
  Core w -> NoPending h w -> AllClosed h w ->
  (forall hd, handles w !! h = Some hd -> shouldReconnect hd = true) ->
  Core (scheduleReconnect h w).
Proof.
  intros HC Hnp Hac Hsr. unfold scheduleReconnect.
  destruct (handles w !! h) as [hd|] eqn:Hh; [|exact HC].
  destruct HC as [Hn Hid Hown Hcb Hlink Hpc Hlu].
  constructor; simpl; rewrite ?length_alter; try assumption.
  - lia.
  - intros tm [<-|Hin]; simpl; [lia | auto].
  - intros tm k [<-|Hin] Hc; simpl in *.
    + injection Hc as <-. eapply lookup_lt_Some; eauto.
    + eauto.
  - intros tm k hd' [<-|Hin] Hc Hlk; simpl in *.
    + injection Hc as <-. rewrite list_lookup_alter_eq, Hh in Hlk.
      injection Hlk as <-. simpl. split; [reflexivity | auto].
    + assert (k <> h) by (intros ->; eapply Hnp; eauto).
      rewrite list_lookup_alter_ne in Hlk by congruence. eauto.
  - intros tm k [<-|Hin] Hc; simpl in *.
    + injection Hc as <-. exact Hac.
    + exact (Hpc tm k Hin Hc).
Qed.

Lemma Core_create (h : nat) (throws : bool) (w : World) :
  Core w -> NoPending h w -> AllClosed h w ->
  (forall hd, handles w !! h = Some hd -> shouldReconnect hd = true) ->
  Core (create h throws w).
Proof.
  intros HC Hnp Hac Hsr. unfold create.
  destruct (handles w !! h) as [hd|] eqn:Hh; [|exact HC].
  destruct throws.
  - apply Core_scheduleReconnect;
      [eapply Core_ext; [..|exact HC]; reflexivity | exact Hnp | exact Hac
      | simpl; rewrite Hh; exact Hsr].
  - destruct HC as [Hn Hid Hown Hcb Hlink Hpc Hlu].
    constructor; simpl; rewrite ?length_alter; try assumption.
    + intros s sk Hlk. apply lookup_snoc_Some in Hlk as [[_ Hlk]|[_ <-]]; simpl.
      * eauto.
      * eapply lookup_lt_Some; eauto.
    + intros tm k hd' Hin Hc Hlk.
      apply lookup_alter_Some in Hlk as (x & Hx & [[-> ->]|[_ ->]]); simpl; eauto.
    + intros tm k Hin Hc s sk Hlk Ho. simpl in Hlk.
      apply lookup_snoc_Some in Hlk as [[_ Hlk]|[_ <-]]; simpl in *.
      * eapply Hpc; eauto.
      * exfalso. subst k. eapply Hnp; eauto.
    + intros s1 s2 sk1 sk2 H1 H2 Ho L1 L2.
      apply lookup_snoc_Some in H1 as [[_ H1]|[E1 <-]];
        apply lookup_snoc_Some in H2 as [[_ H2]|[E2 <-]]; simpl in *.
      * eauto.
      * exfalso. apply L1. eapply Hac; eauto.
      * exfalso. apply L2. eapply Hac; eauto.
      * congruence.
Qed.

Lemma cancelTimer_fewer (hd : Handle) (w : World) (tm : Timer) :
  In tm (timers (cancelTimer hd w)) -> In tm (timers w).
Proof.
  unfold cancelTimer. destruct (reconnectTimer hd) as [t|]; [|auto].
  destruct (Nat.eqb t 0); [auto|]. simpl. intros Hin. apply In_clear in Hin. tauto.
Qed.

Lemma cancelTimer_fields (hd : Handle) (w : World) :
  handles (cancelTimer hd w) = handles w /\ sockets (cancelTimer hd w) = sockets w /\
  nextTimer (cancelTimer hd w) = nextTimer w /\ trace (cancelTimer hd w) = trace w /\
  attemptedFallback (cancelTimer hd w) = attemptedFallback w /\
  activeHandle (cancelTimer hd w) = activeHandle w.
Proof.
  unfold cancelTimer. destruct (reconnectTimer hd) as [t|]; [|tauto].
  destruct (Nat.eqb t 0); simpl; tauto.
Qed.

Lemma cancelTimer_updHandle (hd : Handle) (h : nat) (f : Handle -> Handle) (w : World) :
  cancelTimer hd (updHandle h f w) = updHandle h f (cancelTimer hd w).
Proof.
  unfold cancelTimer. destruct (reconnectTimer hd) as [t|]; [|reflexivity].
  destruct (Nat.eqb t 0); reflexivity.
Qed.

Lemma Core_cancelTimer (hd : Handle) (w : World) : Core w -> Core (cancelTimer hd w).
Proof.
  unfold cancelTimer. destruct (reconnectTimer hd) as [t|]; [|auto].
  destruct (Nat.eqb t 0); [auto|]. apply Core_clearTimeout.
Qed.

(** Cancelling the remembered timer leaves the instance nothing to run. *)
Lemma cancelTimer_NoPending (h : nat) (hd : Handle) (w : World) :
  Core w -> handles w !! h = Some hd -> NoPending h (cancelTimer hd w).
Proof.
  intros HC Hh tm Hin Hc.
  pose proof (cancelTimer_fewer _ _ _ Hin) as Hin0.
  destruct (core_link w HC tm h hd Hin0 Hc Hh) as [Hrt _].
  pose proof (core_ids w HC tm Hin0) as Hpos.
  unfold cancelTimer in Hin. rewrite Hrt in Hin.
  destruct (Nat.eqb (timerId tm) 0) eqn:E.
  - apply Nat.eqb_eq in E. lia.
  - simpl in Hin. apply In_clear in Hin. tauto.
Qed.

Lemma Core_disable (h : nat) (w : World) :
  Core w -> NoPending h w -> Core (updHandle h (set_shouldReconnect false) w).
Proof.
  intros [Hn Hid Hown Hcb Hlink Hpc Hlu] Hnp.
  constructor; simpl; rewrite ?length_alter; try assumption.
  intros tm k hd Hin Hc Hlk.
  assert (k <> h) by (intros ->; eapply Hnp; eauto).
  rewrite list_lookup_alter_ne in Hlk by congruence. eauto.
Qed.

Lemma Core_closeSocket (h : nat) (hd : Handle) (w : World) :
  Core w -> Core (closeSocket h hd w).
Proof.
  intros HC. unfold closeSocket. destruct (ws hd) as [s|]; [|exact HC].
  apply Core_handle_alter; [intros x; split; reflexivity|].
  now apply Core_sockClose.
Qed.

Lemma closeSocket_fields (h : nat) (hd : Handle) (w : World) :
  timers (closeSocket h hd w) = timers w /\ nextTimer (closeSocket h hd w) = nextTimer w /\
  trace (closeSocket h hd w) = trace w /\
  attemptedFallback (closeSocket h hd w) = attemptedFallback w /\
  activeHandle (closeSocket h hd w) = activeHandle w /\
  length (handles (closeSocket h hd w)) = length (handles w).
Proof.
  unfold closeSocket. destruct (ws hd); simpl; rewrite ?length_alter; tauto.
Qed.

Lemma Core_close (h : nat) (w : World) : Core w -> Core (close h w).
Proof.
  intros HC. unfold close. destruct (handles w !! h) as [hd|] eqn:Hh; [|exact HC].
  apply Core_closeSocket. rewrite cancelTimer_updHandle.
  apply Core_disable.
  - now apply Core_cancelTimer.
  - now apply cancelTimer_NoPending.
Qed.

Lemma close_timers_fewer (h : nat) (w : World) (tm : Timer) :
  In tm (timers (close h w)) -> In tm (timers w).
Proof.
  unfold close. destruct (handles w !! h) as [hd|]; [|auto].
  destruct (closeSocket_fields h hd
              (cancelTimer hd (updHandle h (set_shouldReconnect false) w))) as (-> & _).
  intros Hin. apply cancelTimer_fewer in Hin. exact Hin.
Qed.

Lemma close_fields (h : nat) (w : World) :
  nextTimer (close h w) = nextTimer w /\ trace (close h w) = trace w /\
  attemptedFallback (close h w) = attemptedFallback w /\
  activeHandle (close h w) = activeHandle w /\
  length (handles (close h w)) = length (handles w).
Proof.
  unfold close. destruct (handles w !! h) as [hd|]; [|tauto].
  destruct (closeSocket_fields h hd
              (cancelTimer hd (updHandle h (set_shouldReconnect false) w)))
    as (_ & -> & -> & -> & -> & ->).
  destruct (cancelTimer_fields hd (updHandle h (set_shouldReconnect false) w))
    as (-> & _ & -> & -> & -> & ->).
  simpl. rewrite length_alter. tauto.
Qed.

(** What [close] does to the instances: [h] is disabled, the others are
    untouched. *)
Lemma close_lookup (h k : nat) (w : World) (hd' : Handle) :
  handles (close h w) !! k = Some hd' ->
  exists hd, handles w !! k = Some hd /\ url hd' = url hd /\
             reconnectTimer hd' = reconnectTimer hd /\
             reconnectAttempts hd' = reconnectAttempts hd /\
             (k = h -> shouldReconnect hd' = false) /\
             (k <> h -> hd' = hd).
Proof.
  unfold close. destruct (handles w !! h) as [hd|] eqn:Hh.
  - unfold closeSocket. destruct (ws hd) as [s|]; simpl;
      rewrite ?(proj1 (cancelTimer_fields _ _)); simpl; intros Hlk.
    + apply lookup_alter_Some in Hlk as (x & Hx & C).
      apply lookup_alter_Some in Hx as (y & Hy & D).
      exists y. split; [exact Hy|].
      destruct C as [[-> ->]|[Hne ->]], D as [[E ->]|[Hne' ->]]; simpl;
        repeat split; try reflexivity; try congruence.
    + apply lookup_alter_Some in Hlk as (y & Hy & D).
      exists y. split; [exact Hy|].
      destruct D as [[E ->]|[Hne' ->]]; simpl;
        repeat split; try reflexivity; try congruence.
  - intros Hlk. exists hd'. repeat split; try assumption; try reflexivity.
    intros ->. congruence.
Qed.

Lemma close_Dead (h : nat) (w : World) :
  Core w -> h < length (handles w) -> Dead h (close h w).
Proof.
  intros HC Hlt. apply lookup_lt_is_Some_2 in Hlt as [hd Hh].
  split.
  - assert (Hl : h < length (handles (close h w))).
    { rewrite (proj2 (proj2 (proj2 (proj2 (close_fields h w))))).
      eapply lookup_lt_Some; eauto. }
    apply lookup_lt_is_Some_2 in Hl as [hd' Hh'].
    exists hd'. split; [exact Hh'|].
    destruct (close_lookup h h w hd' Hh') as (x & _ & _ & _ & _ & Hsr & _). auto.
  - unfold close. rewrite Hh. intros tm Hin.
    destruct (closeSocket_fields h hd
                (cancelTimer hd (updHandle h (set_shouldReconnect false) w))) as (E & _).
    rewrite E in Hin. rewrite cancelTimer_updHandle in Hin. simpl in Hin.
    exact (cancelTimer_NoPending h hd w HC Hh tm Hin).
Qed.

Lemma close_sockets (h : nat) (w : World) (s : nat) (sk' : Socket) :
  sockets (close h w) !! s = Some sk' ->
  exists sk, sockets w !! s = Some sk /\ owner sk' = owner sk /\
             (readyState sk = CLOSED -> readyState sk' = CLOSED).
Proof.
  unfold close. destruct (handles w !! h) as [hd|]; [|intros H; eauto].
  unfold closeSocket. destruct (ws hd) as [s0|]; simpl;
    rewrite ?(proj1 (proj2 (cancelTimer_fields _ _))); simpl; [|intros H; eauto].
  intros Hlk. apply lookup_alter_Some in Hlk as (x & Hx & [[-> ->]|[_ ->]]); eauto.
  exists x. split; [exact Hx|].
  destruct (readyState x) eqn:E; simpl; rewrite ?E; split; congruence.
Qed.

(** A fresh instance owns nothing yet. *)
Lemma Core_append (hd : Handle) (w : World) :
  Core w ->
  let w0 := set_handles (fun l => l ++ [hd]) w in
  Core w0 /\ NoPending (length (handles w)) w0 /\ AllClosed (length (handles w)) w0.
Proof.
  intros [Hn Hid Hown Hcb Hlink Hpc Hlu]. simpl. split; [|split].
  - constructor; simpl; rewrite ?length_app; simpl; try assumption.
    + intros s sk Hlk. specialize (Hown s sk Hlk). lia.
    + intros tm h Hin Hc. specialize (Hcb tm h Hin Hc). lia.
    + intros tm h hd' Hin Hc Hlk.
      rewrite lookup_app_l in Hlk by eauto. eauto.
  - intros tm Hin Hc. simpl in Hin. specialize (Hcb tm _ Hin Hc). lia.
  - intros s sk Hlk Ho. simpl in Hlk. specialize (Hown s sk Hlk). lia.
Qed.

Lemma Core_connectWebSocket (u : string) (throws : bool) (w : World) :
  Core w -> Core (snd (connectWebSocket u throws w)).
Proof.
  intros HC. unfold connectWebSocket. simpl.
  destruct (Core_append {| url := u; ws := None; shouldReconnect := true;
                           reconnectAttempts := 0; reconnectTimer := None |} w HC)
    as (HC0 & Hnp & Hac).
  apply Core_create; try assumption.
  simpl. intros hd Hlk. rewrite lookup_app_r in Hlk by lia.
  rewrite Nat.sub_diag in Hlk. simpl in Hlk. injection Hlk as <-. reflexivity.
Qed.


(** *** What one instance is seen to do *)

Definition byHandle (h : nat) (e : Effect) : bool :=
  match e with
  | AttemptConnect k _ => Nat.eqb k h
  | Scheduled (CbReconnect k) _ => Nat.eqb k h
  | Scheduled CbFallback _ => false
  end.

(** The connection attempts and reconnect schedulings of instance [h]. *)
Definition handleTrace (h : nat) (w : World) : list Effect :=
  List.filter (byHandle h) (trace w).

(** [Keeps h w w']: going from [w] to [w'], instance [h] was not
    re-enabled, got no new reconnect timer and no new or reopened
    socket, and did nothing observable. *)
Definition Keeps (h : nat) (w w' : World) : Prop :=
  (forall hd, handles w !! h = Some hd ->
     exists hd', handles w' !! h = Some hd' /\
                 (shouldReconnect hd = false -> shouldReconnect hd' = false)) /\
  (forall tm, In tm (timers w') -> callback tm = CbReconnect h -> In tm (timers w)) /\
  (forall s sk', sockets w' !! s = Some sk' -> owner sk' = h ->
     exists sk, sockets w !! s = Some sk /\ owner sk = h /\
                (readyState sk = CLOSED -> readyState sk' = CLOSED)) /\
  handleTrace h w' = handleTrace h w.

Lemma Keeps_refl (h : nat) (w : World) : Keeps h w w.
Proof. repeat split; eauto. Qed.

Lemma Keeps_trans (h : nat) (w1 w2 w3 : World) :
  Keeps h w1 w2 -> Keeps h w2 w3 -> Keeps h w1 w3.
Proof.
  intros (A1 & B1 & C1 & D1) (A2 & B2 & C2 & D2). repeat split.
  - intros hd Hh. destruct (A1 hd Hh) as (hd2 & Hh2 & S2).
    destruct (A2 hd2 Hh2) as (hd3 & Hh3 & S3). eauto.
  - eauto.
  - intros s sk3 Hs Ho. destruct (C2 s sk3 Hs Ho) as (sk2 & Hs2 & Ho2 & Cl2).
    destruct (C1 s sk2 Hs2 Ho2) as (sk1 & Hs1 & Ho1 & Cl1). eauto 6.
  - congruence.
Qed.

Lemma Keeps_Dead (h : nat) (w w' : World) : Keeps h w w' -> Dead h w -> Dead h w'.
Proof.
  intros (A & B & _ & _) [(hd & Hh & Hsr) Hnp]. split.
  - destruct (A hd Hh) as (hd' & Hh' & S). eauto.
  - intros tm Hin Hc. eapply Hnp; eauto.
Qed.

Lemma Keeps_AllClosed (h : nat) (w w' : World) :
  Keeps h w w' -> AllClosed h w -> AllClosed h w'.
Proof.
  intros (_ & _ & C & _) Hac s sk' Hs Ho.
  destruct (C s sk' Hs Ho) as (sk & Hs0 & Ho0 & Cl). eauto.
Qed.

(** Changes outside the handles, timers, sockets and log. *)
Lemma Keeps_same (h : nat) (w w' : World) :
  handles w' = handles w -> timers w' = timers w -> sockets w' = sockets w ->
  trace w' = trace w -> Keeps h w w'.
Proof.
  intros Hh Ht Hs Htr. unfold Keeps, handleTrace. rewrite Hh, Ht, Hs, Htr.
  apply Keeps_refl.
Qed.

Lemma Keeps_updHandle (h k : nat) (f : Handle -> Handle) (w : World) :
  (forall x, shouldReconnect x = false -> shouldReconnect (f x) = false) ->
  Keeps h w (updHandle k f w).
Proof.
  intros Hf. repeat split; simpl; eauto.
  intros hd Hh. destruct (decide (k = h)) as [->|Hne].
  - exists (f hd). rewrite list_lookup_alter_eq, Hh. auto.
  - exists hd. rewrite list_lookup_alter_ne by exact Hne. auto.
Qed.

Lemma Keeps_fewer_timers (h : nat) (f : list Timer -> list Timer) (w : World) :
  (forall tm, In tm (f (timers w)) -> In tm (timers w)) -> Keeps h w (set_timers f w).
Proof. intros Hsub. repeat split; simpl; eauto. Qed.

Lemma Keeps_cancelTimer (h : nat) (hd : Handle) (w : World) : Keeps h w (cancelTimer hd w).
Proof.
  unfold cancelTimer. destruct (reconnectTimer hd) as [t|]; [|apply Keeps_refl].
  destruct (Nat.eqb t 0); [apply Keeps_refl|].
  apply Keeps_fewer_timers. intros tm Hin. apply In_clear in Hin. tauto.
Qed.

(** A socket of [h] may change state if it was not closed, or stays
    closed; sockets of others are free. *)
Lemma Keeps_sock_alter (h s : nat) (f : Socket -> Socket) (w : World) :
  (forall sk, sockets w !! s = Some sk ->
              owner (f sk) = owner sk /\
              (readyState sk = CLOSED -> readyState (f sk) = CLOSED)) ->
  Keeps h w (set_sockets (alter f s) w).
Proof.
  intros Hf. repeat split; simpl; eauto.
  intros s' sk' Hs Ho.
  apply lookup_alter_Some in Hs as (x & Hx & [[-> ->]|[_ ->]]); [|eauto].
  destruct (Hf x Hx) as [Ho' Hcl]. exists x. rewrite <- Ho'. auto.
Qed.

Lemma Keeps_sockClose (h s : nat) (w : World) : Keeps h w (sockClose s w).
Proof.
  apply Keeps_sock_alter. intros sk _.
  destruct (readyState sk) eqn:E; simpl; split; try reflexivity; try congruence.
Qed.

Lemma Keeps_closeSocket (h k : nat) (hd : Handle) (w : World) :
  Keeps h w (closeSocket k hd w).
Proof.
  unfold closeSocket. destruct (ws hd) as [s|]; [|apply Keeps_refl].
  eapply Keeps_trans; [apply Keeps_sockClose|].
  apply Keeps_updHandle. auto.
Qed.

Lemma Keeps_close (h k : nat) (w : World) : Keeps h w (close k w).
Proof.
  unfold close. destruct (handles w !! k) as [hd|]; [|apply Keeps_refl].
  eapply Keeps_trans; [|apply Keeps_closeSocket].
  eapply Keeps_trans; [|apply Keeps_cancelTimer].
  apply Keeps_updHandle. auto.
Qed.

Lemma Keeps_set_fallback_timer (h : nat) (d : Q) (w : World) :
  Keeps h w (snd (setTimeout CbFallback d w)).
Proof.
  repeat split; simpl; eauto.
  intros tm [<-|Hin] Hc; [discriminate | exact Hin].
Qed.

Lemma Keeps_scheduleReconnect (h k : nat) (w : World) :
  k <> h -> Keeps h w (scheduleReconnect k w).
Proof.
  intros Hne. unfold scheduleReconnect.
  destruct (handles w !! k) as [hd|]; [|apply Keeps_refl].
  repeat split; simpl; eauto.
  - intros x Hx. exists x. rewrite list_lookup_alter_ne by exact Hne. auto.
  - intros tm [<-|Hin] Hc; [|exact Hin]. simpl in Hc. congruence.
  - unfold handleTrace. simpl. apply Nat.eqb_neq in Hne. rewrite Hne. reflexivity.
Qed.

Lemma Keeps_emit_other (h : nat) (e : Effect) (w : World) :
  byHandle h e = false -> Keeps h w (emit e w).
Proof.
  intros He. repeat split; simpl; eauto.
  unfold handleTrace. simpl. rewrite He. reflexivity.
Qed.

Lemma Keeps_create (h k : nat) (throws : bool) (w : World) :
  k <> h -> Keeps h w (create k throws w).
Proof.
  intros Hne. unfold create.
  destruct (handles w !! k) as [hd|]; [|apply Keeps_refl].
  assert (He : Keeps h w (emit (AttemptConnect k (url hd)) w)).
  { apply Keeps_emit_other. simpl. now apply Nat.eqb_neq. }
  destruct throws.
  - eapply Keeps_trans; [exact He|]. now apply Keeps_scheduleReconnect.
  - eapply Keeps_trans; [exact He|].
    eapply Keeps_trans; [|apply Keeps_updHandle; auto].
    repeat split; simpl; eauto.
    intros s sk' Hs Ho. apply lookup_snoc_Some in Hs as [[_ Hs]|[_ <-]]; [eauto|].
    simpl in Ho. congruence.
Qed.

Lemma Keeps_connectWebSocket (h : nat) (u : string) (throws : bool) (w : World) :
  h < length (handles w) -> Keeps h w (snd (connectWebSocket u throws w)).
Proof.
  intros Hlt. unfold connectWebSocket. simpl.
  eapply Keeps_trans; [|apply Keeps_create; lia].
  repeat split; simpl; eauto.
  intros hd Hh. exists hd. rewrite lookup_app_l by exact Hlt. auto.
Qed.


Section Properties.

Variables primaryUrl fallbackUrl selectedPackageId : string.

Abbreviation onCloseCb := (onCloseCb primaryUrl).
Abbreviation onclose := (onclose primaryUrl).
Abbreviation fallbackCb := (fallbackCb fallbackUrl).
Abbreviation step := (step primaryUrl fallbackUrl selectedPackageId).
Abbreviation run := (run primaryUrl fallbackUrl selectedPackageId).
Abbreviation start := (start primaryUrl).

Lemma onCloseCb_fields (u : string) (w : World) :
  handles (onCloseCb u w) = handles w /\ sockets (onCloseCb u w) = sockets w /\
  activeHandle (onCloseCb u w) = activeHandle w /\ clock (onCloseCb u w) = clock w.
Proof.
  unfold Client.onCloseCb. simpl.
  destruct (negb (attemptedFallback w) && String.eqb u primaryUrl); simpl; tauto.
Qed.

Lemma Keeps_onCloseCb (h : nat) (u : string) (w : World) : Keeps h w (onCloseCb u w).
Proof.
  unfold Client.onCloseCb.
  assert (K1 : Keeps h w (set_ui (setWsConnected false) w)) by (apply Keeps_same; reflexivity).
  destruct (negb (attemptedFallback (set_ui (setWsConnected false) w))
            && String.eqb u primaryUrl); [|exact K1].
  eapply Keeps_trans; [exact K1|].
  eapply Keeps_trans; [|apply Keeps_set_fallback_timer].
  apply Keeps_same; reflexivity.
Qed.

Lemma Keeps_onclose (h k : nat) (w : World) :
  (k = h -> Dead h w) -> Keeps h w (onclose k w).
Proof.
  intros Hd. unfold Client.onclose.
  destruct (handles w !! k) as [hd|] eqn:Hk; [|apply Keeps_refl].
  destruct (onCloseCb_fields (url hd) w) as (Eh & _).
  rewrite Eh, Hk.
  destruct (shouldReconnect hd) eqn:Hsr; [|apply Keeps_onCloseCb].
  eapply Keeps_trans; [apply Keeps_onCloseCb|].
  apply Keeps_scheduleReconnect. intros ->.
  destruct (Hd eq_refl) as [(hd' & Hh' & Hsr') _]. congruence.
Qed.

Lemma Keeps_fallbackCb (h : nat) (throws : bool) (w : World) :
  h < length (handles w) -> Keeps h w (fallbackCb throws w).
Proof.
  intros Hlt. unfold Client.fallbackCb, createHandler.
  set (w1 := match activeHandle w with Some a => close a w | None => w end).
  assert (K1 : Keeps h w w1).
  { unfold w1. destruct (activeHandle w); [apply Keeps_close | apply Keeps_refl]. }
  assert (L1 : length (handles w1) = length (handles w)).
  { unfold w1. destruct (activeHandle w); [apply close_fields | reflexivity]. }
  destruct (connectWebSocket fallbackUrl throws w1) as [h' w2] eqn:E.
  assert (K2 : Keeps h w1 w2).
  { change w2 with (snd (h', w2)). rewrite <- E.
    apply Keeps_connectWebSocket. lia. }
  eapply Keeps_trans; [exact K1|]. eapply Keeps_trans; [exact K2|].
  apply Keeps_same; reflexivity.
Qed.

Lemma Keeps_cleanup (h : nat) (w : World) : Keeps h w (cleanup w).
Proof.
  unfold cleanup.
  set (w1 := match activeHandle w with Some a => close a w | None => w end).
  apply Keeps_trans with (w2 := w1); [|apply Keeps_same; reflexivity].
  unfold w1. destruct (activeHandle w); [apply Keeps_close | apply Keeps_refl].
Qed.

Lemma findTimer_In (t : nat) (w : World) (tm : Timer) :
  findTimer t w = Some tm -> In tm (timers w) /\ timerId tm = t.
Proof.
  unfold findTimer. intros H. apply find_some in H as [Hin Heq].
  apply Nat.eqb_eq in Heq. auto.
Qed.

(** Events whose handlers neither schedule nor connect. *)
Definition quietEvent (e : Event) : bool :=
  match e with
  | EvClose _ | EvTimer _ _ => false
  | _ => true
  end.

(** A cancelled instance with nothing pending stays so, and does nothing
    observable, whatever the browser delivers; under a quiet event this
    holds for every instance. *)
Lemma Keeps_step (h : nat) (at_ : Q) (e : Event) (w w' : World) :
  quietEvent e = true \/ Dead h w -> step at_ e w = Some w' -> Keeps h w w'.
Proof.
  intros HD Hst. unfold Client.step in Hst.
  destruct (negb (Qle_bool (clock w) at_)); [discriminate|].
  assert (K0 : Keeps h w (set_clock at_ w)) by (apply Keeps_same; reflexivity).
  assert (HD0 : quietEvent e = true \/ Dead h (set_clock at_ w)).
  { destruct HD as [Hq|HD]; [left; exact Hq | right; eapply Keeps_Dead; eauto]. }
  eapply Keeps_trans; [exact K0|].
  set (w0 := set_clock at_ w) in *. clearbody w0. clear K0 HD.
  destruct e as [s|s parsed iso|s|s|t throws|].
  - destruct (sockets w0 !! s) as [sk|] eqn:Hs; [|discriminate].
    destruct (readyState sk) eqn:Hr; try discriminate.
    injection Hst as <-. unfold onopen, onOpenCb.
    apply Keeps_trans
      with (w2 := updHandle (owner sk) (set_reconnectAttempts 0)
                    (set_sockets (alter (set_readyState OPEN) s) w0));
      [|apply Keeps_same; reflexivity].
    eapply Keeps_trans; [|apply Keeps_updHandle; auto].
    apply Keeps_sock_alter. intros x Hx. split; [reflexivity|]. congruence.
  - destruct (sockets w0 !! s) as [sk|] eqn:Hs; [|discriminate].
    destruct (readyState sk) eqn:Hr; try discriminate.
    injection Hst as <-. unfold onmessage.
    destruct parsed; [apply Keeps_same; reflexivity | apply Keeps_refl].
  - destruct (sockets w0 !! s) as [sk|] eqn:Hs; [|discriminate].
    destruct (isClosed (readyState sk)); [discriminate|].
    injection Hst as <-. unfold onerror.
    destruct (handles w0 !! owner sk) as [hd|]; [|apply Keeps_refl].
    destruct (ws hd); [apply Keeps_sockClose | apply Keeps_refl].
  - destruct HD0 as [Hq|HD0]; [discriminate|].
    destruct (sockets w0 !! s) as [sk|] eqn:Hs; [|discriminate].
    destruct (isClosed (readyState sk)); [discriminate|].
    injection Hst as <-.
    assert (K1 : Keeps h w0 (set_sockets (alter (set_readyState CLOSED) s) w0)).
    { apply Keeps_sock_alter. intros x _. simpl. auto. }
    eapply Keeps_trans; [exact K1|].
    apply Keeps_onclose. intros _. eapply Keeps_Dead; eauto.
  - destruct HD0 as [Hq|HD0]; [discriminate|].
    destruct (findTimer t w0) as [tm|] eqn:Hf; [|discriminate].
    destruct (Qle_bool (due tm) at_ && earliest tm w0); [|discriminate].
    injection Hst as <-. apply findTimer_In in Hf as [Hin _].
    assert (K1 : Keeps h w0 (clearTimeout t w0)).
    { apply Keeps_fewer_timers. intros x Hx. apply In_clear in Hx. tauto. }
    eapply Keeps_trans; [exact K1|].
    destruct (callback tm) as [k|] eqn:Hc; simpl.
    + apply Keeps_create. intros ->. destruct HD0 as [_ Hnp]. eapply Hnp; eauto.
    + apply Keeps_fallbackCb. simpl.
      destruct HD0 as [(hd & Hh & _) _]. eapply lookup_lt_Some; eauto.
  - injection Hst as <-. apply Keeps_cleanup.
Qed.

Lemma Dead_step (h : nat) (at_ : Q) (e : Event) (w w' : World) :
  Dead h w -> step at_ e w = Some w' -> Keeps h w w'.
Proof. intros HD. apply Keeps_step. now right. Qed.

Lemma Dead_run (h : nat) (evs : list (Q * Event)) (w w' : World) :
  Dead h w -> run evs w = Some w' -> Keeps h w w'.
Proof.
  revert w. induction evs as [|[at_ e] evs IH]; intros w HD Hrun; simpl in Hrun.
  - injection Hrun as <-. apply Keeps_refl.
  - destruct (step at_ e w) as [w1|] eqn:Hst; [|discriminate].
    pose proof (Dead_step h at_ e w w1 HD Hst) as K1.
    eapply Keeps_trans; [exact K1|].
    apply IH; [|exact Hrun]. eapply Keeps_Dead; eauto.
Qed.


Lemma Core_onCloseCb (u : string) (w : World) : Core w -> Core (onCloseCb u w).
Proof.
  intros HC. unfold Client.onCloseCb.
  assert (C1 : Core (set_ui (setWsConnected false) w))
    by (eapply Core_ext; [..|exact HC]; reflexivity).
  destruct (negb (attemptedFallback (set_ui (setWsConnected false) w))
            && String.eqb u primaryUrl); [|exact C1].
  apply Core_set_fallback_timer. eapply Core_ext; [..|exact C1]; reflexivity.
Qed.

Lemma NoPending_onCloseCb (h : nat) (u : string) (w : World) :
  NoPending h w -> NoPending h (onCloseCb u w).
Proof.
  intros Hnp tm Hin. unfold Client.onCloseCb in Hin.
  destruct (negb (attemptedFallback (set_ui (setWsConnected false) w))
            && String.eqb u primaryUrl); simpl in Hin.
  - destruct Hin as [<-|Hin]; [discriminate | now apply Hnp].
  - now apply Hnp.
Qed.

(** When a live socket fires [close], its instance has no other live
    socket and no reconnect timer pending. *)
Lemma live_socket_alone (w : World) (s : nat) (sk : Socket) :
  Core w -> sockets w !! s = Some sk -> readyState sk <> CLOSED ->
  NoPending (owner sk) w /\
  AllClosed (owner sk) (set_sockets (alter (set_readyState CLOSED) s) w).
Proof.
  intros HC Hs Hlive. split.
  - intros tm Hin Hc. apply Hlive.
    exact (core_pending_closed w HC tm (owner sk) Hin Hc s sk Hs eq_refl).
  - intros s' sk' Hs' Ho. simpl in Hs'.
    apply lookup_alter_Some in Hs' as (x & Hx & [[-> ->]|[Hne ->]]); [reflexivity|].
    destruct (readyState x) eqn:E; try reflexivity; exfalso; apply Hne;
      apply (core_live_unique w HC s s' sk x Hs Hx); congruence.
Qed.

Lemma Core_step (at_ : Q) (e : Event) (w w' : World) :
  Core w -> step at_ e w = Some w' -> Core w'.
Proof.
  intros HC Hst. unfold Client.step in Hst.
  destruct (negb (Qle_bool (clock w) at_)); [discriminate|].
  assert (HC0 : Core (set_clock at_ w)) by (eapply Core_ext; [..|exact HC]; reflexivity).
  set (w0 := set_clock at_ w) in *. clearbody w0. clear HC.
  destruct e as [s|s parsed iso|s|s|t throws|].
  - destruct (sockets w0 !! s) as [sk|] eqn:Hs; [|discriminate].
    destruct (readyState sk) eqn:Hr; try discriminate.
    injection Hst as <-. unfold onopen, onOpenCb.
    assert (HC1 : Core (updHandle (owner sk) (set_reconnectAttempts 0)
                          (set_sockets (alter (set_readyState OPEN) s) w0))).
    { apply Core_handle_alter; [intros x; split; reflexivity|].
      apply Core_sock_alter; [|exact HC0].
      intros x Hx. split; [reflexivity|]. congruence. }
    eapply Core_ext; [..|exact HC1]; reflexivity.
  - destruct (sockets w0 !! s) as [sk|] eqn:Hs; [|discriminate].
    destruct (readyState sk) eqn:Hr; try discriminate.
    injection Hst as <-. unfold onmessage.
    destruct parsed; [|exact HC0]. eapply Core_ext; [..|exact HC0]; reflexivity.
  - destruct (sockets w0 !! s) as [sk|] eqn:Hs; [|discriminate].
    destruct (isClosed (readyState sk)); [discriminate|].
    injection Hst as <-. unfold onerror.
    destruct (handles w0 !! owner sk) as [hd|]; [|exact HC0].
    destruct (ws hd); [now apply Core_sockClose | exact HC0].
  - destruct (sockets w0 !! s) as [sk|] eqn:Hs; [|discriminate].
    destruct (isClosed (readyState sk)) eqn:Hcl; [discriminate|].
    injection Hst as <-.
    assert (Hlive : readyState sk <> CLOSED) by (intros E; rewrite E in Hcl; discriminate).
    destruct (live_socket_alone w0 s sk HC0 Hs Hlive) as [Hnp Hac].
    assert (HC1 : Core (set_sockets (alter (set_readyState CLOSED) s) w0)).
    { apply Core_sock_alter; [|exact HC0]. intros x _. simpl. auto. }
    set (w1 := set_sockets (alter (set_readyState CLOSED) s) w0) in *.
    assert (Hnp1 : NoPending (owner sk) w1) by exact Hnp.
    clearbody w1. unfold Client.onclose.
    destruct (handles w1 !! owner sk) as [hd|] eqn:Hk; [|exact HC1].
    destruct (onCloseCb_fields (url hd) w1) as (Eh & Es & _).
    rewrite Eh, Hk.
    destruct (shouldReconnect hd) eqn:Hsr; [|now apply Core_onCloseCb].
    apply Core_scheduleReconnect.
    + now apply Core_onCloseCb.
    + now apply NoPending_onCloseCb.
    + unfold AllClosed. rewrite Es. exact Hac.
    + rewrite Eh, Hk. intros x [= <-]. exact Hsr.
  - destruct (findTimer t w0) as [tm|] eqn:Hf; [|discriminate].
    destruct (Qle_bool (due tm) at_ && earliest tm w0); [|discriminate].
    injection Hst as <-. apply findTimer_In in Hf as [Hin Hid].
    pose proof (Core_clearTimeout t w0 HC0) as HC1.
    destruct (callback tm) as [k|] eqn:Hc; simpl.
    + apply Core_create; try exact HC1.
      * intros x Hx Hcx. simpl in Hx. apply In_clear in Hx as [Hx Hne].
        pose proof (core_cb w0 HC0 tm k Hin Hc) as Hlt.
        apply lookup_lt_is_Some_2 in Hlt as [hd Hh].
        destruct (core_link w0 HC0 tm k hd Hin Hc Hh) as [E1 _].
        destruct (core_link w0 HC0 x k hd Hx Hcx Hh) as [E2 _].
        congruence.
      * exact (core_pending_closed w0 HC0 tm k Hin Hc).
      * intros hd Hh. simpl in Hh.
        exact (proj2 (core_link w0 HC0 tm k hd Hin Hc Hh)).
    + unfold Client.fallbackCb, createHandler.
      set (w1 := match activeHandle (clearTimeout t w0) with
                 | Some a => close a (clearTimeout t w0)
                 | None => clearTimeout t w0
                 end).
      assert (HC2 : Core w1).
      { unfold w1. destruct (activeHandle (clearTimeout t w0)); [now apply Core_close | exact HC1]. }
      pose proof (Core_connectWebSocket fallbackUrl throws w1 HC2) as HC3.
      destruct (connectWebSocket fallbackUrl throws w1) as [h' w2].
      eapply Core_ext; [..|exact HC3]; reflexivity.
  - injection Hst as <-. unfold cleanup.
    assert (HC1 : Core (match activeHandle w0 with Some a => close a w0 | None => w0 end)).
    { destruct (activeHandle w0); [now apply Core_close | exact HC0]. }
    eapply Core_ext; [..|exact HC1]; reflexivity.
Qed.


(** *** The selection cycle of the dashboard *)

(** Instance 0 is the one created for the primary URL; any later one is
    created for the fallback URL. *)
Definition urlOf (h : nat) : string :=
  if Nat.eqb h 0 then primaryUrl else fallbackUrl.

Definition isFallbackSched (e : Effect) : bool :=
  match e with
  | Scheduled CbFallback _ => true
  | _ => false
  end.

(** How many times the switch to the fallback URL has been scheduled. *)
Definition fallbackCount (w : World) : nat :=
  length (List.filter isFallbackSched (trace w)).

(** Well-formed log entries for a page with [n] instances. *)
Definition GoodEffect (n : nat) (e : Effect) : Prop :=
  match e with
  | AttemptConnect h u => h < n /\ u = urlOf h
  | Scheduled (CbReconnect h) d => h < n /\ exists k, 1 <= k /\ d = reconnectDelay k
  | Scheduled CbFallback d => d = fallbackDelay
  end.

(** The switch to the fallback URL is pending and is due before any
    reconnect of the primary instance. *)
Definition FallbackArmed (w : World) : Prop :=
  exists tm, In tm (timers w) /\ callback tm = CbFallback /\
             forall tr, In tr (timers w) -> callback tr = CbReconnect 0 ->
                        (due tm < due tr)%Q.

(** The three phases of a cycle: primary only ([attemptedFallback]
    unset); fallback scheduled but not yet run; fallback engaged (a
    second instance exists and the primary one is cancelled for good). *)
Record Phase (w : World) : Prop := {
  ph_len : 1 <= length (handles w) <= 2;
  ph_url : forall h hd, handles w !! h = Some hd -> url hd = urlOf h;
  ph_active : activeHandle w = Some (length (handles w) - 1);
  ph_A : attemptedFallback w = false ->
         length (handles w) = 1 /\ NoFallbackPending w;
  ph_B : attemptedFallback w = true -> length (handles w) = 1 ->
         AllClosed 0 w /\
         (exists tf, forall tm, In tm (timers w) -> callback tm = CbFallback ->
                                timerId tm = tf) /\
         (FallbackArmed w \/ Dead 0 w);
  ph_C : length (handles w) = 2 ->
         attemptedFallback w = true /\ NoFallbackPending w /\ Dead 0 w /\ AllClosed 0 w;
  ph_trace : forall e, In e (trace w) -> GoodEffect (length (handles w)) e;
  ph_count : fallbackCount w = if attemptedFallback w then 1 else 0
}.

Definition Inv (w : World) : Prop := Core w /\ Phase w.

(** Same instances, same URLs. *)
Definition HandlesLike (w w' : World) : Prop :=
  length (handles w') = length (handles w) /\
  forall h hd', handles w' !! h = Some hd' ->
                exists hd, handles w !! h = Some hd /\ url hd' = url hd.

Lemma HandlesLike_refl (w : World) : HandlesLike w w.
Proof. split; eauto. Qed.

Lemma HandlesLike_trans (w1 w2 w3 : World) :
  HandlesLike w1 w2 -> HandlesLike w2 w3 -> HandlesLike w1 w3.
Proof.
  intros [L1 U1] [L2 U2]. split; [congruence|].
  intros h hd3 H3. destruct (U2 h hd3 H3) as (hd2 & H2 & E2).
  destruct (U1 h hd2 H2) as (hd1 & H1 & E1). exists hd1. split; congruence.
Qed.

Lemma HandlesLike_same (w w' : World) : handles w' = handles w -> HandlesLike w w'.
Proof. intros E. unfold HandlesLike. rewrite E. eauto. Qed.

Lemma HandlesLike_updHandle (k : nat) (f : Handle -> Handle) (w : World) :
  (forall x, url (f x) = url x) -> HandlesLike w (updHandle k f w).
Proof.
  intros Hf. split; simpl; [apply length_alter|].
  intros h hd' Hlk. apply lookup_alter_Some in Hlk as (x & Hx & [[-> ->]|[_ ->]]); eauto.
Qed.

Lemma HandlesLike_close (k : nat) (w : World) : HandlesLike w (close k w).
Proof.
  split; [apply close_fields|].
  intros h hd' Hlk. destruct (close_lookup k h w hd' Hlk) as (hd & Hh & Hu & _). eauto.
Qed.

Lemma HandlesLike_scheduleReconnect (k : nat) (w : World) :
  HandlesLike w (scheduleReconnect k w).
Proof.
  unfold scheduleReconnect. destruct (handles w !! k) as [hd|]; [|apply HandlesLike_refl].
  simpl. apply (HandlesLike_trans _ (snd (setTimeout (CbReconnect k)
                                       (reconnectDelay (S (reconnectAttempts hd))) w))).
  - apply HandlesLike_same. reflexivity.
  - apply HandlesLike_updHandle. reflexivity.
Qed.

Lemma HandlesLike_create (k : nat) (throws : bool) (w : World) :
  HandlesLike w (create k throws w).
Proof.
  unfold create. destruct (handles w !! k) as [hd|]; [|apply HandlesLike_refl].
  destruct throws.
  - apply (HandlesLike_trans _ (emit (AttemptConnect k (url hd)) w));
      [apply HandlesLike_same; reflexivity | apply HandlesLike_scheduleReconnect].
  - split; simpl; [apply length_alter|].
    intros h hd' Hlk. apply lookup_alter_Some in Hlk as (x & Hx & [[-> ->]|[_ ->]]); eauto.
Qed.

Lemma GoodEffect_mono (n m : nat) (e : Effect) : n <= m -> GoodEffect n e -> GoodEffect m e.
Proof.
  intros Hle. destruct e as [h u|[h|] d]; simpl; [| |auto].
  - intros [Hlt Hu]. split; [lia | exact Hu].
  - intros [Hlt Hk]. split; [lia | exact Hk].
Qed.

Lemma fallbackCount_app (new : list Effect) (w w' : World) :
  trace w' = new ++ trace w ->
  (forall e, In e new -> isFallbackSched e = false) ->
  fallbackCount w' = fallbackCount w.
Proof.
  intros Ht Hnew. unfold fallbackCount. rewrite Ht, List.filter_app, length_app.
  assert (E : List.filter isFallbackSched new = []).
  { clear Ht. induction new as [|e new IH]; [reflexivity|]. simpl.
    rewrite (Hnew e) by (left; reflexivity). apply IH.
    intros e' He'. apply Hnew. now right. }
  rewrite E. reflexivity.
Qed.

(** A transition that neither schedules the fallback nor adds an
    instance keeps the phase, provided the primary instance stays as
    quiet as the phase requires. *)
Lemma Phase_stay (w w' : World) :
  Phase w -> HandlesLike w w' ->
  attemptedFallback w' = attemptedFallback w ->
  activeHandle w' = activeHandle w ->
  (forall tm, In tm (timers w') -> callback tm = CbFallback -> In tm (timers w)) ->
  (length (handles w) = 1 -> attemptedFallback w = true ->
   AllClosed 0 w' /\ (FallbackArmed w' \/ Dead 0 w')) ->
  (length (handles w) = 2 -> Dead 0 w' /\ AllClosed 0 w') ->
  (exists new, trace w' = new ++ trace w /\
               forall e, In e new ->
                         isFallbackSched e = false /\ GoodEffect (length (handles w)) e) ->
  Phase w'.
Proof.
  intros [Hlen Hurl Hact HA HB HC Htr Hcnt] [HL HU] Haf Hah Hfb HB' HC' (new & Hnew & Hgood).
  constructor; rewrite ?HL, ?Haf, ?Hah; try assumption.
  - intros h hd' Hlk. destruct (HU h hd' Hlk) as (hd & Hh & ->). eauto.
  - intros Hf. destruct (HA Hf) as [H1 Hnf]. split; [exact H1|].
    intros tm Hin Hc. eapply Hnf; eauto.
  - intros Hf H1. destruct (HB Hf H1) as (_ & [tf Htf] & _).
    destruct (HB' H1 Hf) as [Hac Hor]. split; [exact Hac|]. split; [|exact Hor].
    exists tf. intros tm Hin Hc. apply Htf; auto.
  - intros H2. destruct (HC H2) as (Hf & Hnf & _ & _).
    destruct (HC' H2) as [Hd Hac]. split; [exact Hf|]. split; [|split; assumption].
    intros tm Hin Hc. eapply Hnf; eauto.
  - intros e Hin. rewrite Hnew in Hin. apply in_app_or in Hin as [Hin|Hin].
    + now apply Hgood.
    + now apply Htr.
  - rewrite (fallbackCount_app new w w' Hnew); [exact Hcnt|].
    intros e He. now apply Hgood.
Qed.


Lemma FallbackArmed_same (w w' : World) :
  timers w' = timers w -> FallbackArmed w -> FallbackArmed w'.
Proof. intros E. unfold FallbackArmed. rewrite E. auto. Qed.

Lemma quiet_fields (at_ : Q) (e : Event) (w w' : World) :
  quietEvent e = true -> step at_ e w = Some w' ->
  HandlesLike w w' /\ attemptedFallback w' = attemptedFallback w /\
  activeHandle w' = activeHandle w /\ trace w' = trace w /\
  (forall tm, In tm (timers w') -> In tm (timers w)) /\
  (e <> EvCleanup -> timers w' = timers w).
Proof.
  intros Hq Hst. unfold Client.step in Hst.
  destruct (negb (Qle_bool (clock w) at_)); [discriminate|].
  destruct e as [s|s parsed iso|s|s|t throws|]; try discriminate; simpl in Hst.
  - destruct (sockets w !! s) as [sk|]; [|discriminate].
    destruct (readyState sk); try discriminate. injection Hst as <-.
    unfold onopen, onOpenCb, HandlesLike. simpl. repeat split; auto using length_alter.
    intros h hd' Hlk. apply lookup_alter_Some in Hlk as (x & Hx & [[_ ->]|[_ ->]]); eauto.
  - destruct (sockets w !! s) as [sk|]; [|discriminate].
    destruct (readyState sk); try discriminate. injection Hst as <-.
    unfold onmessage, HandlesLike. destruct parsed; simpl; repeat split; eauto.
  - destruct (sockets w !! s) as [sk|]; [|discriminate].
    destruct (isClosed (readyState sk)); [discriminate|]. injection Hst as <-.
    unfold onerror, HandlesLike. simpl. destruct (handles w !! owner sk) as [hd|]; simpl;
      [destruct (ws hd); simpl|]; repeat split; eauto.
  - injection Hst as <-. unfold cleanup. simpl.
    destruct (activeHandle w) as [a|] eqn:Ha; simpl.
    + destruct (close_fields a (set_clock at_ w)) as (_ & Et & Ef & Eh & _).
      split; [exact (HandlesLike_close a (set_clock at_ w))|].
      simpl in Et, Ef, Eh.
      repeat split; try assumption; try congruence.
      intros tm Hin. exact (close_timers_fewer a (set_clock at_ w) tm Hin).
    + unfold HandlesLike. simpl. repeat split; eauto.
Qed.

Lemma Phase_quiet (at_ : Q) (e : Event) (w w' : World) :
  Core w -> Phase w -> quietEvent e = true -> step at_ e w = Some w' -> Phase w'.
Proof.
  intros HC HP Hq Hst.
  destruct (quiet_fields at_ e w w' Hq Hst) as (HL & Haf & Hah & Htr & Hsub & Hsame).
  pose proof (Keeps_step 0 at_ e w w' (or_introl Hq) Hst) as HK.
  apply (Phase_stay w w' HP HL Haf Hah).
  - intros tm Hin _. auto.
  - intros H1 Hf. destruct (ph_B w HP Hf H1) as (Hac & _ & Hor).
    split; [eapply Keeps_AllClosed; eauto|].
    destruct Hor as [Harm|Hd]; [|right; eapply Keeps_Dead; eauto].
    destruct e as [s|s parsed iso|s|s|t throws|]; try discriminate;
      try (left; apply (FallbackArmed_same w w'); [apply Hsame; discriminate | exact Harm]).
    right. unfold Client.step in Hst.
    destruct (negb (Qle_bool (clock w) at_)); [discriminate|].
    injection Hst as <-. unfold cleanup. simpl.
    pose proof (ph_active w HP) as Ha. rewrite H1 in Ha. simpl in Ha. rewrite Ha.
    apply (Keeps_Dead 0 (close 0 (set_clock at_ w))); [apply Keeps_same; reflexivity|].
    apply close_Dead; [eapply Core_ext; [..|exact HC]; reflexivity|].
    simpl. lia.
  - intros H2. destruct (ph_C w HP H2) as (_ & _ & Hd & Hac).
    split; [eapply Keeps_Dead | eapply Keeps_AllClosed]; eauto.
  - exists []. split; [exact Htr|]. intros e' [].
Qed.


(** The observable part of [scheduleReconnect] and [create]. *)
Lemma scheduleReconnect_fields (k : nat) (w : World) (hd : Handle) :
  handles w !! k = Some hd ->
  let d := reconnectDelay (S (reconnectAttempts hd)) in
  timers (scheduleReconnect k w)
  = {| timerId := nextTimer w; due := (clock w + d)%Q; delay := d;
       callback := CbReconnect k |} :: timers w /\
  trace (scheduleReconnect k w) = Scheduled (CbReconnect k) d :: trace w /\
  attemptedFallback (scheduleReconnect k w) = attemptedFallback w /\
  activeHandle (scheduleReconnect k w) = activeHandle w /\
  sockets (scheduleReconnect k w) = sockets w /\
  handles (scheduleReconnect k w) !! k
  = Some (set_reconnectTimer (Some (nextTimer w))
            (set_reconnectAttempts (S (reconnectAttempts hd)) hd)).
Proof.
  intros Hk. unfold scheduleReconnect. rewrite Hk. simpl.
  rewrite list_lookup_alter_eq, Hk. simpl. tauto.
Qed.

Lemma create_shape (k : nat) (throws : bool) (w : World) (hd : Handle) :
  handles w !! k = Some hd ->
  (exists new, trace (create k throws w) = new ++ trace w /\
               In (AttemptConnect k (url hd)) new /\
               forall e, In e new ->
                 e = AttemptConnect k (url hd) \/
                 exists n, 1 <= n /\ e = Scheduled (CbReconnect k) (reconnectDelay n)) /\
  attemptedFallback (create k throws w) = attemptedFallback w /\
  activeHandle (create k throws w) = activeHandle w /\
  (forall tm, In tm (timers (create k throws w)) ->
              In tm (timers w) \/ callback tm = CbReconnect k).
Proof.
  intros Hk. unfold create. rewrite Hk. destruct throws.
  - destruct (scheduleReconnect_fields k (emit (AttemptConnect k (url hd)) w) hd Hk)
      as (Et & Etr & Ef & Ea & _ & _).
    rewrite Et, Etr, Ef, Ea. simpl. repeat split; try reflexivity.
    + exists [Scheduled (CbReconnect k) (reconnectDelay (S (reconnectAttempts hd)));
              AttemptConnect k (url hd)].
      split; [reflexivity|]. split; [simpl; auto|].
      intros e [<-|[<-|[]]]; [right|left; reflexivity].
      exists (S (reconnectAttempts hd)). split; [lia | reflexivity].
    + intros tm [<-|Hin]; [right; reflexivity | left; exact Hin].
  - simpl. repeat split; try reflexivity; [|auto].
    exists [AttemptConnect k (url hd)]. split; [reflexivity|]. split; [simpl; auto|].
    intros e [<-|[]]. left. reflexivity.
Qed.

Lemma step_close_shape (at_ : Q) (s : nat) (w w' : World) :
  step at_ (EvClose s) w = Some w' ->
  exists sk, sockets w !! s = Some sk /\ readyState sk <> CLOSED /\
             w' = onclose (owner sk)
                    (set_sockets (alter (set_readyState CLOSED) s) (set_clock at_ w)).
Proof.
  unfold Client.step. destruct (negb (Qle_bool (clock w) at_)); [discriminate|].
  simpl. destruct (sockets w !! s) as [sk|]; [|discriminate].
  destruct (isClosed (readyState sk)) eqn:Hcl; [discriminate|].
  intros [= <-]. exists sk. repeat split; try reflexivity.
  intros E. rewrite E in Hcl. discriminate.
Qed.

Lemma step_timer_shape (at_ : Q) (t : nat) (throws : bool) (w w' : World) :
  step at_ (EvTimer t throws) w = Some w' ->
  exists tm, In tm (timers w) /\ timerId tm = t /\ (due tm <= at_)%Q /\
             (forall tm', In tm' (timers w) -> (due tm <= due tm')%Q) /\
             w' = runCallback fallbackUrl (callback tm) throws
                    (clearTimeout t (set_clock at_ w)).
Proof.
  unfold Client.step. destruct (negb (Qle_bool (clock w) at_)); [discriminate|].
  destruct (findTimer t (set_clock at_ w)) as [tm|] eqn:Hf; [|discriminate].
  destruct (Qle_bool (due tm) at_ && earliest tm (set_clock at_ w)) eqn:Hg; [|discriminate].
  intros [= <-]. apply findTimer_In in Hf as [Hin Hid]. simpl in Hin.
  apply andb_true_iff in Hg as [Hdue He]. unfold earliest in He. simpl in He.
  rewrite forallb_forall in He. apply Qle_bool_iff in Hdue.
  exists tm. repeat split; try assumption.
  intros tm' Hin'. apply Qle_bool_iff. now apply He.
Qed.


Lemma fallback_before_reconnect (at_ : Q) (n : nat) :
  (at_ + fallbackDelay < at_ + reconnectDelay (S n))%Q.
Proof.
  pose proof (reconnectDelay_ge_1500 (S n) ltac:(lia)) as H.
  unfold fallbackDelay. lra.
Qed.

Lemma Phase_close (at_ : Q) (s : nat) (w w' : World) :
  Core w -> Phase w -> step at_ (EvClose s) w = Some w' -> Phase w'.
Proof.
  intros HC HP Hst.
  destruct (step_close_shape at_ s w w' Hst) as (sk & Hs & Hlive & Hw').
  assert (HC0 : Core (set_clock at_ w)) by (eapply Core_ext; [..|exact HC]; reflexivity).
  destruct (live_socket_alone (set_clock at_ w) s sk HC0 Hs Hlive) as [Hnp Hac].
  pose proof (core_owner w HC s sk Hs) as Hlt.
  destruct (lookup_lt_is_Some_2 _ _ Hlt) as [hd Hk].
  destruct (ph_len w HP) as [L1 L2].
  unfold Client.onclose in Hw'. simpl handles in Hw'. rewrite Hk in Hw'.
  rewrite (proj1 (onCloseCb_fields _ _)) in Hw'. simpl handles in Hw'. rewrite Hk in Hw'.
  unfold Client.onCloseCb in Hw'. simpl attemptedFallback in Hw'.
  destruct (attemptedFallback w) eqn:Haf.
  - (* the fallback was scheduled before: only a fallback socket can be live *)
    assert (H2 : length (handles w) = 2).
    { destruct (decide (length (handles w) = 1)) as [H1|]; [|lia].
      destruct (ph_B w HP Haf H1) as (Hac0 & _). exfalso. apply Hlive.
      apply (Hac0 s sk Hs). lia. }
    destruct (ph_C w HP H2) as (_ & Hnf & Hd & Hac0).
    pose proof (Keeps_step 0 at_ (EvClose s) w w' (or_intror Hd) Hst) as HK.
    simpl in Hw'.
    set (w2 := set_ui (setWsConnected false)
                 (set_sockets (alter (set_readyState CLOSED) s) (set_clock at_ w))) in *.
    assert (Hk2 : handles w2 !! owner sk = Some hd) by exact Hk.
    destruct (scheduleReconnect_fields (owner sk) w2 hd Hk2) as (Et & Etr & Ef & Ea & _ & _).
    apply (Phase_stay w w' HP).
    + subst w'. destruct (shouldReconnect hd);
        [|apply HandlesLike_same; reflexivity].
      apply (HandlesLike_trans _ w2);
        [apply HandlesLike_same; reflexivity | apply HandlesLike_scheduleReconnect].
    + subst w'. destruct (shouldReconnect hd); [rewrite Ef|]; simpl; congruence.
    + subst w'. destruct (shouldReconnect hd); [rewrite Ea|]; reflexivity.
    + subst w'. destruct (shouldReconnect hd); [rewrite Et|]; simpl; [|auto].
      intros tm [<-|Hin] Hc; [discriminate | exact Hin].
    + intros H1. lia.
    + intros _. split; [eapply Keeps_Dead | eapply Keeps_AllClosed]; eauto.
    + subst w'. destruct (shouldReconnect hd).
      * exists [Scheduled (CbReconnect (owner sk))
                  (reconnectDelay (S (reconnectAttempts hd)))].
        split; [rewrite Etr; reflexivity|].
        intros e [<-|[]]. split; [reflexivity|]. simpl. split; [exact Hlt|].
        exists (S (reconnectAttempts hd)). split; [lia | reflexivity].
      * exists []. split; [reflexivity|]. intros e [].
  - (* first close of the primary socket: the fallback gets scheduled *)
    destruct (ph_A w HP Haf) as [H1 Hnf].
    assert (Hk0 : owner sk = 0) by lia.
    rewrite Hk0 in *.
    pose proof (ph_url w HP 0 hd Hk) as Hu. unfold urlOf in Hu. simpl in Hu.
    rewrite Hu, String.eqb_refl in Hw'. simpl in Hw'.
    set (w2 := emit (Scheduled CbFallback fallbackDelay) _) in Hw'.
    assert (Hk2 : handles w2 !! 0 = Some hd) by exact Hk.
    destruct (scheduleReconnect_fields 0 w2 hd Hk2) as (Et & Etr & Ef & Ea & Es & Eh).
    pose proof (HandlesLike_scheduleReconnect 0 w2) as [HL HU].
    pose proof (ph_count w HP) as Hcnt. rewrite Haf in Hcnt.
    assert (Hfb : forall tm, In tm (timers w') -> callback tm = CbFallback ->
                             timerId tm = nextTimer w).
    { subst w'. destruct (shouldReconnect hd); [rewrite Et|]; simpl.
      - intros tm [<-|[<-|Hin]] Hc; [discriminate | reflexivity |].
        exfalso. eapply Hnf; eauto.
      - intros tm [<-|Hin] Hc; [reflexivity|]. exfalso. eapply Hnf; eauto. }
    assert (Harm : FallbackArmed w').
    { exists {| timerId := nextTimer w; due := (at_ + fallbackDelay)%Q;
                delay := fallbackDelay; callback := CbFallback |}.
      subst w'. destruct (shouldReconnect hd); [rewrite Et|]; simpl.
      - split; [auto|]. split; [reflexivity|].
        intros tr [<-|[<-|Hin]] Hc; simpl.
        + apply fallback_before_reconnect.
        + discriminate.
        + exfalso. eapply Hnp; eauto.
      - split; [auto|]. split; [reflexivity|].
        intros tr [<-|Hin] Hc; [discriminate|]. exfalso. eapply Hnp; eauto. }
    assert (Hsk : sockets w' = alter (set_readyState CLOSED) s (sockets w)).
    { subst w'. destruct (shouldReconnect hd); [rewrite Es|]; reflexivity. }
    assert (Hlen : length (handles w') = 1).
    { subst w'. destruct (shouldReconnect hd); [rewrite HL|]; exact H1. }
    assert (Haf' : attemptedFallback w' = true).
    { subst w'. destruct (shouldReconnect hd); [rewrite Ef|]; reflexivity. }
    constructor; rewrite ?Hlen, ?Haf'.
    + lia.
    + intros h hd' Hlk. subst w'. destruct (shouldReconnect hd).
      * destruct (HU h hd' Hlk) as (x & Hx & ->). exact (ph_url w HP h x Hx).
      * exact (ph_url w HP h hd' Hlk).
    + subst w'. destruct (shouldReconnect hd); [rewrite Ea|]; simpl;
        rewrite (ph_active w HP), H1; reflexivity.
    + discriminate.
    + intros _ _. split; [|split; [eauto | left; exact Harm]].
      unfold AllClosed. rewrite Hsk. exact Hac.
    + lia.
    + intros e Hin. subst w'. destruct (shouldReconnect hd); [rewrite Etr in Hin|];
        simpl in Hin.
      * destruct Hin as [<-|[<-|Hin]]; simpl.
        -- split; [lia|]. exists (S (reconnectAttempts hd)). split; [lia | reflexivity].
        -- reflexivity.
        -- rewrite <- H1. now apply (ph_trace w HP).
      * destruct Hin as [<-|Hin]; simpl; [reflexivity|].
        rewrite <- H1. now apply (ph_trace w HP).
    + unfold fallbackCount in *. subst w'.
      destruct (shouldReconnect hd); [rewrite Etr|]; simpl; rewrite Hcnt; reflexivity.
Qed.


Lemma Phase_timer (at_ : Q) (t : nat) (throws : bool) (w w' : World) :
  Core w -> Phase w -> step at_ (EvTimer t throws) w = Some w' -> Phase w'.
Proof.
  intros HC HP Hst.
  destruct (step_timer_shape at_ t throws w w' Hst) as (tm & Hin & Hid & Hdue & Hearly & Hw').
  destruct (ph_len w HP) as [L1 L2].
  set (w1 := clearTimeout t (set_clock at_ w)) in *.
  assert (HC1 : Core w1).
  { apply Core_clearTimeout. eapply Core_ext; [..|exact HC]; reflexivity. }
  assert (Hsub : forall x, In x (timers w1) -> In x (timers w) /\ timerId x <> t).
  { intros x Hx. simpl in Hx. now apply In_clear in Hx. }
  destruct (callback tm) as [k|] eqn:Hc; simpl in Hw'.
  - (* a reconnect timer of instance [k] *)
    pose proof (core_cb w HC tm k Hin Hc) as Hlt.
    destruct (lookup_lt_is_Some_2 _ _ Hlt) as [hd Hk].
    assert (Hk1 : handles w1 !! k = Some hd) by exact Hk.
    assert (HnotB : ~ (attemptedFallback w = true /\ length (handles w) = 1)).
    { intros [Haf H1]. destruct (ph_B w HP Haf H1) as (_ & _ & [Harm|Hd]).
      - destruct Harm as (fb & Hfb & Hcfb & Hlt').
        assert (k = 0) by lia. subst k.
        specialize (Hlt' tm Hin Hc). specialize (Hearly fb Hfb). lra.
      - assert (k = 0) by lia. subst k. destruct Hd as [_ Hnp]. eapply Hnp; eauto. }
    destruct (create_shape k throws w1 hd Hk1) as ((new & Etr & Hatt & Hnew) & Ef & Ea & Ht).
    assert (Hk0 : length (handles w) = 2 -> k <> 0).
    { intros H2 ->. destruct (ph_C w HP H2) as (_ & _ & [_ Hnp] & _). eapply Hnp; eauto. }
    apply (Phase_stay w w' HP).
    + subst w'. apply (HandlesLike_trans _ w1);
        [apply HandlesLike_same; reflexivity | apply HandlesLike_create].
    + subst w'. rewrite Ef. reflexivity.
    + subst w'. rewrite Ea. reflexivity.
    + subst w'. intros x Hx Hcx. destruct (Ht x Hx) as [Hx1|Hx1]; [|congruence].
      now apply Hsub.
    + intros H1 Haf. exfalso. apply HnotB. auto.
    + intros H2. destruct (ph_C w HP H2) as (_ & _ & Hd & Hac).
      pose proof (Keeps_step 0 at_ (EvTimer t throws) w w' (or_intror Hd) Hst) as HK.
      split; [eapply Keeps_Dead | eapply Keeps_AllClosed]; eauto.
    + exists new. subst w'. split; [exact Etr|].
      intros e He. destruct (Hnew e He) as [->|(n & Hn & ->)]; simpl.
      * split; [reflexivity|]. split; [exact Hlt|]. exact (ph_url w HP k hd Hk).
      * split; [reflexivity|]. split; [exact Hlt|]. eauto.
  - (* the switch to the fallback URL *)
    destruct (attemptedFallback w) eqn:Haf;
      [|exfalso; destruct (ph_A w HP Haf) as [_ Hnf]; eapply Hnf; eauto].
    assert (H1 : length (handles w) = 1).
    { destruct (decide (length (handles w) = 1)) as [H1|]; [exact H1|].
      exfalso. destruct (ph_C w HP ltac:(lia)) as (_ & Hnf & _). eapply Hnf; eauto. }
    destruct (ph_B w HP Haf H1) as (Hac & [tf Htf] & _).
    assert (Hnf1 : NoFallbackPending w1).
    { intros x Hx Hcx. destruct (Hsub x Hx) as [Hx0 Hne]. apply Hne.
      rewrite (Htf x Hx0 Hcx), <- (Htf tm Hin Hc). exact Hid. }
    pose proof (ph_active w HP) as Hact. rewrite H1 in Hact. simpl in Hact.
    unfold Client.fallbackCb, createHandler, connectWebSocket in Hw'.
    simpl activeHandle in Hw'. rewrite Hact in Hw'.
    set (w2 := close 0 w1) in *.
    destruct (close_fields 0 w1) as (_ & Etr2 & Ef2 & _ & EL2). fold w2 in Etr2, Ef2, EL2.
    assert (HL2 : length (handles w2) = 1) by (rewrite EL2; exact H1).
    rewrite HL2 in Hw'.
    set (fresh := {| url := fallbackUrl; ws := None; shouldReconnect := true;
                     reconnectAttempts := 0; reconnectTimer := None |}) in *.
    set (w3 := set_handles (fun l => l ++ [fresh]) w2) in *.
    assert (Hk3 : handles w3 !! 1 = Some fresh).
    { simpl. rewrite lookup_app_r by lia. rewrite HL2. reflexivity. }
    destruct (create_shape 1 throws w3 fresh Hk3) as ((new & Etr & Hatt & Hnew) & Ef & Ea & Ht).
    pose proof (HandlesLike_create 1 throws w3) as [HL HU].
    assert (HD2 : Dead 0 w2) by (apply close_Dead; [exact HC1 | simpl; lia]).
    assert (K0 : Keeps 0 w w1).
    { apply (Keeps_trans 0 w (set_clock at_ w) w1); [apply Keeps_same; reflexivity|].
      apply Keeps_fewer_timers. intros x Hx. apply In_clear in Hx. tauto. }
    assert (K23 : Keeps 0 w2 (create 1 throws w3)).
    { pose proof (Keeps_connectWebSocket 0 fallbackUrl throws w2 ltac:(lia)) as K.
      unfold connectWebSocket in K. cbn [snd] in K. rewrite HL2 in K. exact K. }
    assert (Hlen : length (handles w') = 2).
    { subst w'. simpl. rewrite HL. simpl. rewrite length_app, HL2. reflexivity. }
    assert (Haf' : attemptedFallback w' = true).
    { subst w'. simpl. rewrite Ef. simpl. rewrite Ef2. exact Haf. }
    assert (Htr' : trace w' = new ++ trace w).
    { subst w'. simpl. rewrite Etr. simpl. rewrite Etr2. reflexivity. }
    constructor; rewrite ?Hlen, ?Haf'.
    + lia.
    + intros h hd' Hlk. subst w'. simpl in Hlk.
      destruct (HU h hd' Hlk) as (x & Hx & ->). simpl in Hx.
      apply lookup_snoc_Some in Hx as [[_ Hx]|[Hh <-]].
      * destruct (close_lookup 0 h w1 x Hx) as (y & Hy & -> & _).
        exact (ph_url w HP h y Hy).
      * rewrite Hh, HL2. reflexivity.
    + subst w'. reflexivity.
    + discriminate.
    + lia.
    + intros _. split; [reflexivity|]. split; [|split].
      * intros x Hx Hcx. subst w'. simpl in Hx.
        destruct (Ht x Hx) as [Hx3|Hx3]; [|congruence].
        simpl in Hx3. apply close_timers_fewer in Hx3. eapply Hnf1; eauto.
      * subst w'. apply (Keeps_Dead 0 (create 1 throws w3));
          [apply Keeps_same; reflexivity|].
        eapply Keeps_Dead; eauto.
      * subst w'. apply (Keeps_AllClosed 0 (create 1 throws w3));
          [apply Keeps_same; reflexivity|].
        apply (Keeps_AllClosed 0 w2); [exact K23|].
        apply (Keeps_AllClosed 0 w1); [apply Keeps_close|].
        eapply Keeps_AllClosed; eauto.
    + intros e He. rewrite Htr' in He. apply in_app_or in He as [He|He].
      * destruct (Hnew e He) as [->|(n & Hn & ->)]; simpl.
        -- split; [lia | reflexivity].
        -- split; [lia | eauto].
      * apply (GoodEffect_mono 1 2); [lia|]. rewrite <- H1. now apply (ph_trace w HP).
    + rewrite (fallbackCount_app new w w' Htr').
      * rewrite (ph_count w HP), Haf. reflexivity.
      * intros e He. destruct (Hnew e He) as [->|(n & Hn & ->)]; reflexivity.
Qed.

Lemma Inv_step (at_ : Q) (e : Event) (w w' : World) :
  Inv w -> step at_ e w = Some w' -> Inv w'.
Proof.
  intros [HC HP] Hst. split; [eapply Core_step; eauto|].
  destruct e as [s|s parsed iso|s|s|t throws|].
  - exact (Phase_quiet at_ (EvOpen s) w w' HC HP eq_refl Hst).
  - exact (Phase_quiet at_ (EvMessage s parsed iso) w w' HC HP eq_refl Hst).
  - exact (Phase_quiet at_ (EvError s) w w' HC HP eq_refl Hst).
  - exact (Phase_close at_ s w w' HC HP Hst).
  - exact (Phase_timer at_ t throws w w' HC HP Hst).
  - exact (Phase_quiet at_ EvCleanup w w' HC HP eq_refl Hst).
Qed.

Lemma Inv_run (evs : list (Q * Event)) (w w' : World) :
  Inv w -> run evs w = Some w' -> Inv w'.
Proof.
  revert w. induction evs as [|[at_ e] evs IH]; intros w HI Hrun; simpl in Hrun.
  - injection Hrun as <-. exact HI.
  - destruct (step at_ e w) as [w1|] eqn:Hst; [|discriminate].
    eapply IH; [|exact Hrun]. eapply Inv_step; eauto.
Qed.

Lemma Inv_start (throws : bool) : Inv (start throws).
Proof.
  assert (HC0 : Core emptyWorld).
  { constructor; simpl; try (intros; contradiction);
      try (intros ? ? H; rewrite lookup_nil in H; discriminate);
      try lia.
    intros ? ? ? ? H. rewrite lookup_nil in H. discriminate. }
  unfold Client.start, createHandler.
  pose proof (Core_connectWebSocket primaryUrl throws emptyWorld HC0) as HC1.
  destruct (connectWebSocket primaryUrl throws emptyWorld) as [h w] eqn:E.
  simpl in HC1. split; [eapply Core_ext; [..|exact HC1]; reflexivity|].
  unfold connectWebSocket in E. injection E as <- <-.
  destruct throws; vm_compute.
  - constructor; simpl.
    + lia.
    + intros [|h] hd Hlk; simpl in Hlk; [|rewrite lookup_nil in Hlk; discriminate].
      injection Hlk as <-. reflexivity.
    + reflexivity.
    + intros _. split; [reflexivity|]. intros tm [<-|[]]. discriminate.
    + discriminate.
    + lia.
    + intros e [<-|[<-|[]]]; simpl.
      * split; [lia|]. exists 1. split; [lia | reflexivity].
      * split; [lia | reflexivity].
    + reflexivity.
  - constructor; simpl.
    + lia.
    + intros [|h] hd Hlk; simpl in Hlk; [|rewrite lookup_nil in Hlk; discriminate].
      injection Hlk as <-. reflexivity.
    + reflexivity.
    + intros _. split; [reflexivity|]. intros tm [].
    + discriminate.
    + lia.
    + intros e [<-|[]]; simpl. split; [lia | reflexivity].
    + reflexivity.
Qed.

(** Every state a selection cycle can reach satisfies the invariant. *)
Lemma Inv_reachable (throws : bool) (evs : list (Q * Event)) (w : World) :
  run evs (start throws) = Some w -> Inv w.
Proof. apply Inv_run, Inv_start. Qed.


(** *** Explicit close *)

Lemma clear_clear (t : nat) (l : list Timer) :
  List.filter (fun x => negb (Nat.eqb (timerId x) t))
    (List.filter (fun x => negb (Nat.eqb (timerId x) t)) l)
  = List.filter (fun x => negb (Nat.eqb (timerId x) t)) l.
Proof.
  induction l as [|x l IH]; simpl; [reflexivity|].
  destruct (negb (Nat.eqb (timerId x) t)) eqn:E; simpl; rewrite ?E, IH; reflexivity.
Qed.

Lemma alter_absorb {A : Type} (f g : A -> A) (i : nat) (l : list A) :
  (forall x, f (g x) = g x) -> alter f i (alter g i l) = alter g i l.
Proof.
  intros H. rewrite list_alter_alter_eq. apply list_alter_ext; [|reflexivity].
  intros x _. apply H.
Qed.

(** A second [close()] changes nothing. *)
Lemma close_again (h : nat) (w : World) : close h (close h w) = close h w.
Proof.
  unfold close at 2 3. destruct (handles w !! h) as [hd|] eqn:Hh.
  2:{ unfold close. rewrite Hh. reflexivity. }
  unfold close, closeSocket, cancelTimer.
  destruct (ws hd) as [s|] eqn:Hws; destruct (reconnectTimer hd) as [t|] eqn:Hrt;
    try destruct (Nat.eqb t 0) eqn:Ht0; simpl;
    rewrite ?list_lookup_alter_eq, ?Hh; simpl; rewrite ?Hws, ?Hrt, ?Ht0; simpl;
    unfold updHandle, set_handles, clearTimeout, set_timers; simpl;
    f_equal; rewrite ?clear_clear; try reflexivity;
    rewrite ?(list_alter_alter_eq (set_ws None) (set_shouldReconnect false));
    apply alter_absorb; intros x; reflexivity.
Qed.


(** *** The log only grows, and instances are never dropped *)

Definition Grows (w w' : World) : Prop :=
  (exists new, trace w' = new ++ trace w) /\ length (handles w) <= length (handles w').

Lemma Grows_refl (w : World) : Grows w w.
Proof. split; [exists []; reflexivity | lia]. Qed.

Lemma Grows_trans (w1 w2 w3 : World) : Grows w1 w2 -> Grows w2 w3 -> Grows w1 w3.
Proof.
  intros [[n1 E1] L1] [[n2 E2] L2]. split; [|lia].
  exists (n2 ++ n1). rewrite E2, E1, app_assoc. reflexivity.
Qed.

Lemma Grows_like (w w' : World) :
  HandlesLike w w' -> (exists new, trace w' = new ++ trace w) -> Grows w w'.
Proof. intros [HL _] Hn. split; [exact Hn | lia]. Qed.

Lemma Grows_scheduleReconnect (k : nat) (w : World) : Grows w (scheduleReconnect k w).
Proof.
  apply Grows_like; [apply HandlesLike_scheduleReconnect|].
  destruct (handles w !! k) as [hd|] eqn:Hk.
  - destruct (scheduleReconnect_fields k w hd Hk) as (_ & -> & _). eexists [_]. reflexivity.
  - unfold scheduleReconnect. rewrite Hk. exists []. reflexivity.
Qed.

Lemma Grows_create (k : nat) (throws : bool) (w : World) : Grows w (create k throws w).
Proof.
  apply Grows_like; [apply HandlesLike_create|].
  destruct (handles w !! k) as [hd|] eqn:Hk.
  - destruct (create_shape k throws w hd Hk) as ((new & E & _) & _). eauto.
  - unfold create. rewrite Hk. exists []. reflexivity.
Qed.

Lemma Grows_step (at_ : Q) (e : Event) (w w' : World) :
  step at_ e w = Some w' -> Grows w w'.
Proof.
  intros Hst. destruct (quietEvent e) eqn:Hq.
  { destruct (quiet_fields at_ e w w' Hq Hst) as (HL & _ & _ & Etr & _).
    apply Grows_like; [exact HL | exists []; exact Etr]. }
  destruct e as [s|s parsed iso|s|s|t throws|]; try discriminate.
  - destruct (step_close_shape at_ s w w' Hst) as (sk & _ & _ & ->).
    clear Hst Hq. unfold Client.onclose. simpl handles.
    set (w1 := set_sockets _ _).
    assert (G0 : Grows w w1) by (split; [exists []; reflexivity | simpl; lia]).
    destruct (handles w !! owner sk) as [hd|] eqn:Hk; [|exact G0].
    rewrite (proj1 (onCloseCb_fields _ _)). simpl handles. rewrite Hk.
    assert (G1 : Grows w (onCloseCb (url hd) w1)).
    { unfold Client.onCloseCb.
      destruct (_ && _); simpl; (split; [|simpl; lia]);
        [exists [Scheduled CbFallback fallbackDelay] | exists []]; reflexivity. }
    destruct (shouldReconnect hd); [|exact G1].
    eapply Grows_trans; [exact G1 | apply Grows_scheduleReconnect].
  - destruct (step_timer_shape at_ t throws w w' Hst) as (tm & _ & _ & _ & _ & ->).
    set (w1 := clearTimeout t (set_clock at_ w)).
    assert (G1 : Grows w w1) by (split; [exists []; reflexivity | simpl; lia]).
    eapply Grows_trans; [exact G1|].
    destruct (callback tm) as [k|]; simpl; [apply Grows_create|].
    unfold Client.fallbackCb, createHandler, connectWebSocket.
    set (w2 := match activeHandle w1 with Some a => close a w1 | None => w1 end).
    assert (G2 : Grows w1 w2).
    { unfold w2. destruct (activeHandle w1) as [a|]; [|apply Grows_refl].
      destruct (close_fields a w1) as (_ & Etr & _ & _ & EL).
      split; [exists []; exact Etr | lia]. }
    eapply Grows_trans; [exact G2|].
    set (w3 := set_handles _ w2).
    assert (G3 : Grows w2 w3).
    { split; [exists []; reflexivity|]. simpl. rewrite length_app. lia. }
    eapply Grows_trans; [exact G3|].
    eapply Grows_trans; [apply Grows_create|].
    split; [exists []; reflexivity | simpl; lia].
Qed.

Lemma Grows_run (evs : list (Q * Event)) (w w' : World) :
  run evs w = Some w' -> Grows w w'.
Proof.
  revert w. induction evs as [|[at_ e] evs IH]; intros w Hrun; simpl in Hrun.
  - injection Hrun as <-. apply Grows_refl.
  - destruct (step at_ e w) as [w1|] eqn:Hst; [|discriminate].
    eapply Grows_trans; [eapply Grows_step; eauto | eauto].
Qed.

Lemma filter_app_same {A : Type} (f : A -> bool) (new old : list A) :
  List.filter f (new ++ old) = List.filter f old -> List.filter f new = [].
Proof.
  rewrite List.filter_app. intros E.
  apply (app_inv_tail (List.filter f old)). exact E.
Qed.

Lemma filter_nil_In {A : Type} (f : A -> bool) (l : list A) (x : A) :
  List.filter f l = [] -> In x l -> f x = false.
Proof.
  intros E Hin. destruct (f x) eqn:Hf; [|reflexivity].
  assert (Hx : In x (List.filter f l)) by (apply filter_In; auto).
  rewrite E in Hx. destruct Hx.
Qed.

(** Once the fallback is engaged, everything that is attempted or
    scheduled afterwards is done by the fallback instance. *)
Lemma engaged_run (evs : list (Q * Event)) (w w' : World) :
  Inv w -> length (handles w) = 2 -> run evs w = Some w' ->
  length (handles w') = 2 /\
  exists new, trace w' = new ++ trace w /\
    forall e, In e new ->
      e = AttemptConnect 1 fallbackUrl \/
      exists n, 1 <= n /\ e = Scheduled (CbReconnect 1) (reconnectDelay n).
Proof.
  intros HI H2 Hrun.
  pose proof (Inv_run evs w w' HI Hrun) as [HC' HP'].
  destruct HI as [HC HP].
  destruct (Grows_run evs w w' Hrun) as [[new Enew] HL].
  destruct (ph_len w' HP') as [_ L2].
  assert (H2' : length (handles w') = 2) by lia.
  split; [exact H2'|]. exists new. split; [exact Enew|].
  destruct (ph_C w HP H2) as (Haf & _ & Hd & _).
  destruct (ph_C w' HP' H2') as (Haf' & _).
  pose proof (Dead_run 0 evs w w' Hd Hrun) as (_ & _ & _ & Htr0).
  unfold handleTrace in Htr0. rewrite Enew in Htr0. apply filter_app_same in Htr0.
  assert (Hcnt : List.filter isFallbackSched new = []).
  { pose proof (ph_count w HP) as C1. pose proof (ph_count w' HP') as C2.
    rewrite Haf in C1. rewrite Haf' in C2. unfold fallbackCount in *.
    rewrite Enew, List.filter_app, length_app in C2.
    destruct (List.filter isFallbackSched new); [reflexivity | simpl in C2; lia]. }
  intros e He.
  pose proof (filter_nil_In _ _ e Htr0 He) as B0.
  pose proof (filter_nil_In _ _ e Hcnt He) as F0.
  assert (Hg : GoodEffect 2 e).
  { rewrite <- H2'. apply (ph_trace w' HP'). rewrite Enew. apply in_or_app. now left. }
  destruct e as [h u|[h|] d]; simpl in *; try discriminate.
  - destruct Hg as [Hlt ->]. apply Nat.eqb_neq in B0.
    assert (h = 1) by lia. subst h. left. reflexivity.
  - destruct Hg as [Hlt Hn]. apply Nat.eqb_neq in B0.
    assert (h = 1) by lia. subst h. right.
    destruct Hn as (n & Hn1 & ->). eauto.
Qed.

(** While the switch is scheduled but has not run, the only timer that
    can fire is the switch itself, and it connects to the fallback URL. *)
Lemma armed_timer_is_fallback (at_ : Q) (t : nat) (throws : bool) (w w' : World) :
  Inv w -> attemptedFallback w = true -> length (handles w) = 1 ->
  step at_ (EvTimer t throws) w = Some w' ->
  (exists tm, In tm (timers w) /\ callback tm = CbFallback /\ timerId tm = t /\
              (due tm <= at_)%Q) /\
  length (handles w') = 2 /\ activeHandle w' = Some 1 /\
  In (AttemptConnect 1 fallbackUrl) (trace w').
Proof.
  intros [HC HP] Haf H1 Hst.
  destruct (step_timer_shape at_ t throws w w' Hst) as (tm & Hin & Hid & Hdue & Hearly & Hw').
  destruct (callback tm) as [k|] eqn:Hc.
  - exfalso. pose proof (core_cb w HC tm k Hin Hc) as Hlt.
    assert (k = 0) by lia. subst k.
    destruct (ph_B w HP Haf H1) as (_ & _ & [Harm|Hd]).
    + destruct Harm as (fb & Hfb & Hcfb & Hlt').
      specialize (Hlt' tm Hin Hc). specialize (Hearly fb Hfb). lra.
    + destruct Hd as [_ Hnp]. eapply Hnp; eauto.
  - split; [exists tm; auto|].
    pose proof (ph_active w HP) as Hact. rewrite H1 in Hact. simpl in Hact.
    simpl in Hw'. unfold Client.fallbackCb, createHandler, connectWebSocket in Hw'.
    simpl activeHandle in Hw'. rewrite Hact in Hw'.
    set (w2 := close 0 (clearTimeout t (set_clock at_ w))) in *.
    assert (HL2 : length (handles w2) = 1).
    { unfold w2. rewrite (proj2 (proj2 (proj2 (proj2 (close_fields 0 _))))). exact H1. }
    rewrite HL2 in Hw'.
    set (fresh := {| url := fallbackUrl; ws := None; shouldReconnect := true;
                     reconnectAttempts := 0; reconnectTimer := None |}) in *.
    set (w3 := set_handles (fun l => l ++ [fresh]) w2) in *.
    assert (Hk3 : handles w3 !! 1 = Some fresh).
    { simpl. rewrite lookup_app_r by lia. rewrite HL2. reflexivity. }
    destruct (create_shape 1 throws w3 fresh Hk3) as ((new & Etr & Hatt & _) & _).
    pose proof (HandlesLike_create 1 throws w3) as [HL _].
    subst w'. simpl. repeat split.
    + rewrite HL. simpl. rewrite length_app, HL2. reflexivity.
    + rewrite Etr. apply in_or_app. left. exact Hatt.
Qed.


(** Calling [close()] on any handle keeps the invariant. *)
Lemma Inv_close (k : nat) (w : World) : Inv w -> Inv (close k w).
Proof.
  intros [HC HP]. split; [now apply Core_close|].
  destruct (close_fields k w) as (_ & Etr & Ef & Ea & EL).
  apply (Phase_stay w (close k w) HP (HandlesLike_close k w) Ef Ea).
  - intros tm Hin _. exact (close_timers_fewer k w tm Hin).
  - intros H1 Haf. destruct (ph_B w HP Haf H1) as (Hac & _ & Hor).
    split; [exact (Keeps_AllClosed 0 w _ (Keeps_close 0 k w) Hac)|].
    destruct Hor as [Harm|Hd]; [|right; exact (Keeps_Dead 0 w _ (Keeps_close 0 k w) Hd)].
    destruct (decide (k = 0)) as [->|Hne].
    + right. apply close_Dead; [exact HC | lia].
    + left. unfold close. rewrite (lookup_ge_None_2 (handles w) k) by lia. exact Harm.
  - intros H2. destruct (ph_C w HP H2) as (_ & _ & Hd & Hac).
    split; [exact (Keeps_Dead 0 w _ (Keeps_close 0 k w) Hd)
           | exact (Keeps_AllClosed 0 w _ (Keeps_close 0 k w) Hac)].
  - exists []. split; [exact Etr|]. intros e [].
Qed.

(** Once the fallback is engaged, closing the active (fallback) handle
    ends all activity of the page: nothing is attempted or scheduled
    any more, by any instance. *)
Lemma close_after_engaged_is_final
  (throws : bool) (evs0 evs : list (Q * Event)) (w w' : World) :
  run evs0 (start throws) = Some w -> length (handles w) = 2 ->
  run evs (close 1 w) = Some w' -> trace w' = trace w.
Proof.
  intros Hrun H2 Hrun'.
  pose proof (Inv_reachable throws evs0 w Hrun) as HI.
  pose proof (Inv_close 1 w HI) as HI1.
  destruct (close_fields 1 w) as (_ & Etr & _ & _ & EL).
  destruct (engaged_run evs (close 1 w) w' HI1 ltac:(lia) Hrun') as (_ & new & Enew & Hnew).
  pose proof (close_Dead 1 w (proj1 HI) ltac:(lia)) as Hd.
  pose proof (Dead_run 1 evs (close 1 w) w' Hd Hrun') as (_ & _ & _ & Ht1).
  unfold handleTrace in Ht1. rewrite Enew in Ht1. apply filter_app_same in Ht1.
  destruct new as [|e new]; [rewrite Enew, Etr; reflexivity|].
  exfalso. pose proof (filter_nil_In _ _ e Ht1 ltac:(left; reflexivity)) as Hb.
  destruct (Hnew e ltac:(left; reflexivity)) as [->|(n & _ & ->)]; discriminate.
Qed.

(** The first [close] of the primary socket schedules the switch. *)
Lemma first_close_arms (at_ : Q) (s : nat) (w w' : World) :
  Inv w -> attemptedFallback w = false -> step at_ (EvClose s) w = Some w' ->
  (exists sk, sockets w !! s = Some sk /\ owner sk = 0) /\
  attemptedFallback w' = true /\
  exists tm, In tm (timers w') /\ callback tm = CbFallback /\
             delay tm = fallbackDelay /\ due tm = (at_ + 250)%Q.
Proof.
  intros [HC HP] Haf Hst.
  destruct (step_close_shape at_ s w w' Hst) as (sk & Hs & Hlive & Hw').
  destruct (ph_A w HP Haf) as [H1 _].
  pose proof (core_owner w HC s sk Hs) as Hlt.
  assert (Hk0 : owner sk = 0) by lia.
  split; [exists sk; auto|].
  destruct (lookup_lt_is_Some_2 _ _ Hlt) as [hd Hk]. rewrite Hk0 in *.
  pose proof (ph_url w HP 0 hd Hk) as Hu. unfold urlOf in Hu. simpl in Hu.
  unfold Client.onclose in Hw'. simpl handles in Hw'. rewrite Hk in Hw'.
  rewrite (proj1 (onCloseCb_fields _ _)) in Hw'. simpl handles in Hw'. rewrite Hk in Hw'.
  unfold Client.onCloseCb in Hw'. simpl attemptedFallback in Hw'.
  rewrite Haf, Hu, String.eqb_refl in Hw'. simpl in Hw'.
  set (w2 := emit (Scheduled CbFallback fallbackDelay) _) in Hw'.
  assert (Hk2 : handles w2 !! 0 = Some hd) by exact Hk.
  destruct (scheduleReconnect_fields 0 w2 hd Hk2) as (Et & _ & Ef & _).
  subst w'. destruct (shouldReconnect hd); [rewrite Ef, Et|]; simpl.
  - split; [reflexivity|]. eexists. split; [right; left; reflexivity|]. simpl. auto.
  - split; [reflexivity|]. eexists. split; [left; reflexivity|]. simpl. auto.
Qed.

(** Once the fallback is engaged, a socket that has not fired [close]
    belongs to the fallback instance, and no timer is pending while it
    lives. *)
Lemma engaged_live_socket (w : World) (s : nat) (sk : Socket) :
  Inv w -> length (handles w) = 2 ->
  sockets w !! s = Some sk -> readyState sk <> CLOSED ->
  owner sk = 1 /\ timers w = [].
Proof.
  intros [HC HP] H2 Hs Hlive.
  destruct (ph_C w HP H2) as (_ & Hnf & [_ Hnp] & Hac).
  pose proof (core_owner w HC s sk Hs) as Hlt.
  assert (Ho : owner sk = 1).
  { destruct (decide (owner sk = 0)) as [O|O]; [|lia].
    exfalso. apply Hlive. exact (Hac s sk Hs O). }
  split; [exact Ho|].
  destruct (timers w) as [|tm l] eqn:Et; [reflexivity|]. exfalso.
  assert (Hin : In tm (timers w)) by (rewrite Et; now left).
  destruct (callback tm) as [h|] eqn:Hc.
  - pose proof (core_cb w HC tm h Hin Hc) as Hh.
    destruct (decide (h = 0)) as [->|Hne]; [eapply Hnp; eauto|].
    assert (h = 1) by lia. subst h.
    apply Hlive. exact (core_pending_closed w HC tm 1 Hin Hc s sk Hs Ho).
  - eapply Hnf; eauto.
Qed.

(** ... and when it fires [close] while its instance is enabled, the
    reconnect of the fallback instance is scheduled with the backoff
    delay and nothing else is; that timer can fire as soon as it is due,
    and the instance then attempts the fallback URL again (scheduling
    the next reconnect at once if [new WebSocket] throws). *)
Lemma engaged_close_retries
  (w : World) (s : nat) (sk : Socket) (hd : Handle) (at_ : Q) :
  Inv w -> length (handles w) = 2 ->
  sockets w !! s = Some sk -> readyState sk <> CLOSED ->
  handles w !! 1 = Some hd -> shouldReconnect hd = true -> (clock w <= at_)%Q ->
  owner sk = 1 /\
  exists w1 tm,
    step at_ (EvClose s) w = Some w1 /\
    timers w1 = [tm] /\ callback tm = CbReconnect 1 /\
    delay tm = reconnectDelay (S (reconnectAttempts hd)) /\
    due tm = (at_ + reconnectDelay (S (reconnectAttempts hd)))%Q /\
    trace w1
    = Scheduled (CbReconnect 1) (reconnectDelay (S (reconnectAttempts hd))) :: trace w /\
    forall at2 throws', (due tm <= at2)%Q ->
      exists w2,
        step at2 (EvTimer (timerId tm) throws') w1 = Some w2 /\
        trace w2
        = (if throws'
           then [Scheduled (CbReconnect 1)
                   (reconnectDelay (S (S (reconnectAttempts hd))))]
           else []) ++ AttemptConnect 1 fallbackUrl :: trace w1.
Proof.
  intros HI H2 Hs Hlive Hk Hsr Hclk.
  destruct (engaged_live_socket w s sk HI H2 Hs Hlive) as [Ho Ht].
  split; [exact Ho|].
  destruct HI as [HC HP]. destruct (ph_C w HP H2) as (Haf & _).
  pose proof (ph_url w HP 1 hd Hk) as Hu. unfold urlOf in Hu. simpl in Hu.
  set (d := reconnectDelay (S (reconnectAttempts hd))).
  set (w0 := set_ui (setWsConnected false)
               (set_sockets (alter (set_readyState CLOSED) s) (set_clock at_ w))).
  assert (Hk0 : handles w0 !! 1 = Some hd) by exact Hk.
  destruct (scheduleReconnect_fields 1 w0 hd Hk0) as (Et & Etr & _ & _ & _ & Eh).
  fold d in Et, Etr.
  assert (Ec : clock (scheduleReconnect 1 w0) = at_).
  { unfold scheduleReconnect. rewrite Hk0. reflexivity. }
  assert (Et1 : timers (scheduleReconnect 1 w0)
                = [{| timerId := nextTimer w; due := (at_ + d)%Q; delay := d;
                      callback := CbReconnect 1 |}]).
  { rewrite Et. simpl. rewrite Ht. reflexivity. }
  exists (scheduleReconnect 1 w0),
         {| timerId := nextTimer w; due := (at_ + d)%Q; delay := d;
            callback := CbReconnect 1 |}.
  split; [|split; [exact Et1|]].
  - unfold Client.step. apply Qle_bool_iff in Hclk. rewrite Hclk. simpl.
    rewrite Hs.
    assert (Hnc : isClosed (readyState sk) = false)
      by (destruct (readyState sk); try reflexivity; congruence).
    rewrite Hnc, Ho. unfold Client.onclose. simpl handles. rewrite Hk.
    unfold Client.onCloseCb. simpl attemptedFallback. rewrite Haf. simpl.
    rewrite Hk, Hsr. reflexivity.
  - simpl. split; [reflexivity|]. split; [reflexivity|]. split; [reflexivity|].
    split; [exact Etr|].
    intros at2 throws' Hdue.
    pose proof (reconnectDelay_ge_1500 (S (reconnectAttempts hd)) ltac:(lia)) as Hd.
    fold d in Hd.
    assert (Hclk2 : (at_ <= at2)%Q) by lra.
    set (w1 := scheduleReconnect 1 w0) in *.
    set (hd1 := set_reconnectTimer (Some (nextTimer w0))
                  (set_reconnectAttempts (S (reconnectAttempts hd)) hd)) in *.
    set (wX := clearTimeout (nextTimer w) (set_clock at2 w1)).
    assert (HkX : handles wX !! 1 = Some hd1) by exact Eh.
    eexists. split.
    + unfold Client.step. rewrite Ec. apply Qle_bool_iff in Hclk2. rewrite Hclk2.
      simpl negb. cbv iota. unfold findTimer, earliest. simpl timers. rewrite Et1.
      simpl. rewrite Nat.eqb_refl. simpl.
      apply Qle_bool_iff in Hdue. rewrite Hdue.
      assert (Hrefl : Qle_bool (at_ + d) (at_ + d) = true)
        by (apply Qle_bool_iff, Qle_refl).
      rewrite Hrefl. simpl. reflexivity.
    + fold wX. unfold create. rewrite HkX.
      assert (Eu : url hd1 = fallbackUrl) by exact Hu.
      rewrite Eu. destruct throws'.
      * destruct (scheduleReconnect_fields 1 (emit (AttemptConnect 1 fallbackUrl) wX)
                    hd1 HkX) as (_ & -> & _).
        reflexivity.
      * reflexivity.
Qed.

(** C4. Within one selection cycle the switch from the primary to the
    fallback URL happens at most once: it is scheduled (once, with a
    delay of 250 ms) by the first [close] of the primary socket, whether
    or not that socket ever opened; while it is pending it is the only
    timer that can fire, and it then connects a second instance to the
    fallback URL.  From then on every [close] of a live socket is a
    [close] of the fallback instance's socket and, unless that instance
    was closed explicitly, schedules its reconnect with the backoff
    delay for the incremented count; that timer fires once due and the
    instance attempts the fallback URL again.  Every connection attempt
    and every reconnect scheduling after the switch is made by the
    fallback instance, and the primary URL is never tried again. *)
Theorem fallback_substitution_once (throws : bool) (evs : list (Q * Event)) (w : World) :
  run evs (start throws) = Some w ->
  fallbackCount w <= 1 /\ length (handles w) <= 2 /\
  (forall h hd, handles w !! h = Some hd ->
                url hd = if Nat.eqb h 0 then primaryUrl else fallbackUrl) /\
  (attemptedFallback w = false ->
   forall at_ s w', step at_ (EvClose s) w = Some w' ->
     (exists sk, sockets w !! s = Some sk /\ owner sk = 0) /\
     fallbackCount w' = 1 /\
     exists tm, In tm (timers w') /\ callback tm = CbFallback /\
                delay tm = fallbackDelay /\ due tm = (at_ + 250)%Q) /\
  (attemptedFallback w = true -> length (handles w) = 1 ->
   forall at_ t throws' w', step at_ (EvTimer t throws') w = Some w' ->
     (exists tm, In tm (timers w) /\ callback tm = CbFallback /\ timerId tm = t /\
                 (due tm <= at_)%Q) /\
     length (handles w') = 2 /\ activeHandle w' = Some 1 /\
     In (AttemptConnect 1 fallbackUrl) (trace w')) /\
  (length (handles w) = 2 ->
   forall evs' w', run evs' w = Some w' ->
     length (handles w') = 2 /\ fallbackCount w' = 1 /\
     exists new, trace w' = new ++ trace w /\
       (forall e, In e new ->
          e = AttemptConnect 1 fallbackUrl \/
          exists n, 1 <= n /\ e = Scheduled (CbReconnect 1) (reconnectDelay n)) /\
       (primaryUrl <> fallbackUrl -> forall h, ~ In (AttemptConnect h primaryUrl) new) /\
       (forall s sk hd at_,
          sockets w' !! s = Some sk -> readyState sk <> CLOSED ->
          handles w' !! 1 = Some hd -> shouldReconnect hd = true ->
          (clock w' <= at_)%Q ->
          owner sk = 1 /\
          exists w1 tm,
            step at_ (EvClose s) w' = Some w1 /\
            timers w1 = [tm] /\ callback tm = CbReconnect 1 /\
            delay tm = reconnectDelay (S (reconnectAttempts hd)) /\
            due tm = (at_ + reconnectDelay (S (reconnectAttempts hd)))%Q /\
            trace w1
            = Scheduled (CbReconnect 1) (reconnectDelay (S (reconnectAttempts hd)))
                :: trace w' /\
            forall at2 throws', (due tm <= at2)%Q ->
              exists w2,
                step at2 (EvTimer (timerId tm) throws') w1 = Some w2 /\
                trace w2
                = (if throws'
                   then [Scheduled (CbReconnect 1)
                           (reconnectDelay (S (S (reconnectAttempts hd))))]
                   else []) ++ AttemptConnect 1 fallbackUrl :: trace w1)).
Proof.
  intros Hrun. pose proof (Inv_reachable throws evs w Hrun) as HI.
  destruct HI as [HC HP].
  split; [|split; [|split; [|split; [|split]]]].
  - rewrite (ph_count w HP). destruct (attemptedFallback w); lia.
  - apply (ph_len w HP).
  - exact (ph_url w HP).
  - intros Haf at_ s w' Hst.
    destruct (first_close_arms at_ s w w' (conj HC HP) Haf Hst)
      as ((sk & Hs & Ho) & Haf' & Htm).
    split; [eauto|]. split; [|exact Htm].
    destruct (Inv_step at_ _ w w' (conj HC HP) Hst) as [_ HP'].
    rewrite (ph_count w' HP'), Haf'. reflexivity.
  - intros Haf H1 at_ t throws' w' Hst.
    exact (armed_timer_is_fallback at_ t throws' w w' (conj HC HP) Haf H1 Hst).
  - intros H2 evs' w' Hrun'.
    destruct (engaged_run evs' w w' (conj HC HP) H2 Hrun') as (H2' & new & Enew & Hnew).
    split; [exact H2'|].
    destruct (Inv_run evs' w w' (conj HC HP) Hrun') as [_ HP'].
    split; [rewrite (ph_count w' HP'), (proj1 (ph_C w' HP' H2')); reflexivity|].
    exists new. split; [exact Enew|]. split; [exact Hnew|]. split.
    + intros Hne h Hin. destruct (Hnew _ Hin) as [E|(n & _ & E)]; [|discriminate].
      injection E as _ E. contradiction.
    + intros s sk hd at_ Hs Hlive Hk Hsr Hclk.
      exact (engaged_close_retries w' s sk hd at_
               (Inv_run evs' w w' (conj HC HP) Hrun') H2' Hs Hlive Hk Hsr Hclk).
Qed.

(** What [close()] does achieve, for the instance it is called on: that
    instance never schedules a reconnect and never creates a transport
    connection again, whatever the page goes on to do (a reconnect timer
    pending at the time of the call is cancelled by it), and a repeated
    [close()] changes nothing.  Other instances and the dashboard's own
    timer are not covered. *)
Theorem close_stops_reconnecting
  (throws : bool) (evs0 : list (Q * Event)) (w : World) (h : nat) :
  run evs0 (start throws) = Some w -> h < length (handles w) ->
  close h (close h w) = close h w /\
  handleTrace h (close h w) = handleTrace h w /\
  NoPending h (close h w) /\
  forall evs w', run evs (close h w) = Some w' ->
                 handleTrace h w' = handleTrace h w /\ NoPending h w'.
Proof.
  intros Hrun Hlt. destruct (Inv_reachable throws evs0 w Hrun) as [HC _].
  pose proof (close_Dead h w HC Hlt) as Hd.
  assert (Et : handleTrace h (close h w) = handleTrace h w).
  { unfold handleTrace. now rewrite (proj1 (proj2 (close_fields h w))). }
  split; [apply close_again|]. split; [exact Et|]. split; [apply Hd|].
  intros evs w' Hrun'. pose proof (Dead_run h evs (close h w) w' Hd Hrun') as HK.
  split.
  - destruct HK as (_ & _ & _ & E). congruence.
  - exact (proj2 (Keeps_Dead h _ _ HK Hd)).
Qed.

(** C2 (as amended). When a transport of an instance fires [close] while
    reconnection is still enabled, the attempt counter is incremented
    first and the reconnect is then scheduled after
    [min(30000, 1000 * 1.5^attemptCount)] for the incremented count; so
    the first reconnect after a fresh open (count 0) is scheduled after
    1500 ms. *)
Theorem close_schedules_backoff
  (at_ : Q) (s : nat) (w : World) (sk : Socket) (hd : Handle) :
  (clock w <= at_)%Q -> sockets w !! s = Some sk -> readyState sk <> CLOSED ->
  handles w !! owner sk = Some hd -> shouldReconnect hd = true ->
  exists w' hd' t,
    step at_ (EvClose s) w = Some w' /\
    handles w' !! owner sk = Some hd' /\
    reconnectAttempts hd' = S (reconnectAttempts hd) /\
    reconnectTimer hd' = Some t /\
    In {| timerId := t;
          due := (at_ + reconnectDelay (S (reconnectAttempts hd)))%Q;
          delay := reconnectDelay (S (reconnectAttempts hd));
          callback := CbReconnect (owner sk) |} (timers w') /\
    (exists rest, trace w' = Scheduled (CbReconnect (owner sk))
                               (reconnectDelay (S (reconnectAttempts hd))) :: rest) /\
    (reconnectAttempts hd = 0 ->
     (reconnectDelay (S (reconnectAttempts hd)) == 1500)%Q).
Proof.
  intros Hclk Hs Hlive Hk Hsr.
  set (w1 := set_sockets (alter (set_readyState CLOSED) s) (set_clock at_ w)).
  set (w2 := onCloseCb (url hd) w1).
  destruct (onCloseCb_fields (url hd) w1) as (Eh & _ & _ & Ec).
  assert (Hk2 : handles w2 !! owner sk = Some hd) by (unfold w2; rewrite Eh; exact Hk).
  destruct (scheduleReconnect_fields (owner sk) w2 hd Hk2) as (Et & Etr & _ & _ & _ & Eh2).
  exists (scheduleReconnect (owner sk) w2),
         (set_reconnectTimer (Some (nextTimer w2))
            (set_reconnectAttempts (S (reconnectAttempts hd)) hd)),
         (nextTimer w2).
  split; [|split; [exact Eh2|]].
  - unfold Client.step. apply Qle_bool_iff in Hclk. rewrite Hclk. simpl.
    rewrite Hs. destruct (readyState sk) eqn:Hr; try congruence; simpl;
      unfold Client.onclose; simpl handles; rewrite Hk;
      fold w1; fold w2; rewrite Hk2, Hsr; reflexivity.
  - simpl. repeat split.
    + rewrite Et. left. unfold w2. rewrite Ec. reflexivity.
    + rewrite Etr. eauto.
    + intros ->. reflexivity.
Qed.

End Properties.

(** *** Sample runs *)

Definition samplePrimary : string := "ws://localhost:3000/ws/sensor".
Definition sampleFallback : string := "ws://localhost:8080/ws/sensor".
Definition samplePackage : string := "PKG-1".

Definition sampleRun (evs : list (Q * Event)) : option World :=
  run samplePrimary sampleFallback samplePackage evs (start samplePrimary false).

(** The primary socket has opened. *)
Definition sampleOpened : World :=
  Eval vm_compute in default emptyWorld (sampleRun [(10%Q, EvOpen 0)]).

(** ... and then closed: the switch and a reconnect are both pending. *)
Definition sampleWaiting : World :=
  Eval vm_compute in default emptyWorld (sampleRun [(10%Q, EvOpen 0); (20%Q, EvClose 0)]).

(** ... and the switch has fired: the fallback instance is connecting. *)
Definition sampleEngaged : World :=
  Eval vm_compute in
    default emptyWorld
      (sampleRun [(10%Q, EvOpen 0); (20%Q, EvClose 0); (270%Q, EvTimer 1 false)]).

Example sampleWaiting_timers :
  map (fun tm => (callback tm, Qred (delay tm), Qred (due tm))) (timers sampleWaiting)
  = [(CbReconnect 0, 1500%Q, 1520%Q); (CbFallback, 250%Q, 270%Q)].
Proof. reflexivity. Qed.

Example sampleEngaged_trace :
  map (fun e => match e with
                | AttemptConnect h u => (h, u)
                | Scheduled _ _ => (99, ""%string)
                end) (rev (trace sampleEngaged))
  = [(0, samplePrimary); (99, ""%string); (99, ""%string); (1, sampleFallback)].
Proof. reflexivity. Qed.

(** The primary reconnect timer cannot fire while the switch is pending. *)
Example sampleWaiting_order :
  step samplePrimary sampleFallback samplePackage 1520%Q (EvTimer 2 false) sampleWaiting
  = None.
Proof. reflexivity. Qed.

(** The effect's cleanup closes the active handle but does not cancel a
    switch that is already scheduled: it still fires and connects. *)
Example cleanup_does_not_cancel_switch :
  option_map (fun w => (length (handles w), hd_error (trace w)))
    (sampleRun [(10%Q, EvOpen 0); (20%Q, EvClose 0); (30%Q, EvCleanup);
                (270%Q, EvTimer 1 false)])
  = Some (2, Some (AttemptConnect 1 sampleFallback)).
Proof. reflexivity. Qed.

Lemma fallback_substitution_once_witness :
  fallbackCount sampleEngaged <= 1 /\ length (handles sampleEngaged) = 2 /\
  (samplePrimary <> sampleFallback ->
   forall evs' w',
     run samplePrimary sampleFallback samplePackage evs' sampleEngaged = Some w' ->
     length (handles w') = 2 /\ fallbackCount w' = 1) /\
  exists w1 tm,
    step samplePrimary sampleFallback samplePackage 300%Q (EvClose 1) sampleEngaged
    = Some w1 /\
    timers w1 = [tm] /\ callback tm = CbReconnect 1 /\
    delay tm = reconnectDelay 1 /\ due tm = (300 + reconnectDelay 1)%Q /\
    trace w1 = Scheduled (CbReconnect 1) (reconnectDelay 1) :: trace sampleEngaged /\
    exists w2,
      step samplePrimary sampleFallback samplePackage 1800%Q
        (EvTimer (timerId tm) false) w1 = Some w2 /\
      trace w2 = AttemptConnect 1 sampleFallback :: trace w1.
Proof.
  pose proof (fallback_substitution_once samplePrimary sampleFallback samplePackage false
                [(10%Q, EvOpen 0); (20%Q, EvClose 0); (270%Q, EvTimer 1 false)]
                sampleEngaged eq_refl) as (Hc & _ & _ & _ & _ & Heng).
  split; [exact Hc|]. split; [reflexivity|]. split.
  - intros _ evs' w' Hrun. destruct (Heng eq_refl evs' w' Hrun) as (H2 & Hc' & _). auto.
  - destruct (Heng eq_refl [] sampleEngaged eq_refl) as (_ & _ & new & _ & _ & _ & Hretry).
    destruct (Hretry 1
                {| owner := 1; sockUrl := sampleFallback; readyState := CONNECTING |}
                {| url := sampleFallback; ws := Some 1; shouldReconnect := true;
                   reconnectAttempts := 0; reconnectTimer := None |}
                300%Q eq_refl ltac:(discriminate) eq_refl eq_refl
                ltac:(vm_compute; discriminate))
      as (_ & w1 & tm & Hst & Ht & Hcb & Hdl & Hdue & Htr & Hfire).
    exists w1, tm. split; [exact Hst|]. split; [exact Ht|]. split; [exact Hcb|].
    split; [exact Hdl|]. split; [exact Hdue|]. split; [exact Htr|].
    destruct (Hfire 1800%Q false) as (w2 & Hst2 & Htr2).
    + rewrite Hdue. vm_compute. discriminate.
    + exists w2. split; [exact Hst2 | exact Htr2].
Defined.

Lemma close_stops_reconnecting_witness :
  (exists tm, In tm (timers sampleWaiting) /\ callback tm = CbReconnect 0) /\
  close 0 (close 0 sampleWaiting) = close 0 sampleWaiting /\
  handleTrace 0 (close 0 sampleWaiting) = handleTrace 0 sampleWaiting /\
  NoPending 0 (close 0 sampleWaiting) /\
  forall evs w',
    run samplePrimary sampleFallback samplePackage evs (close 0 sampleWaiting) = Some w' ->
    handleTrace 0 w' = handleTrace 0 sampleWaiting /\ NoPending 0 w'.
Proof.
  split.
  - eexists. split; [left; reflexivity | reflexivity].
  - apply (close_stops_reconnecting samplePrimary sampleFallback samplePackage false
             [(10%Q, EvOpen 0); (20%Q, EvClose 0)] sampleWaiting 0);
      [reflexivity | simpl; lia].
Defined.

Lemma close_schedules_backoff_witness :
  exists w' hd' t,
    step samplePrimary sampleFallback samplePackage 20%Q (EvClose 0) sampleOpened = Some w' /\
    handles w' !! 0 = Some hd' /\
    reconnectAttempts hd' = 1 /\
    reconnectTimer hd' = Some t /\
    In {| timerId := t; due := (20 + reconnectDelay 1)%Q; delay := reconnectDelay 1;
          callback := CbReconnect 0 |} (timers w') /\
    (exists rest, trace w' = Scheduled (CbReconnect 0) (reconnectDelay 1) :: rest) /\
    (0 = 0 -> (reconnectDelay 1 == 1500)%Q).
Proof.
  apply (close_schedules_backoff samplePrimary sampleFallback samplePackage 20%Q 0
           sampleOpened
           {| owner := 0; sockUrl := samplePrimary; readyState := OPEN |}
           {| url := samplePrimary; ws := Some 0; shouldReconnect := true;
              reconnectAttempts := 0; reconnectTimer := None |});
    [vm_compute; discriminate | reflexivity | discriminate | reflexivity | reflexivity].
Defined.

(** C2 as stated fails: after a fresh open the attempt counter is 0, and
    the reconnect scheduled by the next [close] is due after 1500 ms
    (the delay for the incremented count 1), not after the 1000 ms that
    the count before the increment would give. *)
Lemma first_reconnect_not_after_1000ms :
  exists w' hd,
    handles sampleOpened !! 0 = Some hd /\ reconnectAttempts hd = 0 /\
    step samplePrimary sampleFallback samplePackage 20%Q (EvClose 0) sampleOpened = Some w' /\
    (exists tm, In tm (timers w') /\ callback tm = CbReconnect 0) /\
    forall tm, In tm (timers w') -> callback tm = CbReconnect 0 ->
               (delay tm == 1500)%Q /\
               ~ (delay tm == reconnectDelay (reconnectAttempts hd))%Q /\
               ~ (delay tm == 1000)%Q.
Proof.
  exists sampleWaiting, {| url := samplePrimary; ws := Some 0; shouldReconnect := true;
                           reconnectAttempts := 0; reconnectTimer := None |}.
  split; [reflexivity|]. split; [reflexivity|]. split; [reflexivity|]. split.
  - eexists. split; [left; reflexivity | reflexivity].
  - intros tm [<-|[<-|[]]] Hc; [|discriminate]. simpl.
    split; [reflexivity|]. split; intros H; discriminate H.
Qed.

(** *** Further properties of the reachable states *)

Section Reachable.

Variables primaryUrl fallbackUrl selectedPackageId : string.

Abbreviation step := (step primaryUrl fallbackUrl selectedPackageId).
Abbreviation run := (run primaryUrl fallbackUrl selectedPackageId).
Abbreviation start := (start primaryUrl).
Abbreviation Inv := (Inv primaryUrl fallbackUrl).

(** Every socket belongs to the primary or to the fallback instance. *)
Lemma owner_cases (w : World) (s : nat) (sk : Socket) :
  Inv w -> sockets w !! s = Some sk ->
  owner sk = 0 \/ (owner sk = 1 /\ length (handles w) = 2).
Proof.
  intros [HC HP] Hs. pose proof (core_owner w HC s sk Hs) as Hlt.
  destruct (ph_len _ _ w HP) as [_ L2]. lia.
Qed.

(** X1. The page never holds two sockets that have not yet fired
    [close]: the primary and the fallback instance together keep at most
    one transport alive. *)
Theorem one_live_socket
  (throws : bool) (evs : list (Q * Event)) (w : World)
  (s1 s2 : nat) (sk1 sk2 : Socket) :
  run evs (start throws) = Some w ->
  sockets w !! s1 = Some sk1 -> sockets w !! s2 = Some sk2 ->
  readyState sk1 <> CLOSED -> readyState sk2 <> CLOSED ->
  s1 = s2.
Proof.
  intros Hrun H1 H2 L1 L2.
  pose proof (Inv_reachable _ _ _ throws evs w Hrun) as HI.
  destruct (decide (owner sk1 = owner sk2)) as [Ho|Hne].
  - exact (core_live_unique w (proj1 HI) s1 s2 sk1 sk2 H1 H2 Ho L1 L2).
  - exfalso.
    destruct (owner_cases w s1 sk1 HI H1) as [O1|[O1 Hlen]];
      destruct (owner_cases w s2 sk2 HI H2) as [O2|[O2 Hlen']]; try congruence.
    + destruct (ph_C _ _ w (proj2 HI) Hlen') as (_ & _ & _ & Hac).
      apply L1. exact (Hac s1 sk1 H1 O1).
    + destruct (ph_C _ _ w (proj2 HI) Hlen) as (_ & _ & _ & Hac).
      apply L2. exact (Hac s2 sk2 H2 O2).
Qed.


(** X3. Whatever happens, a reconnect is never scheduled sooner than
    1500 ms nor later than 30000 ms after the close that causes it, and
    the switch to the fallback URL is always scheduled 250 ms ahead. *)
Theorem scheduled_delays_bounded
  (throws : bool) (evs : list (Q * Event)) (w : World) (cb : Callback) (d : Q) :
  run evs (start throws) = Some w ->
  In (Scheduled cb d) (trace w) ->
  match cb with
  | CbReconnect _ => (1500 <= d /\ d <= 30000)%Q
  | CbFallback => d = 250%Q
  end.
Proof.
  intros Hrun Hin.
  destruct (Inv_reachable _ _ _ throws evs w Hrun) as [_ HP].
  pose proof (ph_trace _ _ w HP _ Hin) as Hg. destruct cb as [h|]; simpl in Hg.
  - destruct Hg as (_ & n & Hn & ->). split.
    + now apply reconnectDelay_ge_1500.
    + apply reconnectDelay_le_cap.
  - exact Hg.
Qed.

(** *** The connectivity indicator *)

Definition upOrClosing (r : ReadyState) : bool :=
  match r with
  | OPEN | CLOSING => true
  | _ => false
  end.

(** Some socket has fired [open] and has not fired [close] yet. *)
Definition established (w : World) : bool :=
  existsb (fun sk => upOrClosing (readyState sk)) (sockets w).

Lemma established_iff (w : World) :
  established w = true <->
  exists s sk, sockets w !! s = Some sk /\ upOrClosing (readyState sk) = true.
Proof.
  unfold established. rewrite existsb_exists. split.
  - intros (sk & Hin & Hu). apply list_elem_of_In, list_elem_of_lookup in Hin as [s Hs]. eauto.
  - intros (s & sk & Hs & Hu). exists sk. split; [|exact Hu].
    apply list_elem_of_In. eapply list_elem_of_lookup_2; eauto.
Qed.

(** [SocketsStay w w']: the component state is untouched and a socket
    that was open or closing still is. *)
Definition SocketsStay (w w' : World) : Prop :=
  ui w' = ui w /\
  forall s sk, sockets w !! s = Some sk -> upOrClosing (readyState sk) = true ->
    exists sk', sockets w' !! s = Some sk' /\ upOrClosing (readyState sk') = true.

Lemma SocketsStay_refl (w : World) : SocketsStay w w.
Proof. split; eauto. Qed.

Lemma SocketsStay_trans (w1 w2 w3 : World) :
  SocketsStay w1 w2 -> SocketsStay w2 w3 -> SocketsStay w1 w3.
Proof.
  intros [U1 S1] [U2 S2]. split; [congruence|].
  intros s sk Hs Hu. destruct (S1 s sk Hs Hu) as (sk2 & Hs2 & Hu2). eauto.
Qed.

Lemma SocketsStay_same (w w' : World) :
  ui w' = ui w -> sockets w' = sockets w -> SocketsStay w w'.
Proof. intros Hu Hs. unfold SocketsStay. rewrite Hu, Hs. eauto. Qed.

Lemma SocketsStay_established (w w' : World) :
  SocketsStay w w' -> established w = true -> established w' = true.
Proof.
  intros [_ S] He. apply established_iff in He as (s & sk & Hs & Hu).
  apply established_iff. destruct (S s sk Hs Hu) as (sk' & Hs' & Hu'). eauto.
Qed.

Lemma SocketsStay_sockClose (s : nat) (w : World) : SocketsStay w (sockClose s w).
Proof.
  split; [reflexivity|]. intros s' sk Hs Hu. simpl.
  destruct (decide (s = s')) as [->|Hne].
  - rewrite list_lookup_alter_eq, Hs. simpl. eexists. split; [reflexivity|].
    destruct (readyState sk) eqn:E; simpl in *; rewrite ?E; simpl;
      try discriminate; reflexivity.
  - rewrite list_lookup_alter_ne by exact Hne. eauto.
Qed.

Lemma SocketsStay_scheduleReconnect (k : nat) (w : World) :
  SocketsStay w (scheduleReconnect k w).
Proof.
  unfold scheduleReconnect. destruct (handles w !! k); [|apply SocketsStay_refl].
  apply SocketsStay_same; reflexivity.
Qed.

Lemma SocketsStay_create (k : nat) (throws : bool) (w : World) :
  SocketsStay w (create k throws w).
Proof.
  unfold create. destruct (handles w !! k) as [hd|]; [|apply SocketsStay_refl].
  destruct throws.
  - eapply SocketsStay_trans; [|apply SocketsStay_scheduleReconnect].
    apply SocketsStay_same; reflexivity.
  - split; [reflexivity|]. intros s sk Hs Hu. simpl.
    exists sk. split; [|exact Hu]. apply lookup_app_l_Some. exact Hs.
Qed.

Lemma SocketsStay_close (k : nat) (w : World) : SocketsStay w (close k w).
Proof.
  unfold close. destruct (handles w !! k) as [hd|]; [|apply SocketsStay_refl].
  unfold closeSocket.
  assert (S1 : SocketsStay w (cancelTimer hd (updHandle k (set_shouldReconnect false) w))).
  { unfold cancelTimer. destruct (reconnectTimer hd) as [t|];
      [destruct (Nat.eqb t 0)|]; apply SocketsStay_same; reflexivity. }
  destruct (ws hd) as [s|]; [|exact S1].
  eapply SocketsStay_trans; [exact S1|].
  eapply SocketsStay_trans; [apply SocketsStay_sockClose|].
  apply SocketsStay_same; reflexivity.
Qed.

Lemma SocketsStay_connectWebSocket (u : string) (throws : bool) (w : World) :
  SocketsStay w (snd (connectWebSocket u throws w)).
Proof.
  unfold connectWebSocket. simpl.
  eapply SocketsStay_trans; [|apply SocketsStay_create].
  apply SocketsStay_same; reflexivity.
Qed.

Lemma SocketsStay_fallbackCb (throws : bool) (w : World) :
  SocketsStay w (fallbackCb fallbackUrl throws w).
Proof.
  unfold fallbackCb, createHandler.
  set (w1 := match activeHandle w with Some a => close a w | None => w end).
  assert (S1 : SocketsStay w w1).
  { unfold w1. destruct (activeHandle w); [apply SocketsStay_close | apply SocketsStay_refl]. }
  pose proof (SocketsStay_connectWebSocket fallbackUrl throws w1) as S2.
  destruct (connectWebSocket fallbackUrl throws w1) as [h' w2]. simpl in S2.
  eapply SocketsStay_trans; [exact S1|]. eapply SocketsStay_trans; [exact S2|].
  apply SocketsStay_same; reflexivity.
Qed.

Lemma onMessage_indicator (sel now : string) (msg : value) (u : UiState) :
  wsConnected (onMessage sel now msg u) = wsConnected u.
Proof.
  unfold onMessage. destruct (negb (truthy msg)); [reflexivity|].
  destruct (filteredOut sel msg); reflexivity.
Qed.

Lemma onclose_indicator (k : nat) (w : World) (hd : Handle) :
  handles w !! k = Some hd -> wsConnected (ui (onclose primaryUrl k w)) = false.
Proof.
  intros Hk. unfold onclose. rewrite Hk.
  assert (U : forall u, wsConnected (ui (onCloseCb primaryUrl u w)) = false).
  { intros u. unfold onCloseCb. simpl.
    destruct (negb (attemptedFallback w) && String.eqb u primaryUrl); reflexivity. }
  destruct (handles (onCloseCb primaryUrl (url hd) w) !! k) as [hd1|]; [|apply U].
  destruct (shouldReconnect hd1); [|apply U].
  rewrite (proj1 (SocketsStay_scheduleReconnect k _)). apply U.
Qed.

(** The indicator is on only while some socket is open or closing. *)
Definition IndicatorSound (w : World) : Prop :=
  wsConnected (ui w) = true -> established w = true.

Lemma IndicatorSound_stay (w w' : World) :
  SocketsStay w w' -> IndicatorSound w -> IndicatorSound w'.
Proof.
  intros S HI Hon. apply (SocketsStay_established w w' S). apply HI.
  rewrite <- (proj1 S). exact Hon.
Qed.

Lemma IndicatorSound_step (at_ : Q) (e : Event) (w w' : World) :
  Core w -> IndicatorSound w -> step at_ e w = Some w' -> IndicatorSound w'.
Proof.
  intros HC HI Hst. unfold Client.step in Hst.
  destruct (negb (Qle_bool (clock w) at_)); [discriminate|].
  assert (HC0 : Core (set_clock at_ w)) by (eapply Core_ext; [..|exact HC]; reflexivity).
  assert (HI0 : IndicatorSound (set_clock at_ w)) by exact HI.
  set (w0 := set_clock at_ w) in *. clearbody w0. clear HC HI.
  destruct e as [s|s parsed iso|s|s|t throws|].
  - destruct (sockets w0 !! s) as [sk|] eqn:Hs; [|discriminate].
    destruct (readyState sk) eqn:Hr; try discriminate.
    injection Hst as <-. intros _. apply established_iff.
    exists s, (set_readyState OPEN sk). split; [|reflexivity].
    unfold onopen, onOpenCb. simpl. rewrite list_lookup_alter_eq, Hs. reflexivity.
  - destruct (sockets w0 !! s) as [sk|] eqn:Hs; [|discriminate].
    destruct (readyState sk) eqn:Hr; try discriminate.
    injection Hst as <-. unfold onmessage. destruct parsed as [msg|]; [|exact HI0].
    intros Hon. simpl in Hon. rewrite onMessage_indicator in Hon. exact (HI0 Hon).
  - destruct (sockets w0 !! s) as [sk|] eqn:Hs; [|discriminate].
    destruct (isClosed (readyState sk)); [discriminate|].
    injection Hst as <-. unfold onerror.
    destruct (handles w0 !! owner sk) as [hd|]; [|exact HI0].
    destruct (ws hd); [|exact HI0].
    eapply IndicatorSound_stay; [apply SocketsStay_sockClose | exact HI0].
  - destruct (sockets w0 !! s) as [sk|] eqn:Hs; [|discriminate].
    destruct (isClosed (readyState sk)); [discriminate|].
    injection Hst as <-. intros Hon. exfalso.
    pose proof (core_owner w0 HC0 s sk Hs) as Hlt.
    apply lookup_lt_is_Some_2 in Hlt as [hd Hh].
    rewrite (onclose_indicator (owner sk) _ hd) in Hon; [discriminate | exact Hh].
  - destruct (findTimer t w0) as [tm|] eqn:Hf; [|discriminate].
    destruct (Qle_bool (due tm) at_ && earliest tm w0); [|discriminate].
    injection Hst as <-.
    assert (S1 : SocketsStay w0 (clearTimeout t w0)) by (apply SocketsStay_same; reflexivity).
    eapply IndicatorSound_stay; [|exact HI0].
    eapply SocketsStay_trans; [exact S1|].
    destruct (callback tm); simpl; [apply SocketsStay_create | apply SocketsStay_fallbackCb].
  - injection Hst as <-. intros Hon. discriminate Hon.
Qed.

Lemma IndicatorSound_run (evs : list (Q * Event)) (w w' : World) :
  Inv w -> IndicatorSound w -> run evs w = Some w' -> IndicatorSound w'.
Proof.
  revert w. induction evs as [|[at_ e] evs IH]; intros w HInv HI Hrun; simpl in Hrun.
  - injection Hrun as <-. exact HI.
  - destruct (step at_ e w) as [w1|] eqn:Hst; [|discriminate].
    apply (IH w1); [| |exact Hrun].
    + exact (Inv_step _ _ _ at_ e w w1 HInv Hst).
    + exact (IndicatorSound_step at_ e w w1 (proj1 HInv) HI Hst).
Qed.

Lemma start_indicator (throws : bool) : wsConnected (ui (start throws)) = false.
Proof.
  unfold Client.start, createHandler.
  pose proof (SocketsStay_connectWebSocket primaryUrl throws emptyWorld) as [U _].
  destruct (connectWebSocket primaryUrl throws emptyWorld) as [h w]. simpl in *.
  rewrite U. reflexivity.
Qed.

(** X4. The connectivity indicator is never on while the page is
    disconnected: whenever [wsConnected] is true, some socket has fired
    [open] and has not yet fired [close]. *)
Theorem indicator_on_only_while_established
  (throws : bool) (evs : list (Q * Event)) (w : World) :
  run evs (start throws) = Some w ->
  wsConnected (ui w) = true ->
  exists s sk, sockets w !! s = Some sk /\
               (readyState sk = OPEN \/ readyState sk = CLOSING).
Proof.
  intros Hrun Hon.
  assert (HI : IndicatorSound w).
  { apply (IndicatorSound_run evs (start throws) w); [apply Inv_start | | exact Hrun].
    intros H. rewrite start_indicator in H. discriminate. }
  apply established_iff in HI; [|exact Hon].
  destruct HI as (s & sk & Hs & Hu). exists s, sk. split; [exact Hs|].
  destruct (readyState sk); simpl in Hu; try discriminate; auto.
Qed.

(** *** Timer identifiers *)

(** Timer identifiers are handed out once: pending timers have distinct
    identifiers below [nextTimer], so has every remembered
    [reconnectTimer], and no instance remembers the identifier of a
    pending switch to the fallback URL. *)
Record Fresh (w : World) : Prop := {
  fr_ids : forall tm, In tm (timers w) -> timerId tm < nextTimer w;
  fr_unique : forall tm1 tm2, In tm1 (timers w) -> In tm2 (timers w) ->
              timerId tm1 = timerId tm2 -> tm1 = tm2;
  fr_handles : forall h hd t, handles w !! h = Some hd -> reconnectTimer hd = Some t ->
               t < nextTimer w;
  fr_fallback : forall tm h hd, In tm (timers w) -> callback tm = CbFallback ->
                handles w !! h = Some hd -> reconnectTimer hd <> Some (timerId tm)
}.

Lemma Fresh_ext (w w' : World) :
  handles w' = handles w -> timers w' = timers w -> nextTimer w' = nextTimer w ->
  Fresh w -> Fresh w'.
Proof.
  intros Hh Ht Hn [? ? ? ?]. constructor; rewrite ?Hh, ?Ht, ?Hn; assumption.
Qed.

Lemma Fresh_fewer_timers (w : World) (f : list Timer -> list Timer) :
  (forall tm, In tm (f (timers w)) -> In tm (timers w)) ->
  Fresh w -> Fresh (set_timers f w).
Proof. intros Hsub [A B C D]. constructor; simpl; eauto. Qed.

Lemma Fresh_handle_alter (f : Handle -> Handle) (h : nat) (w : World) :
  (forall hd, reconnectTimer (f hd) = reconnectTimer hd) ->
  Fresh w -> Fresh (updHandle h f w).
Proof.
  intros Hf [A B C D]. constructor; simpl; try assumption.
  - intros k hd t Hlk Hr.
    apply lookup_alter_Some in Hlk as (x & Hx & [[-> ->]|[_ ->]]); [rewrite Hf in Hr|]; eauto.
  - intros tm k hd Hin Hc Hlk.
    apply lookup_alter_Some in Hlk as (x & Hx & [[-> ->]|[_ ->]]); [rewrite Hf|]; eauto.
Qed.

Lemma Fresh_setTimeout (cb : Callback) (d : Q) (w : World) :
  Fresh w -> Fresh (snd (setTimeout cb d w)).
Proof.
  intros [A B C D]. constructor; simpl.
  - intros tm [<-|Hin]; simpl; [lia | specialize (A tm Hin); lia].
  - intros tm1 tm2 [<-|H1] [<-|H2] E; simpl in *; try reflexivity.
    + specialize (A tm2 H2). lia.
    + specialize (A tm1 H1). lia.
    + eauto.
  - intros k x t Hlk Hr. specialize (C k x t Hlk Hr). lia.
  - intros tm k x [<-|Hin] Hc Hlk; simpl in *; [|eauto].
    intros Hr. specialize (C k x _ Hlk Hr). lia.
Qed.

Lemma Fresh_scheduleReconnect (h : nat) (w : World) :
  Fresh w -> Fresh (scheduleReconnect h w).
Proof.
  intros HF. unfold scheduleReconnect.
  destruct (handles w !! h) as [hd|] eqn:Hh; [|exact HF].
  destruct HF as [A B C D]. constructor; simpl.
  - intros tm [<-|Hin]; simpl; [lia | specialize (A tm Hin); lia].
  - intros tm1 tm2 [<-|H1] [<-|H2] E; simpl in *; try reflexivity.
    + specialize (A tm2 H2). lia.
    + specialize (A tm1 H1). lia.
    + eauto.
  - intros k x t Hlk Hr.
    apply lookup_alter_Some in Hlk as (y & Hy & [[-> ->]|[_ ->]]); simpl in *.
    + injection Hr as <-. lia.
    + specialize (C k y t Hy Hr). lia.
  - intros tm k x [<-|Hin] Hc Hlk; simpl in *; [discriminate|].
    apply lookup_alter_Some in Hlk as (y & Hy & [[-> ->]|[_ ->]]); simpl.
    + specialize (A tm Hin). intros [= E]. lia.
    + eauto.
Qed.

Lemma Fresh_create (h : nat) (throws : bool) (w : World) :
  Fresh w -> Fresh (create h throws w).
Proof.
  intros HF. unfold create. destruct (handles w !! h) as [hd|]; [|exact HF].
  assert (F0 : Fresh (emit (AttemptConnect h (url hd)) w))
    by (eapply Fresh_ext; [..|exact HF]; reflexivity).
  destruct throws; [now apply Fresh_scheduleReconnect|].
  apply Fresh_handle_alter; [reflexivity|].
  eapply Fresh_ext; [..|exact F0]; reflexivity.
Qed.

Lemma Fresh_close (k : nat) (w : World) : Fresh w -> Fresh (close k w).
Proof.
  intros HF. unfold close. destruct (handles w !! k) as [hd|]; [|exact HF].
  assert (F1 : Fresh (cancelTimer hd (updHandle k (set_shouldReconnect false) w))).
  { rewrite cancelTimer_updHandle. apply Fresh_handle_alter; [reflexivity|].
    unfold cancelTimer. destruct (reconnectTimer hd) as [t|]; [|exact HF].
    destruct (Nat.eqb t 0); [exact HF|].
    apply Fresh_fewer_timers; [|exact HF]. intros tm Hin. apply In_clear in Hin. tauto. }
  unfold closeSocket. destruct (ws hd) as [s|]; [|exact F1].
  apply Fresh_handle_alter; [reflexivity|].
  eapply Fresh_ext; [..|exact F1]; reflexivity.
Qed.

Lemma Fresh_connectWebSocket (u : string) (throws : bool) (w : World) :
  Fresh w -> Fresh (snd (connectWebSocket u throws w)).
Proof.
  intros [A B C D]. unfold connectWebSocket. simpl. apply Fresh_create.
  constructor; simpl; try assumption.
  - intros k x t Hlk Hr. apply lookup_snoc_Some in Hlk as [[_ Hlk]|[_ <-]]; [eauto|].
    discriminate.
  - intros tm k x Hin Hc Hlk. apply lookup_snoc_Some in Hlk as [[_ Hlk]|[_ <-]]; [eauto|].
    discriminate.
Qed.

Lemma Fresh_onclose (k : nat) (w : World) : Fresh w -> Fresh (onclose primaryUrl k w).
Proof.
  intros HF. unfold onclose. destruct (handles w !! k) as [hd|]; [|exact HF].
  assert (F1 : Fresh (onCloseCb primaryUrl (url hd) w)).
  { unfold onCloseCb.
    destruct (negb (attemptedFallback (set_ui (setWsConnected false) w))
              && String.eqb (url hd) primaryUrl).
    - apply Fresh_setTimeout. eapply Fresh_ext; [..|exact HF]; reflexivity.
    - eapply Fresh_ext; [..|exact HF]; reflexivity. }
  destruct (handles (onCloseCb primaryUrl (url hd) w) !! k) as [hd1|]; [|exact F1].
  destruct (shouldReconnect hd1); [now apply Fresh_scheduleReconnect | exact F1].
Qed.

Lemma Fresh_fallbackCb (throws : bool) (w : World) :
  Fresh w -> Fresh (fallbackCb fallbackUrl throws w).
Proof.
  intros HF. unfold fallbackCb, createHandler.
  set (w1 := match activeHandle w with Some a => close a w | None => w end).
  assert (F1 : Fresh w1).
  { unfold w1. destruct (activeHandle w); [now apply Fresh_close | exact HF]. }
  pose proof (Fresh_connectWebSocket fallbackUrl throws w1 F1) as F2.
  destruct (connectWebSocket fallbackUrl throws w1) as [h' w2]. simpl in F2.
  eapply Fresh_ext; [..|exact F2]; reflexivity.
Qed.

Lemma Fresh_step (at_ : Q) (e : Event) (w w' : World) :
  Fresh w -> step at_ e w = Some w' -> Fresh w'.
Proof.
  intros HF Hst. unfold Client.step in Hst.
  destruct (negb (Qle_bool (clock w) at_)); [discriminate|].
  assert (HF0 : Fresh (set_clock at_ w)) by (eapply Fresh_ext; [..|exact HF]; reflexivity).
  set (w0 := set_clock at_ w) in *. clearbody w0. clear HF.
  destruct e as [s|s parsed iso|s|s|t throws|].
  - destruct (sockets w0 !! s) as [sk|] eqn:Hs; [|discriminate].
    destruct (readyState sk) eqn:Hr; try discriminate.
    injection Hst as <-. unfold onopen, onOpenCb.
    assert (F1 : Fresh (updHandle (owner sk) (set_reconnectAttempts 0)
                          (set_sockets (alter (set_readyState OPEN) s) w0))).
    { apply Fresh_handle_alter; [reflexivity|].
      eapply Fresh_ext; [..|exact HF0]; reflexivity. }
    eapply Fresh_ext; [..|exact F1]; reflexivity.
  - destruct (sockets w0 !! s) as [sk|] eqn:Hs; [|discriminate].
    destruct (readyState sk) eqn:Hr; try discriminate.
    injection Hst as <-. unfold onmessage.
    destruct parsed; [|exact HF0]. eapply Fresh_ext; [..|exact HF0]; reflexivity.
  - destruct (sockets w0 !! s) as [sk|] eqn:Hs; [|discriminate].
    destruct (isClosed (readyState sk)); [discriminate|].
    injection Hst as <-. unfold onerror.
    destruct (handles w0 !! owner sk) as [hd|]; [|exact HF0].
    destruct (ws hd); [|exact HF0]. eapply Fresh_ext; [..|exact HF0]; reflexivity.
  - destruct (sockets w0 !! s) as [sk|] eqn:Hs; [|discriminate].
    destruct (isClosed (readyState sk)); [discriminate|].
    injection Hst as <-. apply Fresh_onclose.
    eapply Fresh_ext; [..|exact HF0]; reflexivity.
  - destruct (findTimer t w0) as [tm|] eqn:Hf; [|discriminate].
    destruct (Qle_bool (due tm) at_ && earliest tm w0); [|discriminate].
    injection Hst as <-.
    assert (F1 : Fresh (clearTimeout t w0)).
    { apply Fresh_fewer_timers; [|exact HF0]. intros x Hx. apply In_clear in Hx. tauto. }
    destruct (callback tm); simpl; [now apply Fresh_create | now apply Fresh_fallbackCb].
  - injection Hst as <-. unfold cleanup.
    assert (F1 : Fresh (match activeHandle w0 with Some a => close a w0 | None => w0 end)).
    { destruct (activeHandle w0); [now apply Fresh_close | exact HF0]. }
    eapply Fresh_ext; [..|exact F1]; reflexivity.
Qed.

Lemma Fresh_run (evs : list (Q * Event)) (w w' : World) :
  Fresh w -> run evs w = Some w' -> Fresh w'.
Proof.
  revert w. induction evs as [|[at_ e] evs IH]; intros w HF Hrun; simpl in Hrun.
  - injection Hrun as <-. exact HF.
  - destruct (step at_ e w) as [w1|] eqn:Hst; [|discriminate].
    apply (IH w1); [|exact Hrun]. exact (Fresh_step at_ e w w1 HF Hst).
Qed.

Lemma Fresh_start (throws : bool) : Fresh (start throws).
Proof.
  unfold Client.start, createHandler.
  assert (F0 : Fresh emptyWorld).
  { constructor; simpl; try (intros; contradiction).
    - intros h hd t Hlk. rewrite lookup_nil in Hlk. discriminate.
  }
  pose proof (Fresh_connectWebSocket primaryUrl throws emptyWorld F0) as F1.
  destruct (connectWebSocket primaryUrl throws emptyWorld) as [h w]. simpl in F1.
  eapply Fresh_ext; [..|exact F1]; reflexivity.
Qed.

(** [close()] of any handle leaves a pending switch pending. *)
Lemma close_keeps_fallback (k : nat) (w : World) (tm : Timer) :
  Fresh w -> In tm (timers w) -> callback tm = CbFallback -> In tm (timers (close k w)).
Proof.
  intros HF Hin Hc. unfold close. destruct (handles w !! k) as [hd|] eqn:Hk; [|exact Hin].
  rewrite (proj1 (closeSocket_fields _ _ _)).
  unfold cancelTimer. destruct (reconnectTimer hd) as [t|] eqn:Hr; [|exact Hin].
  destruct (Nat.eqb t 0); [exact Hin|]. simpl. apply In_clear. split; [exact Hin|].
  intros E. apply (fr_fallback w HF tm k hd Hin Hc Hk). congruence.
Qed.

Lemma find_unique (tm : Timer) (l : list Timer) :
  In tm l -> (forall x, In x l -> timerId x = timerId tm -> x = tm) ->
  List.find (fun x => Nat.eqb (timerId x) (timerId tm)) l = Some tm.
Proof.
  induction l as [|y l IH]; intros Hin Hu; [contradiction|]. simpl.
  destruct (Nat.eqb (timerId y) (timerId tm)) eqn:E.
  - apply Nat.eqb_eq in E. f_equal. apply Hu; [now left | exact E].
  - destruct Hin as [->|Hin]; [rewrite Nat.eqb_refl in E; discriminate|].
    apply IH; [exact Hin|]. intros x Hx. apply Hu. now right.
Qed.

(** X5. The cleanup of the effect closes the active handle but never
    cancels a switch to the fallback URL that is already scheduled: the
    timer is still pending afterwards. *)
Theorem cleanup_leaves_switch_pending
  (throws : bool) (evs : list (Q * Event)) (w w' : World) (tm : Timer) (at_ : Q) :
  run evs (start throws) = Some w ->
  In tm (timers w) -> callback tm = CbFallback ->
  step at_ EvCleanup w = Some w' ->
  In tm (timers w') /\ wsConnected (ui w') = false.
Proof.
  intros Hrun Hin Hc Hst.
  pose proof (Fresh_run evs _ w (Fresh_start throws) Hrun) as HF.
  unfold Client.step in Hst.
  destruct (negb (Qle_bool (clock w) at_)); [discriminate|].
  injection Hst as <-. split; [|reflexivity].
  unfold cleanup. simpl.
  destruct (activeHandle w) as [a|]; simpl; [|exact Hin].
  apply close_keeps_fallback; [|exact Hin|exact Hc].
  eapply Fresh_ext; [..|exact HF]; reflexivity.
Qed.

(** X6. A scheduled switch to the fallback URL can always fire once it
    is due, whatever has happened since it was scheduled (the cleanup of
    the effect included): no other timer is due before it, and firing it
    creates the second instance, which attempts the fallback URL. *)
Theorem pending_switch_fires
  (throws throws' : bool) (evs : list (Q * Event)) (w : World) (tm : Timer) (at_ : Q) :
  run evs (start throws) = Some w ->
  In tm (timers w) -> callback tm = CbFallback ->
  (clock w <= at_)%Q -> (due tm <= at_)%Q ->
  exists w', step at_ (EvTimer (timerId tm) throws') w = Some w' /\
             length (handles w) = 1 /\ length (handles w') = 2 /\
             activeHandle w' = Some 1 /\
             In (AttemptConnect 1 fallbackUrl) (trace w') /\
             ~ In (AttemptConnect 1 fallbackUrl) (trace w).
Proof.
  intros Hrun Hin Hc Hclk Hdue.
  pose proof (Fresh_run evs _ w (Fresh_start throws) Hrun) as HF.
  pose proof (Inv_reachable _ _ _ throws evs w Hrun) as HI.
  destruct HI as [HC HP].
  assert (Haf : attemptedFallback w = true).
  { destruct (attemptedFallback w) eqn:E; [reflexivity|].
    exfalso. destruct (ph_A _ _ w HP E) as [_ Hnf]. eapply Hnf; eauto. }
  assert (H1 : length (handles w) = 1).
  { destruct (ph_len _ _ w HP) as [L1 L2].
    destruct (decide (length (handles w) = 2)) as [H2|]; [|lia].
    exfalso. destruct (ph_C _ _ w HP H2) as (_ & Hnf & _). eapply Hnf; eauto. }
  destruct (ph_B _ _ w HP Haf H1) as (_ & [tf Htf] & Hor).
  assert (Hsame : forall x, In x (timers w) -> callback x = CbFallback -> x = tm).
  { intros x Hx Hcx. apply (fr_unique w HF x tm Hx Hin).
    rewrite (Htf x Hx Hcx), (Htf tm Hin Hc). reflexivity. }
  assert (Hfind : findTimer (timerId tm) (set_clock at_ w) = Some tm).
  { unfold findTimer. simpl. apply find_unique; [exact Hin|].
    intros x Hx E. exact (fr_unique w HF x tm Hx Hin E). }
  assert (Hearly : earliest tm (set_clock at_ w) = true).
  { unfold earliest. simpl. apply forallb_forall. intros x Hx. apply Qle_bool_iff.
    destruct (callback x) as [k|] eqn:Hcx.
    - pose proof (core_cb w HC x k Hx Hcx) as Hk. assert (k = 0) by lia. subst k.
      destruct Hor as [(fb & Hfb & Hcfb & Hlt)|[_ Hnp]].
      + rewrite (Hsame fb Hfb Hcfb) in Hlt. apply Qlt_le_weak. exact (Hlt x Hx Hcx).
      + exfalso. eapply Hnp; eauto.
    - rewrite (Hsame x Hx Hcx). apply Qle_refl. }
  assert (Hst : step at_ (EvTimer (timerId tm) throws') w
                = Some (runCallback fallbackUrl (callback tm) throws'
                          (clearTimeout (timerId tm) (set_clock at_ w)))).
  { unfold Client.step. apply Qle_bool_iff in Hclk, Hdue. rewrite Hclk. simpl negb.
    cbv iota. rewrite Hfind, Hdue, Hearly. reflexivity. }
  eexists. split; [exact Hst|].
  destruct (armed_timer_is_fallback _ _ _ at_ (timerId tm) throws' w _
              (conj HC HP) Haf H1 Hst) as (_ & HL & Hact & Hatt).
  split; [exact H1|]. split; [exact HL|]. split; [exact Hact|]. split; [exact Hatt|].
  intros Hold. pose proof (ph_trace _ _ w HP _ Hold) as Hg. simpl in Hg. lia.
Qed.

(** *** Established connections *)

Definition attached (r : ReadyState) : bool :=
  match r with
  | CONNECTING | OPEN => true
  | _ => false
  end.

(** A socket that is connecting or open is the one its instance holds in
    [ws]; that instance is still enabled, and once the socket is open
    its attempt counter is 0. *)
Definition Attached (w : World) : Prop :=
  forall s sk, sockets w !! s = Some sk -> attached (readyState sk) = true ->
    exists hd, handles w !! owner sk = Some hd /\ ws hd = Some s /\
               shouldReconnect hd = true /\
               (readyState sk = OPEN -> reconnectAttempts hd = 0).

(** Instance [k] has no connecting or open socket. *)
Definition Detached (k : nat) (w : World) : Prop :=
  forall s sk, sockets w !! s = Some sk -> owner sk = k -> attached (readyState sk) = false.

Lemma AllClosed_Detached (k : nat) (w : World) : AllClosed k w -> Detached k w.
Proof. intros Hac s sk Hs Ho. rewrite (Hac s sk Hs Ho). reflexivity. Qed.

Lemma Attached_ext (w w' : World) :
  handles w' = handles w -> sockets w' = sockets w -> Attached w -> Attached w'.
Proof. intros Hh Hs HA. unfold Attached. rewrite Hh, Hs. exact HA. Qed.

(** A socket may change state as long as it does not become connecting
    or open. *)
Lemma Attached_sock_alter (f : Socket -> Socket) (s : nat) (w : World) :
  (forall sk, attached (readyState (f sk)) = false) ->
  Attached w -> Attached (set_sockets (alter f s) w).
Proof.
  intros Hf HA s' sk' Hs Ha. simpl in Hs.
  apply lookup_alter_Some in Hs as (x & Hx & [[-> ->]|[_ ->]]).
  - rewrite Hf in Ha. discriminate.
  - exact (HA s' _ Hx Ha).
Qed.

Lemma sockClose_lookup (s s' : nat) (w : World) (sk' : Socket) :
  sockets (sockClose s w) !! s' = Some sk' -> attached (readyState sk') = true ->
  s' <> s /\ sockets w !! s' = Some sk'.
Proof.
  intros Hs Ha. simpl in Hs.
  apply lookup_alter_Some in Hs as (x & Hx & [[-> ->]|[Hne ->]]).
  - destruct (readyState x) eqn:E; simpl in Ha; rewrite ?E in Ha; discriminate.
  - auto.
Qed.

Lemma Attached_sockClose (s : nat) (w : World) : Attached w -> Attached (sockClose s w).
Proof.
  intros HA s' sk' Hs Ha.
  destruct (sockClose_lookup s s' w sk' Hs Ha) as [_ Hs0].
  exact (HA s' sk' Hs0 Ha).
Qed.

Lemma Attached_handle_alter (f : Handle -> Handle) (h : nat) (w : World) :
  (forall hd, ws (f hd) = ws hd /\ shouldReconnect (f hd) = shouldReconnect hd /\
              (reconnectAttempts hd = 0 -> reconnectAttempts (f hd) = 0)) ->
  Attached w -> Attached (updHandle h f w).
Proof.
  intros Hf HA s sk Hs Ha. destruct (HA s sk Hs Ha) as (hd & Hh & Hw & Hsr & Hn).
  simpl. destruct (decide (h = owner sk)) as [->|Hne].
  - exists (f hd). rewrite list_lookup_alter_eq, Hh. destruct (Hf hd) as (-> & -> & H0).
    split; [reflexivity|]. auto.
  - exists hd. rewrite list_lookup_alter_ne by exact Hne. auto.
Qed.

(** An instance without a connecting or open socket may change freely. *)
Lemma Attached_handle_detached (f : Handle -> Handle) (k : nat) (w : World) :
  Detached k w -> Attached w -> Attached (updHandle k f w).
Proof.
  intros Hd HA s sk Hs Ha. destruct (HA s sk Hs Ha) as (hd & Hh & Hrest).
  simpl. exists hd. split; [|exact Hrest].
  rewrite list_lookup_alter_ne; [exact Hh|].
  intros ->. rewrite (Hd s sk Hs eq_refl) in Ha. discriminate.
Qed.

Lemma Attached_scheduleReconnect (k : nat) (w : World) :
  Detached k w -> Attached w -> Attached (scheduleReconnect k w).
Proof.
  intros Hd HA. unfold scheduleReconnect. destruct (handles w !! k) as [hd|]; [|exact HA].
  change (Attached (updHandle k
            (fun x => set_reconnectTimer (Some (nextTimer w))
                        (set_reconnectAttempts (S (reconnectAttempts hd)) x))
            (snd (setTimeout (CbReconnect k)
                    (reconnectDelay (S (reconnectAttempts hd))) w)))).
  apply Attached_handle_detached; [exact Hd|].
  eapply Attached_ext; [..|exact HA]; reflexivity.
Qed.

Lemma Attached_create (k : nat) (throws : bool) (w : World) :
  Detached k w ->
  (forall hd, handles w !! k = Some hd -> shouldReconnect hd = true) ->
  Attached w -> Attached (create k throws w).
Proof.
  intros Hd Hsr HA. unfold create. destruct (handles w !! k) as [hd|] eqn:Hk; [|exact HA].
  destruct throws.
  - apply Attached_scheduleReconnect; [exact Hd|].
    eapply Attached_ext; [..|exact HA]; reflexivity.
  - intros s sk Hs Ha. simpl in Hs. simpl.
    apply lookup_snoc_Some in Hs as [[_ Hs]|[Es <-]]; simpl.
    + destruct (HA s sk Hs Ha) as (x & Hx & Hrest). exists x. split; [|exact Hrest].
      rewrite list_lookup_alter_ne; [exact Hx|].
      intros E. rewrite (Hd s sk Hs (eq_sym E)) in Ha. discriminate.
    + exists (set_ws (Some (length (sockets w))) hd).
      rewrite list_lookup_alter_eq, Hk. simpl.
      split; [reflexivity|]. split; [congruence|]. split; [auto | discriminate].
Qed.

Lemma Attached_close (k : nat) (w : World) : Attached w -> Attached (close k w).
Proof.
  intros HA. unfold close. destruct (handles w !! k) as [hd|] eqn:Hk; [|exact HA].
  intros s sk Hs Ha.
  assert (Hold : sockets w !! s = Some sk /\ (ws hd = Some s -> False)).
  { unfold closeSocket in Hs. destruct (ws hd) as [s0|].
    - assert (Hs1 : sockets (sockClose s0 w) !! s = Some sk).
      { unfold cancelTimer in Hs. destruct (reconnectTimer hd) as [t|];
          [destruct (Nat.eqb t 0)|]; exact Hs. }
      destruct (sockClose_lookup s0 s w sk Hs1 Ha) as [Hne Hs0].
      split; [exact Hs0 | congruence].
    - split; [|discriminate].
      unfold cancelTimer in Hs. destruct (reconnectTimer hd) as [t|];
        [destruct (Nat.eqb t 0)|]; exact Hs. }
  destruct Hold as [Hs0 Hnot].
  destruct (HA s sk Hs0 Ha) as (x & Hx & Hw & Hrest).
  assert (Hne : k <> owner sk).
  { intros ->. rewrite Hk in Hx. injection Hx as <-. auto. }
  exists x. split; [|auto].
  unfold closeSocket. destruct (ws hd) as [s0|]; simpl;
    rewrite ?(proj1 (cancelTimer_fields _ _)); simpl;
    rewrite ?list_lookup_alter_ne by exact Hne; exact Hx.
Qed.

Lemma Attached_connectWebSocket (u : string) (throws : bool) (w : World) :
  Core w -> Attached w -> Attached (snd (connectWebSocket u throws w)).
Proof.
  intros HC HA. unfold connectWebSocket. simpl.
  set (fresh := {| url := u; ws := None; shouldReconnect := true;
                   reconnectAttempts := 0; reconnectTimer := None |}).
  destruct (Core_append fresh w HC) as (_ & _ & Hac).
  apply Attached_create.
  - apply AllClosed_Detached. exact Hac.
  - simpl. intros hd Hlk. rewrite lookup_app_r in Hlk by lia.
    rewrite Nat.sub_diag in Hlk. injection Hlk as <-. reflexivity.
  - intros s sk Hs Ha. destruct (HA s sk Hs Ha) as (x & Hx & Hrest).
    exists x. split; [|exact Hrest]. simpl. apply lookup_app_l_Some. exact Hx.
Qed.

Lemma Attached_fallbackCb (throws : bool) (w : World) :
  Core w -> Attached w -> Attached (fallbackCb fallbackUrl throws w).
Proof.
  intros HC HA. unfold fallbackCb, createHandler.
  set (w1 := match activeHandle w with Some a => close a w | None => w end).
  assert (C1 : Core w1).
  { unfold w1. destruct (activeHandle w); [now apply Core_close | exact HC]. }
  assert (A1 : Attached w1).
  { unfold w1. destruct (activeHandle w); [now apply Attached_close | exact HA]. }
  pose proof (Attached_connectWebSocket fallbackUrl throws w1 C1 A1) as A2.
  destruct (connectWebSocket fallbackUrl throws w1) as [h' w2]. simpl in A2.
  eapply Attached_ext; [..|exact A2]; reflexivity.
Qed.

Lemma Attached_step (at_ : Q) (e : Event) (w w' : World) :
  Core w -> Attached w -> step at_ e w = Some w' -> Attached w'.
Proof.
  intros HC HA Hst. unfold Client.step in Hst.
  destruct (negb (Qle_bool (clock w) at_)); [discriminate|].
  assert (HC0 : Core (set_clock at_ w)) by (eapply Core_ext; [..|exact HC]; reflexivity).
  assert (HA0 : Attached (set_clock at_ w)) by exact HA.
  set (w0 := set_clock at_ w) in *. clearbody w0. clear HC HA.
  destruct e as [s|s parsed iso|s|s|t throws|].
  - destruct (sockets w0 !! s) as [sk|] eqn:Hs; [|discriminate].
    destruct (readyState sk) eqn:Hr; try discriminate.
    injection Hst as <-. unfold onopen, onOpenCb.
    intros s' sk' Hs' Ha. simpl in Hs'. simpl.
    apply lookup_alter_Some in Hs' as (x & Hx & Hcase).
    assert (Hax : attached (readyState x) = true).
    { destruct Hcase as [[-> ->]|[_ ->]]; [|exact Ha].
      rewrite Hs in Hx. injection Hx as <-. rewrite Hr. reflexivity. }
    destruct (HA0 s' x Hx Hax) as (hd & Hh & Hw & Hsr & Hn).
    assert (Ho : owner sk' = owner x) by (destruct Hcase as [[_ ->]|[_ ->]]; reflexivity).
    rewrite Ho.
    destruct (decide (owner sk = owner x)) as [E|Hne].
    + exists (set_reconnectAttempts 0 hd). rewrite E, list_lookup_alter_eq, Hh. simpl. auto.
    + exists hd. rewrite list_lookup_alter_ne by exact Hne.
      split; [exact Hh|]. split; [exact Hw|]. split; [exact Hsr|].
      destruct Hcase as [[-> _]|[_ ->]]; [|exact Hn].
      rewrite Hs in Hx. injection Hx as <-. congruence.
  - destruct (sockets w0 !! s) as [sk|] eqn:Hs; [|discriminate].
    destruct (readyState sk) eqn:Hr; try discriminate.
    injection Hst as <-. unfold onmessage.
    destruct parsed; [|exact HA0]. eapply Attached_ext; [..|exact HA0]; reflexivity.
  - destruct (sockets w0 !! s) as [sk|] eqn:Hs; [|discriminate].
    destruct (isClosed (readyState sk)); [discriminate|].
    injection Hst as <-. unfold onerror.
    destruct (handles w0 !! owner sk) as [hd|]; [|exact HA0].
    destruct (ws hd); [now apply Attached_sockClose | exact HA0].
  - destruct (sockets w0 !! s) as [sk|] eqn:Hs; [|discriminate].
    destruct (isClosed (readyState sk)) eqn:Hcl; [discriminate|].
    injection Hst as <-.
    assert (Hlive : readyState sk <> CLOSED) by (intros E; rewrite E in Hcl; discriminate).
    destruct (live_socket_alone w0 s sk HC0 Hs Hlive) as [_ Hac].
    assert (A1 : Attached (set_sockets (alter (set_readyState CLOSED) s) w0)).
    { apply Attached_sock_alter; [reflexivity | exact HA0]. }
    set (w1 := set_sockets (alter (set_readyState CLOSED) s) w0) in *. clearbody w1.
    unfold onclose. destruct (handles w1 !! owner sk) as [hd|] eqn:Hk; [|exact A1].
    destruct (onCloseCb_fields primaryUrl (url hd) w1) as (Eh & Es & _).
    assert (A2 : Attached (onCloseCb primaryUrl (url hd) w1))
      by (eapply Attached_ext; [exact Eh | exact Es | exact A1]).
    rewrite Eh, Hk. destruct (shouldReconnect hd); [|exact A2].
    apply Attached_scheduleReconnect; [|exact A2].
    apply AllClosed_Detached. unfold AllClosed. rewrite Es. exact Hac.
  - destruct (findTimer t w0) as [tm|] eqn:Hf; [|discriminate].
    destruct (Qle_bool (due tm) at_ && earliest tm w0); [|discriminate].
    injection Hst as <-. apply findTimer_In in Hf as [Hin Hid].
    assert (A1 : Attached (clearTimeout t w0))
      by (eapply Attached_ext; [..|exact HA0]; reflexivity).
    destruct (callback tm) as [k|] eqn:Hc; simpl.
    + apply Attached_create; [| |exact A1].
      * apply AllClosed_Detached. exact (core_pending_closed w0 HC0 tm k Hin Hc).
      * intros hd Hh. exact (proj2 (core_link w0 HC0 tm k hd Hin Hc Hh)).
    + apply Attached_fallbackCb; [now apply Core_clearTimeout | exact A1].
  - injection Hst as <-. unfold cleanup.
    assert (A1 : Attached (match activeHandle w0 with Some a => close a w0 | None => w0 end)).
    { destruct (activeHandle w0); [now apply Attached_close | exact HA0]. }
    eapply Attached_ext; [..|exact A1]; reflexivity.
Qed.

Lemma Attached_run (evs : list (Q * Event)) (w w' : World) :
  Inv w -> Attached w -> run evs w = Some w' -> Attached w'.
Proof.
  revert w. induction evs as [|[at_ e] evs IH]; intros w HInv HA Hrun; simpl in Hrun.
  - injection Hrun as <-. exact HA.
  - destruct (step at_ e w) as [w1|] eqn:Hst; [|discriminate].
    apply (IH w1); [| |exact Hrun].
    + exact (Inv_step _ _ _ at_ e w w1 HInv Hst).
    + exact (Attached_step at_ e w w1 (proj1 HInv) HA Hst).
Qed.

Lemma Attached_start (throws : bool) : Attached (start throws).
Proof.
  unfold Client.start, createHandler, connectWebSocket.
  destruct throws; intros s sk Hs Ha; simpl in Hs.
  - rewrite lookup_nil in Hs. discriminate.
  - destruct s as [|s]; simpl in Hs; [|rewrite lookup_nil in Hs; discriminate].
    injection Hs as <-. simpl. eexists. split; [reflexivity|]. simpl.
    split; [reflexivity|]. split; [reflexivity | discriminate].
Qed.

(** X7. The backoff restarts with every successful open: in whatever way
    the page got there, when a socket that is open fires [close], a
    reconnect of its instance is scheduled 1500 ms ahead and the attempt
    counter becomes 1. *)
Theorem lost_connection_retries_after_1500ms
  (throws : bool) (evs : list (Q * Event)) (w : World) (s : nat) (sk : Socket) (at_ : Q) :
  run evs (start throws) = Some w ->
  sockets w !! s = Some sk -> readyState sk = OPEN -> (clock w <= at_)%Q ->
  exists w' hd' tm,
    step at_ (EvClose s) w = Some w' /\
    handles w' !! owner sk = Some hd' /\
    reconnectAttempts hd' = 1 /\ reconnectTimer hd' = Some (timerId tm) /\
    In tm (timers w') /\ callback tm = CbReconnect (owner sk) /\
    (delay tm == 1500)%Q /\ (due tm == at_ + 1500)%Q /\
    exists rest, trace w' = Scheduled (CbReconnect (owner sk)) (delay tm) :: rest.
Proof.
  intros Hrun Hs Hopen Hclk.
  pose proof (Inv_reachable _ _ _ throws evs w Hrun) as HI.
  pose proof (Attached_run evs _ w (Inv_start _ _ throws) (Attached_start throws) Hrun) as HA.
  destruct (HA s sk Hs ltac:(rewrite Hopen; reflexivity)) as (hd & Hk & _ & Hsr & Hn).
  specialize (Hn Hopen).
  set (w1 := set_sockets (alter (set_readyState CLOSED) s) (set_clock at_ w)).
  set (w2 := onCloseCb primaryUrl (url hd) w1).
  destruct (onCloseCb_fields primaryUrl (url hd) w1) as (Eh & _ & _ & Ec).
  assert (Hk2 : handles w2 !! owner sk = Some hd) by (unfold w2; rewrite Eh; exact Hk).
  destruct (scheduleReconnect_fields (owner sk) w2 hd Hk2) as (Et & Etr & _ & _ & _ & Eh2).
  rewrite Hn in Et, Etr, Eh2.
  exists (scheduleReconnect (owner sk) w2),
         (set_reconnectTimer (Some (nextTimer w2)) (set_reconnectAttempts 1 hd)),
         {| timerId := nextTimer w2; due := (clock w2 + reconnectDelay 1)%Q;
            delay := reconnectDelay 1; callback := CbReconnect (owner sk) |}.
  split; [|split; [exact Eh2|]].
  - unfold Client.step. apply Qle_bool_iff in Hclk. rewrite Hclk. simpl.
    rewrite Hs, Hopen. simpl.
    unfold onclose; simpl handles; rewrite Hk;
      fold w1; fold w2; rewrite Hk2, Hsr; reflexivity.
  - simpl. split; [reflexivity|]. split; [reflexivity|].
    split; [rewrite Et; left; reflexivity|]. split; [reflexivity|].
    split; [reflexivity|]. split.
    + unfold w2. rewrite Ec. simpl. apply Qplus_inj_l. reflexivity.
    + rewrite Etr. eauto.
Qed.

End Reachable.

Lemma one_live_socket_witness :
  sockets sampleEngaged !! 1
  = Some {| owner := 1; sockUrl := sampleFallback; readyState := CONNECTING |} /\
  1 = 1.
Proof.
  split; [reflexivity|].
  apply (one_live_socket samplePrimary sampleFallback samplePackage false
           [(10%Q, EvOpen 0); (20%Q, EvClose 0); (270%Q, EvTimer 1 false)]
           sampleEngaged 1 1
           {| owner := 1; sockUrl := sampleFallback; readyState := CONNECTING |}
           {| owner := 1; sockUrl := sampleFallback; readyState := CONNECTING |});
    [reflexivity | reflexivity | reflexivity | discriminate | discriminate].
Defined.


Lemma scheduled_delays_bounded_witness :
  (1500 <= reconnectDelay 1 /\ reconnectDelay 1 <= 30000)%Q.
Proof.
  apply (scheduled_delays_bounded samplePrimary sampleFallback samplePackage
           false [(10%Q, EvOpen 0); (20%Q, EvClose 0)] sampleWaiting
           (CbReconnect 0) (reconnectDelay 1));
    [reflexivity | left; reflexivity].
Defined.

(** *** The component state along the event loop *)

Section ComponentState.

Variables primaryUrl fallbackUrl selectedPackageId : string.

(** What one turn of the event loop writes to the component state: the
    three callbacks handed to [connectWebSocket] and the cleanup are the
    only writers. *)
Definition shownAfter (e : Event) (u : UiState) : UiState :=
  match e with
  | EvOpen _ => setWsConnected true u
  | EvMessage _ (Some msg) iso => onMessage selectedPackageId iso msg u
  | EvClose _ | EvCleanup => setWsConnected false u
  | _ => u
  end.

Lemma onclose_ui (k : nat) (w : World) (hd : Handle) :
  handles w !! k = Some hd ->
  ui (onclose primaryUrl k w) = setWsConnected false (ui w).
Proof.
  intros Hk. unfold onclose. rewrite Hk.
  assert (U : forall u, ui (onCloseCb primaryUrl u w) = setWsConnected false (ui w)).
  { intros u. unfold onCloseCb. simpl.
    destruct (negb (attemptedFallback w) && String.eqb u primaryUrl); reflexivity. }
  destruct (handles (onCloseCb primaryUrl (url hd) w) !! k) as [hd1|]; [|apply U].
  destruct (shouldReconnect hd1); [|apply U].
  rewrite (proj1 (SocketsStay_scheduleReconnect k _)). apply U.
Qed.

Lemma step_ui (at_ : Q) (e : Event) (w w' : World) :
  Core w -> step primaryUrl fallbackUrl selectedPackageId at_ e w = Some w' ->
  ui w' = shownAfter e (ui w).
Proof.
  intros HC Hst. unfold step in Hst.
  destruct (negb (Qle_bool (clock w) at_)); [discriminate|].
  assert (HC0 : Core (set_clock at_ w)) by (eapply Core_ext; [..|exact HC]; reflexivity).
  change (ui w) with (ui (set_clock at_ w)).
  set (w0 := set_clock at_ w) in *. clearbody w0. clear HC.
  destruct e as [s|s parsed iso|s|s|t throws|].
  - destruct (sockets w0 !! s) as [sk|] eqn:Hs; [|discriminate].
    destruct (readyState sk) eqn:Hr; try discriminate.
    injection Hst as <-. reflexivity.
  - destruct (sockets w0 !! s) as [sk|] eqn:Hs; [|discriminate].
    destruct (readyState sk) eqn:Hr; try discriminate.
    injection Hst as <-. destruct parsed; reflexivity.
  - destruct (sockets w0 !! s) as [sk|] eqn:Hs; [|discriminate].
    destruct (isClosed (readyState sk)); [discriminate|].
    injection Hst as <-. unfold onerror.
    destruct (handles w0 !! owner sk) as [hd|]; [|reflexivity].
    destruct (ws hd); reflexivity.
  - destruct (sockets w0 !! s) as [sk|] eqn:Hs; [|discriminate].
    destruct (isClosed (readyState sk)); [discriminate|].
    injection Hst as <-.
    pose proof (core_owner w0 HC0 s sk Hs) as Hlt.
    apply lookup_lt_is_Some_2 in Hlt as [hd Hh].
    rewrite (onclose_ui (owner sk) _ hd); [reflexivity | exact Hh].
  - destruct (findTimer t w0) as [tm|] eqn:Hf; [|discriminate].
    destruct (Qle_bool (due tm) at_ && earliest tm w0); [|discriminate].
    injection Hst as <-.
    destruct (callback tm); unfold runCallback.
    + rewrite (proj1 (SocketsStay_create _ _ _)). reflexivity.
    + rewrite (proj1 (SocketsStay_fallbackCb fallbackUrl _ _)). reflexivity.
  - injection Hst as <-. unfold cleanup. simpl.
    destruct (activeHandle w0); [|reflexivity].
    rewrite (proj1 (SocketsStay_close _ _)). reflexivity.
Qed.

Lemma run_ui (evs : list (Q * Event)) (w w' : World) :
  Core w -> run primaryUrl fallbackUrl selectedPackageId evs w = Some w' ->
  ui w' = foldl (fun u ev => shownAfter (snd ev) u) (ui w) evs.
Proof.
  revert w. induction evs as [|[at_ e] evs IH]; intros w HC Hrun; simpl in Hrun.
  - injection Hrun as <-. reflexivity.
  - destruct (step primaryUrl fallbackUrl selectedPackageId at_ e w) as [w1|] eqn:Hst;
      [|discriminate].
    rewrite (IH w1 (Core_step _ _ _ at_ e w w1 HC Hst) Hrun). simpl.
    rewrite (step_ui at_ e w w1 HC Hst). reflexivity.
Qed.

End ComponentState.

(** The dashboard has been unmounted while the switch was pending. *)
Definition sampleCleaned : World :=
  Eval vm_compute in
    default emptyWorld (sampleRun [(10%Q, EvOpen 0); (20%Q, EvClose 0); (30%Q, EvCleanup)]).

Definition sampleSwitch : Timer :=
  {| timerId := 1; due := 270; delay := 250; callback := CbFallback |}.

(** C5 does not hold of the code.  The primary socket has closed, so a
    reconnect timer is pending, and the client is then closed
    explicitly: the effect's cleanup calls [close()] on the active
    handle.  That cancels the reconnect timer and disables the instance,
    but the switch to the fallback URL that the same [close] event
    scheduled is neither cancelled nor guarded by a cancelled flag.  It
    fires, a second instance connects to the fallback URL, and when that
    transport closes a reconnect is scheduled and, once due, attempted. *)
Theorem explicit_close_does_not_stop_reconnecting :
  (exists tm, In tm (timers sampleWaiting) /\ callback tm = CbReconnect 0) /\
  step samplePrimary sampleFallback samplePackage 30%Q EvCleanup sampleWaiting
  = Some sampleCleaned /\
  timers sampleCleaned = [sampleSwitch] /\
  (forall h hd, handles sampleCleaned !! h = Some hd -> shouldReconnect hd = false) /\
  exists w',
    run samplePrimary sampleFallback samplePackage
      [(270%Q, EvTimer 1 false); (280%Q, EvClose 1); (1780%Q, EvTimer 3 false)]
      sampleCleaned = Some w' /\
    trace w'
    = [AttemptConnect 1 sampleFallback;
       Scheduled (CbReconnect 1) (reconnectDelay 1);
       AttemptConnect 1 sampleFallback] ++ trace sampleCleaned.
Proof.
  split; [eexists; split; [left; reflexivity | reflexivity]|].
  split; [reflexivity|]. split; [reflexivity|]. split.
  - intros [|h] hd Hlk; simpl in Hlk.
    + injection Hlk as <-. reflexivity.
    + rewrite lookup_nil in Hlk. discriminate.
  - eexists. split; [vm_compute; reflexivity|]. vm_compute. reflexivity.
Qed.

(** The same defect without any reconnect pending: the cleanup closes an
    open primary connection, the [close] event that follows schedules
    the switch, and the switch connects to the fallback URL. *)
Example explicit_close_of_open_connection_arms_switch :
  option_map (fun w => (length (handles w), hd_error (trace w)))
    (sampleRun [(10%Q, EvOpen 0); (30%Q, EvCleanup); (40%Q, EvClose 0);
                (290%Q, EvTimer 1 false)])
  = Some (2, Some (AttemptConnect 1 sampleFallback)).
Proof. reflexivity. Qed.

Lemma indicator_on_only_while_established_witness :
  exists s sk, sockets sampleOpened !! s = Some sk /\
               (readyState sk = OPEN \/ readyState sk = CLOSING).
Proof.
  apply (indicator_on_only_while_established samplePrimary sampleFallback samplePackage
           false [(10%Q, EvOpen 0)] sampleOpened); reflexivity.
Defined.

Lemma cleanup_leaves_switch_pending_witness :
  In sampleSwitch (timers sampleCleaned) /\ wsConnected (ui sampleCleaned) = false.
Proof.
  apply (cleanup_leaves_switch_pending samplePrimary sampleFallback samplePackage
           false [(10%Q, EvOpen 0); (20%Q, EvClose 0)] sampleWaiting sampleCleaned
           sampleSwitch 30%Q);
    [reflexivity | right; left; reflexivity | reflexivity | reflexivity].
Defined.

Lemma pending_switch_fires_witness :
  exists w', step samplePrimary sampleFallback samplePackage 270%Q
               (EvTimer (timerId sampleSwitch) false) sampleCleaned = Some w' /\
             length (handles sampleCleaned) = 1 /\ length (handles w') = 2 /\
             activeHandle w' = Some 1 /\
             In (AttemptConnect 1 sampleFallback) (trace w') /\
             ~ In (AttemptConnect 1 sampleFallback) (trace sampleCleaned).
Proof.
  apply (pending_switch_fires samplePrimary sampleFallback samplePackage false false
           [(10%Q, EvOpen 0); (20%Q, EvClose 0); (30%Q, EvCleanup)] sampleCleaned
           sampleSwitch 270%Q);
    [reflexivity | left; reflexivity | reflexivity
    | vm_compute; discriminate | vm_compute; discriminate].
Defined.

Lemma lost_connection_retries_after_1500ms_witness :
  exists w' hd' tm,
    step samplePrimary sampleFallback samplePackage 20%Q (EvClose 0) sampleOpened = Some w' /\
    handles w' !! 0 = Some hd' /\
    reconnectAttempts hd' = 1 /\ reconnectTimer hd' = Some (timerId tm) /\
    In tm (timers w') /\ callback tm = CbReconnect 0 /\
    (delay tm == 1500)%Q /\ (due tm == 20 + 1500)%Q /\
    exists rest, trace w' = Scheduled (CbReconnect 0) (delay tm) :: rest.
Proof.
  apply (lost_connection_retries_after_1500ms samplePrimary sampleFallback samplePackage
           false [(10%Q, EvOpen 0)] sampleOpened 0
           {| owner := 0; sockUrl := samplePrimary; readyState := OPEN |} 20%Q);
    [reflexivity | reflexivity | reflexivity | vm_compute; discriminate].
Defined.

End Client.

(* ===================================================================== *)
(** ** Backend (SensorController.java, SensorWebSocketHandler.java)      *)
(* ===================================================================== *)

Module Server.

Local Open Scope nat_scope.

(** *** SensorData.java *)

(** The [double] fields are carried around, never computed with; a
    [LocalDateTime] is kept as its text.  Object references may be
    [null] ([None]). *)
Record DhtData : Type := {
  temperature : Q;
  humidity : Q;
  dhtTimestamp : option string
}.

Record GpsData : Type := {
  longitude : Q;
  latitude : Q;
  satellites : Z;
  gpsTimestamp : option string
}.

Record SensorData : Type := {
  dhtData : option DhtData;
  gpsData : option GpsData
}.

(** Modelled from the spec: the Latest-Value Cache kept by [MqttService]
    (the class is not among the sources): a single cell holding the most
    recent reading, empty at process start, replaced wholesale on each
    ingestion; [getLatestData().get()] yields [null] while it is empty. *)
Definition LatestValueCache : Type := option SensorData.

Definition emptyCache : LatestValueCache := None.

Definition get (c : LatestValueCache) : option SensorData := c.

(** *** SensorController.java *)

Inductive Exception : Type :=
| NullPointerException
| IOException.

(** How a call ends: it returns, or an exception escapes it. *)
Inductive Outcome (A : Type) : Type :=
| Returned (r : A)
| Thrown (e : Exception).

Arguments Returned {A} r.
Arguments Thrown {A} e.

(** [ResponseEntity.ok(body)]: status 200 with the body, which is empty
    for a [null] body. *)
Inductive ResponseEntity (A : Type) : Type :=
| ok (body : option A).

Arguments ok {A} body.

(** [GET /api/sensor/latest] *)
Definition getLatestSensorData (cache : LatestValueCache) : Outcome (ResponseEntity SensorData) :=
  let data := get cache in
  Returned (ok data).

(** [GET /api/sensor/dht]: the getter [data.getDhtData()] is invoked on
    the cached reference, which throws when that reference is [null]. *)
Definition getDhtData (cache : LatestValueCache) : Outcome (ResponseEntity DhtData) :=
  match get cache with
  | None => Thrown NullPointerException
  | Some data => Returned (ok (dhtData data))
  end.

(** [GET /api/sensor/gps]: likewise with [data.getGpsData()]. *)
Definition getGpsData (cache : LatestValueCache) : Outcome (ResponseEntity GpsData) :=
  match get cache with
  | None => Thrown NullPointerException
  | Some data => Returned (ok (gpsData data))
  end.

(** *** SensorWebSocketHandler.java *)

(** A [WebSocketSession] object: whether it is open, whether the
    transport will refuse the next [sendMessage] (it throws then, as it
    does on a session that is not open), and the text frames delivered
    to its client so far. *)
Record Session : Type := {
  isOpen : bool;
  sendFails : bool;
  received : list string
}.

Inductive Level : Type := INFO | DEBUG | WARN | ERROR.

Inductive Message : Type :=
| SessionEstablished (sid : nat)
| InitialSent (sid : nat) (bytes : nat)
| InitialFailed (sid : nat)
| InitialUnavailable (sid : nat)
| SessionClosed (sid : nat)
| Broadcasting (count bytes : nat) (payload : string)
| Sending (sid : nat)
| Skipping (sid : nat)
| SendFailed (sid : nat)
| SerializeFailed.

(** The handler's [sessions] set (a [CopyOnWriteArraySet]: insertion
    order, each reference once), the session objects it refers to, and
    the log (oldest first). *)
Record Handler : Type := {
  sessions : list nat;
  heap : gmap nat Session;
  log : list (Level * Message)
}.

Definition logged (l : Level) (m : Message) (st : Handler) : Handler :=
  {| sessions := sessions st; heap := heap st; log := log st ++ [(l, m)] |}.

Definition deliver (sid : nat) (payload : string) (c : Session) (st : Handler) : Handler :=
  {| sessions := sessions st;
     heap := <[sid := {| isOpen := isOpen c; sendFails := sendFails c;
                          received := received c ++ [payload] |}]> (heap st);
     log := log st |}.

(** [session.sendMessage(new TextMessage(payload))] *)
Definition sendMessage (sid : nat) (payload : string) (st : Handler) : Outcome Handler :=
  match heap st !! sid with
  | Some c =>
      if isOpen c && negb (sendFails c)
      then Returned (deliver sid payload c st)
      else Thrown IOException
  | None => Thrown NullPointerException
  end.

(** [sessions.add(session)] *)
Definition add (sid : nat) (l : list nat) : list nat :=
  if bool_decide (sid ∈ l) then l else l ++ [sid].

(** [sessions.remove(session)] *)
Definition remove (sid : nat) (l : list nat) : list nat :=
  List.filter (fun x => negb (Nat.eqb x sid)) l.

(** What [ApplicationContextProvider.getBean(MqttService.class)] gives:
    it throws, returns [null], or returns the service with its cache. *)
Inductive BeanLookup : Type :=
| BeanThrows
| BeanNull
| BeanFound (cache : LatestValueCache).

Section Handler.

(** [objectMapper.writeValueAsString]: [None] when it throws. *)
Variable writeValueAsString : SensorData -> option string.

Definition afterConnectionEstablished (sid : nat) (bean : BeanLookup) (st : Handler) : Handler :=
  let st1 :=
    logged INFO (SessionEstablished sid)
      {| sessions := add sid (sessions st); heap := heap st; log := log st |} in
  match bean with
  | BeanThrows => logged DEBUG (InitialUnavailable sid) st1
  | BeanNull => st1
  | BeanFound cache =>
      match get cache with
      | None => st1
      | Some latest =>
          match writeValueAsString latest with
          | None => logged WARN (InitialFailed sid) st1
          | Some payload =>
              match sendMessage sid payload st1 with
              | Returned st2 => logged INFO (InitialSent sid (String.length payload)) st2
              | Thrown _ => logged WARN (InitialFailed sid) st1
              end
          end
      end
  end.

Definition afterConnectionClosed (sid : nat) (st : Handler) : Handler :=
  logged INFO (SessionClosed sid)
    {| sessions := remove sid (sessions st); heap := heap st; log := log st |}.

(** The body of the [forEach] lambda for one session.  (A reference
    without an object behind it cannot occur; the model treats it like
    any exception raised inside the [try].) *)
Definition sendTo (payload : string) (st : Handler) (sid : nat) : Handler :=
  match heap st !! sid with
  | Some c =>
      if isOpen c
      then
        let st1 := logged DEBUG (Sending sid) st in
        match sendMessage sid payload st1 with
        | Returned st2 => st2
        | Thrown _ => logged WARN (SendFailed sid) st1
        end
      else logged DEBUG (Skipping sid) st
  | None => logged WARN (SendFailed sid) st
  end.

Definition broadcastSensorData (data : SensorData) (st : Handler) : Handler :=
  match writeValueAsString data with
  | None => logged ERROR SerializeFailed st
  | Some payload =>
      let st1 :=
        logged INFO (Broadcasting (length (sessions st)) (String.length payload) payload) st in
      foldl (sendTo payload) st1 (sessions st)
  end.


(** *** Properties of the fan-out *)

(** The session object after one delivery attempt. *)
Definition afterSend (payload : string) (c : Session) : Session :=
  if isOpen c && negb (sendFails c)
  then {| isOpen := isOpen c; sendFails := sendFails c; received := received c ++ [payload] |}
  else c.

(** The log lines one session contributes to a broadcast. *)
Definition linesFor (h : gmap nat Session) (sid : nat) : list (Level * Message) :=
  match h !! sid with
  | Some c =>
      if isOpen c
      then (DEBUG, Sending sid) :: (if sendFails c then [(WARN, SendFailed sid)] else [])
      else [(DEBUG, Skipping sid)]
  | None => [(WARN, SendFailed sid)]
  end.

Lemma sendTo_spec (payload : string) (st : Handler) (sid : nat) :
  sessions (sendTo payload st sid) = sessions st /\
  log (sendTo payload st sid) = log st ++ linesFor (heap st) sid /\
  (forall s, s <> sid -> heap (sendTo payload st sid) !! s = heap st !! s) /\
  (forall c, heap st !! sid = Some c ->
             heap (sendTo payload st sid) !! sid = Some (afterSend payload c)).
Proof.
  unfold sendTo, linesFor, sendMessage, afterSend. simpl.
  destruct (heap st !! sid) as [c|] eqn:Hc; simpl.
  - destruct (isOpen c) eqn:Ho; simpl.
    + destruct (sendFails c) eqn:Hf; simpl.
      * split; [reflexivity|]. split; [now rewrite <- app_assoc|].
        split; [reflexivity|]. intros c' [= <-]. rewrite Ho, Hf. exact Hc.
      * split; [reflexivity|]. split; [reflexivity|]. split.
        -- intros s Hne. rewrite lookup_insert_ne by congruence. reflexivity.
        -- intros c' [= <-]. rewrite lookup_insert_eq, Ho, Hf. reflexivity.
    + split; [reflexivity|]. split; [reflexivity|].
      split; [reflexivity|]. intros c' [= <-]. rewrite Ho. exact Hc.
  - split; [reflexivity|]. split; [reflexivity|].
    split; [reflexivity|]. intros c' [=].
Qed.

Lemma linesFor_ext (h h' : gmap nat Session) (sid : nat) :
  h' !! sid = h !! sid -> linesFor h' sid = linesFor h sid.
Proof. intros E. unfold linesFor. rewrite E. reflexivity. Qed.

(** Each registered session is handled once, on its own state, whatever
    happens with the others. *)
Lemma fanout_spec (payload : string) (l : list nat) (st : Handler) :
  NoDup l ->
  let st' := foldl (sendTo payload) st l in
  sessions st' = sessions st /\
  log st' = log st ++ concat (map (linesFor (heap st)) l) /\
  (forall s, s ∉ l -> heap st' !! s = heap st !! s) /\
  (forall s c, s ∈ l -> heap st !! s = Some c -> heap st' !! s = Some (afterSend payload c)).
Proof.
  revert st. induction l as [|sid l IH]; intros st Hnd; simpl.
  - repeat split; auto.
    + rewrite app_nil_r. reflexivity.
    + intros s c Hin. inversion Hin.
  - apply NoDup_cons in Hnd as [Hnotin Hnd].
    destruct (sendTo_spec payload st sid) as (Es & El & Ho & Hs).
    destruct (IH (sendTo payload st sid) Hnd) as (Es' & El' & Ho' & Hs').
    split; [congruence|]. split; [|split].
    + rewrite El', El, <- app_assoc. f_equal. f_equal. f_equal.
      apply map_ext_in. intros s Hin. apply linesFor_ext. apply Ho.
      intros ->. apply Hnotin. now apply list_elem_of_In.
    + intros s Hn. apply not_elem_of_cons in Hn as [Hne Hn].
      rewrite (Ho' s Hn). now apply Ho.
    + intros s c Hin Hc. apply elem_of_cons in Hin as [->|Hin].
      * rewrite (Ho' sid Hnotin). now apply Hs.
      * apply Hs'; [exact Hin|]. rewrite Ho; [exact Hc|].
        intros ->. contradiction.
Qed.

Lemma add_elem (sid : nat) (l : list nat) : sid ∈ add sid l.
Proof.
  unfold add. case_bool_decide as H; [exact H|].
  apply elem_of_app. right. apply list_elem_of_singleton. reflexivity.
Qed.

Lemma add_NoDup (sid : nat) (l : list nat) : NoDup l -> NoDup (add sid l).
Proof.
  intros Hnd. unfold add. case_bool_decide as H; [exact Hnd|].
  apply NoDup_app. split; [exact Hnd|]. split.
  - intros x Hx Hx'. apply list_elem_of_singleton in Hx'. subst x. contradiction.
  - apply NoDup_singleton.
Qed.

Lemma add_idempotent (sid : nat) (l : list nat) : add sid (add sid l) = add sid l.
Proof.
  unfold add at 1. rewrite bool_decide_eq_true_2; [reflexivity | apply add_elem].
Qed.


Lemma lines_Sending (h : gmap nat Session) (l : list nat) (s : nat) :
  (DEBUG, Sending s) ∈ concat (map (linesFor h) l) <->
  s ∈ l /\ exists c, h !! s = Some c /\ isOpen c = true.
Proof.
  rewrite !list_elem_of_In, in_concat. split.
  - intros (x & Hx & Hin). apply in_map_iff in Hx as (s' & <- & Hs').
    unfold linesFor in Hin. destruct (h !! s') as [c|] eqn:Hc.
    + destruct (isOpen c) eqn:Ho.
      * destruct Hin as [E|Hin].
        -- injection E as <-. eauto.
        -- destruct (sendFails c); simpl in Hin; [destruct Hin as [E|[]]; discriminate | destruct Hin].
      * destruct Hin as [E|[]]. discriminate.
    + destruct Hin as [E|[]]. discriminate.
  - intros (Hin & c & Hc & Ho). exists (linesFor h s). split.
    + apply in_map_iff. eauto.
    + unfold linesFor. rewrite Hc, Ho. left. reflexivity.
Qed.

Lemma lines_Skipping (h : gmap nat Session) (l : list nat) (s : nat) (c : Session) :
  s ∈ l -> h !! s = Some c -> isOpen c = false ->
  (DEBUG, Skipping s) ∈ concat (map (linesFor h) l).
Proof.
  intros Hin Hc Ho. rewrite list_elem_of_In, in_concat. exists (linesFor h s). split.
  - apply in_map_iff. exists s. split; [reflexivity|]. now apply list_elem_of_In.
  - unfold linesFor. rewrite Hc, Ho. left. reflexivity.
Qed.

Lemma lines_SendFailed (h : gmap nat Session) (l : list nat) (s : nat) (c : Session) :
  s ∈ l -> h !! s = Some c -> isOpen c = true -> sendFails c = true ->
  (WARN, SendFailed s) ∈ concat (map (linesFor h) l).
Proof.
  intros Hin Hc Ho Hf. rewrite list_elem_of_In, in_concat. exists (linesFor h s). split.
  - apply in_map_iff. exists s. split; [reflexivity|]. now apply list_elem_of_In.
  - unfold linesFor. rewrite Hc, Ho, Hf. right. left. reflexivity.
Qed.

Lemma broadcast_spec (data : SensorData) (payload : string) (st : Handler) :
  writeValueAsString data = Some payload -> NoDup (sessions st) ->
  let st' := broadcastSensorData data st in
  sessions st' = sessions st /\
  log st' = log st
            ++ (INFO, Broadcasting (length (sessions st)) (String.length payload) payload)
               :: concat (map (linesFor (heap st)) (sessions st)) /\
  (forall s, s ∉ sessions st -> heap st' !! s = heap st !! s) /\
  (forall s c, s ∈ sessions st -> heap st !! s = Some c ->
               heap st' !! s = Some (afterSend payload c)).
Proof.
  intros Hw Hnd. unfold broadcastSensorData. rewrite Hw.
  set (st1 := logged INFO _ st).
  destruct (fanout_spec payload (sessions st) st1 Hnd) as (Es & El & Ho & Hs).
  split; [exact Es|]. split; [|split; [exact Ho | exact Hs]].
  rewrite El. simpl. rewrite <- app_assoc. reflexivity.
Qed.

(** C3. In a broadcast, a registered open session whose send throws gets
    a warning logged and stays registered (and receives nothing); every
    registered open session whose own send goes through receives the
    one serialized payload, appended to what it had received; the
    registry is left as it was. *)
Theorem broadcast_isolates_failures
  (data : SensorData) (payload : string) (st : Handler) (bad : nat) (cb : Session) :
  writeValueAsString data = Some payload -> NoDup (sessions st) ->
  bad ∈ sessions st -> heap st !! bad = Some cb ->
  isOpen cb = true -> sendFails cb = true ->
  let st' := broadcastSensorData data st in
  sessions st' = sessions st /\ bad ∈ sessions st' /\
  (WARN, SendFailed bad) ∈ log st' /\
  heap st' !! bad = Some cb /\
  forall s c, s ∈ sessions st -> heap st !! s = Some c ->
              isOpen c = true -> sendFails c = false ->
              heap st' !! s = Some {| isOpen := true; sendFails := false;
                                      received := received c ++ [payload] |}.
Proof.
  intros Hw Hnd Hbad Hcb Hob Hfb.
  destruct (broadcast_spec data payload st Hw Hnd) as (Es & El & _ & Hs).
  simpl. split; [exact Es|]. split; [rewrite Es; exact Hbad|]. split; [|split].
  - rewrite El. apply elem_of_app. right. apply elem_of_cons. right.
    eapply lines_SendFailed; eauto.
  - rewrite (Hs bad cb Hbad Hcb). unfold afterSend. rewrite Hob, Hfb. reflexivity.
  - intros s c Hin Hc Ho Hf. rewrite (Hs s c Hin Hc).
    unfold afterSend. rewrite Ho, Hf. reflexivity.
Qed.

(** C10. In a broadcast a send is attempted exactly on the registered
    sessions that report open; a registered session that is no longer
    open is skipped with a debug line, receives nothing and stays
    registered; sessions outside the registry are not touched. *)
Theorem broadcast_skips_closed (data : SensorData) (payload : string) (st : Handler) :
  writeValueAsString data = Some payload -> NoDup (sessions st) ->
  let st' := broadcastSensorData data st in
  sessions st' = sessions st /\
  (forall s, s ∉ sessions st -> heap st' !! s = heap st !! s) /\
  exists new,
    log st' = log st ++ new /\
    (forall s, (DEBUG, Sending s) ∈ new <->
               s ∈ sessions st /\ exists c, heap st !! s = Some c /\ isOpen c = true) /\
    (forall s c, s ∈ sessions st -> heap st !! s = Some c -> isOpen c = false ->
                 (DEBUG, Skipping s) ∈ new /\ ~ (DEBUG, Sending s) ∈ new /\
                 heap st' !! s = Some c /\ s ∈ sessions st').
Proof.
  intros Hw Hnd.
  destruct (broadcast_spec data payload st Hw Hnd) as (Es & El & Ho & Hs).
  simpl. split; [exact Es|]. split; [exact Ho|].
  eexists. split; [exact El|].
  assert (Hiff : forall s,
             (DEBUG, Sending s)
               ∈ (INFO, Broadcasting (length (sessions st)) (String.length payload) payload)
                 :: concat (map (linesFor (heap st)) (sessions st)) <->
             s ∈ sessions st /\ exists c, heap st !! s = Some c /\ isOpen c = true).
  { intros s. rewrite elem_of_cons, lines_Sending. split; [|auto].
    intros [E|H]; [discriminate | exact H]. }
  split; [exact Hiff|].
  intros s c Hin Hc Hclosed. split; [|split; [|split]].
  - apply elem_of_cons. right. eapply lines_Skipping; eauto.
  - intros HS. apply Hiff in HS as (_ & c' & Hc' & Ho'). congruence.
  - rewrite (Hs s c Hin Hc). unfold afterSend. rewrite Hclosed. reflexivity.
  - rewrite Es. exact Hin.
Qed.


End Handler.

(** C1. With the cache empty, [GET /api/sensor/latest] answers 200 with
    an empty body, but [GET /api/sensor/dht] and [GET /api/sensor/gps]
    dereference the absent reading and end in a
    [NullPointerException]. *)
Theorem snapshot_on_empty_cache :
  getLatestSensorData emptyCache = Returned (ok None) /\
  getDhtData emptyCache = Thrown NullPointerException /\
  getGpsData emptyCache = Thrown NullPointerException.
Proof. repeat split. Qed.

(** With a reading cached all three endpoints answer. *)
Lemma snapshot_on_filled_cache (R : SensorData) :
  getLatestSensorData (Some R) = Returned (ok (Some R)) /\
  getDhtData (Some R) = Returned (ok (dhtData R)) /\
  getGpsData (Some R) = Returned (ok (gpsData R)).
Proof. repeat split. Qed.

(** *** Sample data *)

Definition sampleReading : SensorData :=
  {| dhtData := Some {| temperature := 45 # 2; humidity := 60;
                        dhtTimestamp := Some "2025-01-01T10:00:00"%string |};
     gpsData := Some {| longitude := -(171 # 25); latitude := 1701 # 50; satellites := 7;
                        gpsTimestamp := Some "2025-01-01T10:00:00"%string |} |}.

(** A stand-in serializer: it fails on a reading without its two parts. *)
Definition sampleWriter (d : SensorData) : option string :=
  match dhtData d, gpsData d with
  | Some _, Some _ => Some "{dhtData,gpsData}"%string
  | _, _ => None
  end.

Definition healthy : Session := {| isOpen := true; sendFails := false; received := [] |}.
Definition failing : Session := {| isOpen := true; sendFails := true; received := [] |}.
Definition stale : Session := {| isOpen := false; sendFails := false; received := [] |}.

(** Sessions 1 (healthy), 2 (send fails) and 3 (closed, close event not
    yet delivered) are registered; session 4 has just been accepted. *)
Definition sampleHandler : Handler :=
  {| sessions := [1; 2; 3];
     heap := <[1 := healthy]> (<[2 := failing]> (<[3 := stale]> (<[4 := healthy]> ∅)));
     log := [] |}.

Lemma sampleHandler_NoDup : NoDup (sessions sampleHandler).
Proof. simpl. repeat constructor; rewrite ?elem_of_cons, ?elem_of_nil; lia. Qed.

Lemma broadcast_isolates_failures_witness :
  let st' := broadcastSensorData sampleWriter sampleReading sampleHandler in
  sessions st' = [1; 2; 3] /\ 2 ∈ sessions st' /\
  (WARN, SendFailed 2) ∈ log st' /\
  heap st' !! 2 = Some failing /\
  forall s c, s ∈ sessions sampleHandler -> heap sampleHandler !! s = Some c ->
              isOpen c = true -> sendFails c = false ->
              heap st' !! s = Some {| isOpen := true; sendFails := false;
                                      received := received c ++ ["{dhtData,gpsData}"%string] |}.
Proof.
  apply (broadcast_isolates_failures sampleWriter sampleReading "{dhtData,gpsData}"
           sampleHandler 2 failing);
    [reflexivity | exact sampleHandler_NoDup | simpl; rewrite !elem_of_cons; lia
    | reflexivity | reflexivity | reflexivity].
Defined.

Lemma broadcast_skips_closed_witness :
  let st' := broadcastSensorData sampleWriter sampleReading sampleHandler in
  sessions st' = sessions sampleHandler /\
  (forall s, s ∉ sessions sampleHandler -> heap st' !! s = heap sampleHandler !! s) /\
  exists new,
    log st' = log sampleHandler ++ new /\
    (forall s, (DEBUG, Sending s) ∈ new <->
               s ∈ sessions sampleHandler /\
               exists c, heap sampleHandler !! s = Some c /\ isOpen c = true) /\
    (forall s c, s ∈ sessions sampleHandler -> heap sampleHandler !! s = Some c ->
                 isOpen c = false ->
                 (DEBUG, Skipping s) ∈ new /\ ~ (DEBUG, Sending s) ∈ new /\
                 heap st' !! s = Some c /\ s ∈ sessions st').
Proof.
  apply (broadcast_skips_closed sampleWriter sampleReading "{dhtData,gpsData}" sampleHandler);
    [reflexivity | exact sampleHandler_NoDup].
Defined.


Example sample_broadcast_log :
  log (broadcastSensorData sampleWriter sampleReading sampleHandler)
  = [(INFO, Broadcasting 3 17 "{dhtData,gpsData}");
     (DEBUG, Sending 1); (DEBUG, Sending 2); (WARN, SendFailed 2); (DEBUG, Skipping 3)].
Proof. vm_compute. reflexivity. Qed.

(** *** The handler over its lifetime *)

(** What reaches the handler or its sessions: the three callbacks driven
    by the container and the ingestion path, and the transport changing
    under a session (it opens, closes, starts or stops failing; a
    session object unknown so far comes with an empty inbox). *)
Inductive Call : Type :=
| Established (sid : nat) (bean : BeanLookup)
| Closed (sid : nat)
| Broadcast (data : SensorData)
| Transport (sid : nat) (opened fails : bool).

Definition transport (sid : nat) (opened fails : bool) (st : Handler) : Handler :=
  {| sessions := sessions st;
     heap := <[sid := {| isOpen := opened; sendFails := fails;
                          received := default [] (received <$> heap st !! sid) |}]> (heap st);
     log := log st |}.

(** The handler right after construction. *)
Definition newHandler : Handler := {| sessions := []; heap := ∅; log := [] |}.

(** The readings a sequence of calls hands to the handler: those
    broadcast, and those found in the cache when a session connects. *)
Definition readingOf (c : Call) : option SensorData :=
  match c with
  | Established _ (BeanFound (Some r)) => Some r
  | Broadcast d => Some d
  | _ => None
  end.

Section Lifetime.

Variable writeValueAsString : SensorData -> option string.

Abbreviation afterConnectionEstablished := (afterConnectionEstablished writeValueAsString).
Abbreviation broadcastSensorData := (broadcastSensorData writeValueAsString).

Definition handleCall (st : Handler) (c : Call) : Handler :=
  match c with
  | Established sid bean => afterConnectionEstablished sid bean st
  | Closed sid => afterConnectionClosed sid st
  | Broadcast d => broadcastSensorData d st
  | Transport sid opened fails => transport sid opened fails st
  end.

Definition runCalls (cs : list Call) (st : Handler) : Handler := foldl handleCall st cs.

Lemma remove_NoDup (sid : nat) (l : list nat) : NoDup l -> NoDup (remove sid l).
Proof.
  intros Hnd. unfold remove. induction Hnd as [|x l Hx Hnd IH]; simpl.
  - apply NoDup_nil. trivial.
  - destruct (negb (Nat.eqb x sid)); [|exact IH].
    apply NoDup_cons. split; [|exact IH].
    intros Hin. apply Hx. apply list_elem_of_In in Hin. apply filter_In in Hin.
    apply list_elem_of_In. tauto.
Qed.

Lemma remove_not_elem (sid : nat) (l : list nat) : sid ∉ remove sid l.
Proof.
  intros Hin. apply list_elem_of_In in Hin. apply filter_In in Hin as [_ Hne].
  rewrite Nat.eqb_refl in Hne. discriminate.
Qed.

Lemma remove_fresh (sid : nat) (l : list nat) : sid ∉ l -> remove sid l = l.
Proof.
  intros Hn. unfold remove. induction l as [|x l IH]; simpl; [reflexivity|].
  apply not_elem_of_cons in Hn as [Hne Hn].
  destruct (Nat.eqb x sid) eqn:E; simpl.
  - apply Nat.eqb_eq in E. congruence.
  - f_equal. now apply IH.
Qed.

(** What [afterConnectionEstablished] does to the registry and to the
    session objects. *)
Lemma established_spec (sid : nat) (bean : BeanLookup) (st : Handler) :
  let st' := afterConnectionEstablished sid bean st in
  sessions st' = add sid (sessions st) /\
  (forall s, s <> sid -> heap st' !! s = heap st !! s) /\
  (heap st' !! sid = heap st !! sid \/
   exists c r payload,
     heap st !! sid = Some c /\ bean = BeanFound (Some r) /\
     writeValueAsString r = Some payload /\
     heap st' !! sid = Some {| isOpen := isOpen c; sendFails := sendFails c;
                               received := received c ++ [payload] |}).
Proof.
  unfold Server.afterConnectionEstablished. simpl.
  destruct bean as [| |[r|]]; simpl; try (split; [reflexivity|]; split; auto).
  destruct (writeValueAsString r) as [payload|] eqn:Hw; simpl;
    [|split; [reflexivity|]; split; auto].
  unfold sendMessage. simpl.
  destruct (heap st !! sid) as [c|] eqn:Hc; simpl;
    [|split; [reflexivity|]; split; auto].
  destruct (isOpen c && negb (sendFails c)); simpl;
    [|split; [reflexivity|]; split; auto].
  split; [reflexivity|]. split.
  - intros s Hne. rewrite lookup_insert_ne by congruence. reflexivity.
  - right. exists c, r, payload. rewrite lookup_insert_eq. auto.
Qed.

Lemma handleCall_NoDup (st : Handler) (c : Call) :
  NoDup (sessions st) -> NoDup (sessions (handleCall st c)).
Proof.
  intros Hnd. destruct c as [sid bean|sid|d|sid o f]; simpl.
  - rewrite (proj1 (established_spec sid bean st)). now apply add_NoDup.
  - now apply remove_NoDup.
  - unfold Server.broadcastSensorData. destruct (writeValueAsString d) as [payload|];
      [|exact Hnd].
    set (st1 := logged INFO _ st).
    rewrite (proj1 (fanout_spec payload (sessions st) st1 Hnd)). exact Hnd.
  - exact Hnd.
Qed.

Lemma runCalls_NoDup (cs : list Call) (st : Handler) :
  NoDup (sessions st) -> NoDup (sessions (runCalls cs st)).
Proof.
  revert st. induction cs as [|c cs IH]; intros st Hnd; simpl; [exact Hnd|].
  apply IH. now apply handleCall_NoDup.
Qed.

Lemma newHandler_NoDup : NoDup (sessions newHandler).
Proof. apply NoDup_nil. trivial. Qed.

(** X8. In every state the handler can get into, and whatever the
    sends to the others do, a broadcast appends the serialized reading
    exactly once to each session that is registered, open and able to
    send, and leaves every other session object as it is. *)
Theorem broadcast_reaches_each_registered_session_once
  (cs : list Call) (data : SensorData) (payload : string) (sid : nat) (c : Session) :
  let st := runCalls cs newHandler in
  writeValueAsString data = Some payload ->
  heap st !! sid = Some c ->
  heap (broadcastSensorData data st) !! sid
  = Some (if bool_decide (sid ∈ sessions st) && isOpen c && negb (sendFails c)
          then {| isOpen := isOpen c; sendFails := sendFails c;
                  received := received c ++ [payload] |}
          else c).
Proof.
  intros st Hw Hc.
  assert (Hnd : NoDup (sessions st)) by apply runCalls_NoDup, newHandler_NoDup.
  destruct (broadcast_spec writeValueAsString data payload st Hw Hnd) as (_ & _ & Ho & Hs).
  case_bool_decide as Hin; simpl.
  - rewrite (Hs sid c Hin Hc). reflexivity.
  - rewrite (Ho sid Hin). exact Hc.
Qed.

(** Frames that the calls [cs] can account for. *)
Definition accountedFor (cs : list Call) (frame : string) : Prop :=
  exists c r, In c cs /\ readingOf c = Some r /\ writeValueAsString r = Some frame.

Lemma handleCall_frames (S : string -> Prop) (st : Handler) (c : Call) :
  NoDup (sessions st) ->
  (forall r frame, readingOf c = Some r -> writeValueAsString r = Some frame -> S frame) ->
  (forall sid x frame, heap st !! sid = Some x -> frame ∈ received x -> S frame) ->
  forall sid x frame, heap (handleCall st c) !! sid = Some x -> frame ∈ received x -> S frame.
Proof.
  intros Hnd Hnew Hold sid x frame Hx Hf.
  destruct c as [s bean|s|d|s o f]; simpl in Hx.
  - destruct (established_spec s bean st) as (_ & Hoth & Hself).
    destruct (decide (sid = s)) as [->|Hne].
    + destruct Hself as [E|(c & r & payload & Hc & -> & Hw & E)];
        rewrite E in Hx.
      * eauto.
      * injection Hx as <-. simpl in Hf. apply elem_of_app in Hf as [Hf|Hf].
        -- eauto.
        -- apply list_elem_of_singleton in Hf. subst frame. eapply Hnew; eauto.
    + rewrite (Hoth sid Hne) in Hx. eauto.
  - eauto.
  - unfold Server.broadcastSensorData in Hx.
    destruct (writeValueAsString d) as [payload|] eqn:Hw; [|eauto].
    set (st1 := logged INFO _ st) in Hx.
    destruct (fanout_spec payload (sessions st) st1 Hnd) as (_ & _ & Ho & Hs).
    destruct (decide (sid ∈ sessions st)) as [Hin|Hin].
    + destruct (heap st !! sid) as [c|] eqn:Hc.
      * rewrite (Hs sid c Hin Hc) in Hx. injection Hx as <-.
        unfold afterSend in Hf. destruct (isOpen c && negb (sendFails c)); [|eauto].
        simpl in Hf. apply elem_of_app in Hf as [Hf|Hf]; [eauto|].
        apply list_elem_of_singleton in Hf. subst frame. eapply Hnew; eauto.
      * exfalso.
        assert (G : forall l st2, heap st2 !! sid = None ->
                                  heap (foldl (sendTo payload) st2 l) !! sid = None).
        { induction l as [|y l IH]; intros st2 H2; simpl; [exact H2|].
          apply IH. destruct (sendTo_spec payload st2 y) as (_ & _ & Ho2 & _).
          destruct (decide (sid = y)) as [->|Hne]; [|rewrite Ho2; auto].
          unfold sendTo. rewrite H2. exact H2. }
        rewrite (G (sessions st) st1 Hc) in Hx. discriminate.
    + rewrite (Ho sid Hin) in Hx. eauto.
  - destruct (decide (sid = s)) as [->|Hne].
    + rewrite lookup_insert_eq in Hx. injection Hx as <-. simpl in Hf.
      destruct (heap st !! s) as [c|] eqn:Hc; simpl in Hf; [eauto | inversion Hf].
    + rewrite lookup_insert_ne in Hx by congruence. eauto.
Qed.

(** X9. A session is never sent anything but readings: every frame in
    any inbox is the serialization of a reading that was broadcast, or
    that was in the cache when a session connected. *)
Theorem only_readings_are_sent
  (cs : list Call) (sid : nat) (c : Session) (frame : string) :
  heap (runCalls cs newHandler) !! sid = Some c ->
  frame ∈ received c ->
  accountedFor cs frame.
Proof.
  assert (G : forall cs' st,
             NoDup (sessions st) ->
             (forall s x f, heap st !! s = Some x -> f ∈ received x -> accountedFor cs f) ->
             (forall c', In c' cs' -> In c' cs) ->
             forall s x f, heap (runCalls cs' st) !! s = Some x -> f ∈ received x ->
                           accountedFor cs f).
  { induction cs' as [|c' cs' IH]; intros st Hnd Hold Hsub s x f Hx Hf; simpl in Hx.
    - eauto.
    - apply (IH (handleCall st c')) with (s := s) (x := x); try assumption.
      + now apply handleCall_NoDup.
      + apply handleCall_frames; try assumption.
        intros r fr Hr Hw. exists c', r. split; [apply Hsub; now left | auto].
      + intros c'' Hin. apply Hsub. now right. }
  intros Hc Hf. apply (G cs newHandler) with (s := sid) (x := c); try assumption.
  - apply newHandler_NoDup.
  - intros s x f Hx. simpl in Hx. rewrite lookup_empty in Hx. discriminate.
  - auto.
Qed.

(** X10. Once the close of a session has been processed, a broadcast no
    longer touches that session, whether or not serialization and the
    sends to the others succeed. *)
Theorem closed_session_gets_no_broadcast (cs : list Call) (sid : nat) (data : SensorData) :
  let st := runCalls cs newHandler in
  let st' := broadcastSensorData data (afterConnectionClosed sid st) in
  (sid ∉ sessions st') /\ heap st' !! sid = heap st !! sid.
Proof.
  intros st st'.
  assert (Hnd : NoDup (sessions st)) by apply runCalls_NoDup, newHandler_NoDup.
  set (st1 := afterConnectionClosed sid st).
  assert (Hnd1 : NoDup (sessions st1)) by now apply remove_NoDup.
  assert (Hout : sid ∉ sessions st1) by apply remove_not_elem.
  unfold st', Server.broadcastSensorData. fold st1.
  destruct (writeValueAsString data) as [payload|]; [|split; [exact Hout | reflexivity]].
  set (st2 := logged INFO _ st1).
  destruct (fanout_spec payload (sessions st1) st2 Hnd1) as (Es & _ & Ho & _).
  split; [rewrite Es; exact Hout|]. rewrite (Ho sid Hout). reflexivity.
Qed.

(** X11. Connecting and then closing a session that was not registered
    leaves the registry exactly as it was, whatever the priming did; for
    a session that was registered already the pair removes it. *)
Theorem connect_then_close_restores_registry
  (sid : nat) (bean : BeanLookup) (st : Handler) :
  let st' := afterConnectionClosed sid (afterConnectionEstablished sid bean st) in
  (sid ∉ sessions st') /\
  (sid ∉ sessions st -> sessions st' = sessions st) /\
  (sid ∈ sessions st -> sessions st' = remove sid (sessions st)).
Proof.
  simpl. rewrite (proj1 (established_spec sid bean st)).
  split; [apply remove_not_elem|]. split.
  - intros Hn. unfold add. rewrite bool_decide_eq_false_2 by exact Hn.
    unfold remove. rewrite List.filter_app. simpl. rewrite Nat.eqb_refl. simpl.
    rewrite app_nil_r. now apply remove_fresh.
  - intros Hin. unfold add. rewrite bool_decide_eq_true_2 by exact Hin. reflexivity.
Qed.

End Lifetime.

(** A morning of the sample backend: two clients connect before any
    reading, readings arrive, one client's transport degrades and it
    leaves. *)
Definition sampleCalls : list Call :=
  [Transport 1 true false; Established 1 (BeanFound emptyCache);
   Broadcast sampleReading;
   Transport 2 true false; Established 2 (BeanFound (Some sampleReading));
   Transport 2 true true; Broadcast sampleReading;
   Closed 2].

Example sampleCalls_inboxes :
  let st := runCalls sampleWriter sampleCalls newHandler in
  sessions st = [1] /\
  (received <$> heap st !! 1) = Some ["{dhtData,gpsData}"; "{dhtData,gpsData}"]%string /\
  (received <$> heap st !! 2) = Some ["{dhtData,gpsData}"]%string.
Proof. vm_compute. auto. Qed.

Lemma broadcast_reaches_each_registered_session_once_witness :
  received <$> heap (broadcastSensorData sampleWriter sampleReading
                       (runCalls sampleWriter sampleCalls newHandler)) !! 1
  = Some ["{dhtData,gpsData}"; "{dhtData,gpsData}"; "{dhtData,gpsData}"]%string.
Proof.
  rewrite (broadcast_reaches_each_registered_session_once sampleWriter sampleCalls
             sampleReading "{dhtData,gpsData}" 1
             {| isOpen := true; sendFails := false;
                received := ["{dhtData,gpsData}"; "{dhtData,gpsData}"]%string |}
             eq_refl);
    [reflexivity | vm_compute; reflexivity].
Defined.

Lemma only_readings_are_sent_witness :
  accountedFor sampleWriter sampleCalls "{dhtData,gpsData}".
Proof.
  apply (only_readings_are_sent sampleWriter sampleCalls 2
           {| isOpen := true; sendFails := true; received := ["{dhtData,gpsData}"%string] |}
           "{dhtData,gpsData}");
    [vm_compute; reflexivity | apply list_elem_of_singleton; reflexivity].
Defined.

End Server.

(* ===================================================================== *)
(** ** The package table (services/trackingService.ts)                   *)
(* ===================================================================== *)

Module Packages.

Local Open Scope nat_scope.

Record PackageData : Type := {
  id : string;
  username : string;
  departureLocation : string;
  pickupLocation : string
}.

(** The table [packages] as the module creates it. *)
Definition packages : list PackageData :=
  [ {| id := "PKG-12345"; username := "user";
       departureLocation := "Entrepôt A,agadir"; pickupLocation := "Client X, taounate" |};
    {| id := "PKG-ABCDE"; username := "user";
       departureLocation := "Entrepôt B, azrou"; pickupLocation := "Client Y, fes" |} ].

(** Why [createPackage] rejects, in the order of its checks. *)
Inductive Rejection : Type :=
| AlreadyExists
| EmptyId
| NoUser
| LocationsRequired.

(** A call of [createPackage]. *)
Record Request : Type := {
  requestedId : string;
  forUser : string;
  departure : string;
  pickup : string
}.

Section Table.

(** [String.prototype.trim] *)
Variable trim : string -> string.

(** [!s] on a string *)
Definition blank (s : string) : bool := String.eqb s "".

(** The body of the timer callback of [createPackage], run on the table
    as it is when the timer fires: the promise's settlement and the
    table afterwards. *)
Definition createPackage
  (packageId username departureLocation pickupLocation : string)
  (table : list PackageData) : (Rejection + PackageData) * list PackageData :=
  if existsb (fun p => String.eqb (id p) packageId) table
  then (inl AlreadyExists, table)
  else if blank (trim packageId) then (inl EmptyId, table)
  else if blank username then (inl NoUser, table)
  else if blank (trim departureLocation) || blank (trim pickupLocation)
  then (inl LocationsRequired, table)
  else
    let newPackage := {| id := packageId; username := username;
                         departureLocation := departureLocation;
                         pickupLocation := pickupLocation |} in
    (inr newPackage, table ++ [newPackage]).

(** [getPackages]: a copy of the table. *)
Definition getPackages (table : list PackageData) : list PackageData := table.

(** [getPackagesForUser] *)
Definition getPackagesForUser (username' : string) (table : list PackageData)
  : list PackageData :=
  List.filter (fun p => String.eqb (username p) username') table.

Definition submit (table : list PackageData) (r : Request) : list PackageData :=
  snd (createPackage (requestedId r) (forUser r) (departure r) (pickup r) table).

(** The table after a series of [createPackage] calls. *)
Definition runRequests (rs : list Request) (table : list PackageData) : list PackageData :=
  foldl submit table rs.

(** What [createPackage] checks before it stores a package. *)
Definition wellFormed (p : PackageData) : Prop :=
  trim (id p) <> "" /\ username p <> "" /\
  trim (departureLocation p) <> "" /\ trim (pickupLocation p) <> "".

Lemma blank_false (s : string) : blank s = false <-> s <> "".
Proof. unfold blank. apply String.eqb_neq. Qed.

Lemma known_id (pid : string) (table : list PackageData) :
  existsb (fun p => String.eqb (id p) pid) table = true <-> In pid (map id table).
Proof.
  rewrite existsb_exists, in_map_iff. split.
  - intros (p & Hin & E). apply String.eqb_eq in E. eauto.
  - intros (p & E & Hin). exists p. split; [exact Hin|]. now apply String.eqb_eq.
Qed.

(** The two ways a call can end. *)
Lemma createPackage_cases (pid u d pk : string) (table : list PackageData) :
  (exists why, createPackage pid u d pk table = (inl why, table)) \/
  (createPackage pid u d pk table
   = (inr {| id := pid; username := u; departureLocation := d; pickupLocation := pk |},
      table ++ [{| id := pid; username := u; departureLocation := d;
                   pickupLocation := pk |}]) /\
   ~ In pid (map id table) /\
   wellFormed {| id := pid; username := u; departureLocation := d; pickupLocation := pk |}).
Proof.
  unfold createPackage.
  destruct (existsb _ table) eqn:Hex; [left; eauto|].
  destruct (blank (trim pid)) eqn:H1; [left; eauto|].
  destruct (blank u) eqn:H2; [left; eauto|].
  destruct (blank (trim d)) eqn:H3; [left; eauto|].
  destruct (blank (trim pk)) eqn:H4; [left; eauto|].
  right. simpl. split; [reflexivity|]. split.
  - intros Hin. apply known_id in Hin. congruence.
  - unfold wellFormed. simpl. rewrite <- !blank_false. auto.
Qed.

Lemma packages_unique : NoDup (map id packages).
Proof.
  simpl. apply NoDup_cons. split.
  - intros H. apply list_elem_of_singleton in H. discriminate.
  - apply NoDup_singleton.
Qed.

Lemma submit_unique (table : list PackageData) (r : Request) :
  NoDup (map id table) -> NoDup (map id (submit table r)).
Proof.
  intros Hnd. unfold submit.
  destruct (createPackage_cases (requestedId r) (forUser r) (departure r) (pickup r) table)
    as [[why ->]|(-> & Hfresh & _)]; simpl; [exact Hnd|].
  rewrite map_app. simpl. apply NoDup_app. split; [exact Hnd|]. split.
  - intros x Hx Hx'. apply list_elem_of_singleton in Hx'. subst x.
    apply Hfresh. now apply list_elem_of_In.
  - apply NoDup_singleton.
Qed.

(** X12. Package numbers stay unique: after any series of
    [createPackage] calls on the module's table no two packages share an
    id. *)
Theorem package_ids_stay_unique (rs : list Request) :
  NoDup (map id (runRequests rs packages)).
Proof.
  unfold runRequests. generalize packages_unique. generalize packages.
  induction rs as [|r rs IH]; intros table Hnd; simpl; [exact Hnd|].
  apply IH. now apply submit_unique.
Qed.

(** X13. The table never holds a package that fails the checks of
    [createPackage]: apart from the two packages the module starts with,
    every package has a non-blank id, a user, and non-blank departure
    and pickup locations; and the packages it started with stay, in
    place. *)
Theorem stored_packages_are_well_formed (rs : list Request) :
  (exists added, runRequests rs packages = packages ++ added /\
                 forall p, In p added -> wellFormed p).
Proof.
  unfold runRequests.
  assert (G : forall rs table,
             exists added, foldl submit table rs = table ++ added /\
                           forall p, In p added -> wellFormed p).
  { clear rs. induction rs as [|r rs IH]; intros table; simpl.
    - exists []. split; [now rewrite app_nil_r | intros p []].
    - destruct (IH (submit table r)) as (added & -> & Hwf). unfold submit.
      destruct (createPackage_cases (requestedId r) (forUser r) (departure r) (pickup r) table)
        as [[why ->]|(-> & _ & Hnew)]; simpl.
      + eauto.
      + eexists (_ :: added). split; [now rewrite <- app_assoc|].
        intros p [<-|Hin]; auto. }
  apply G.
Qed.

(** Calls only ever append to the table. *)
Lemma runRequests_appends (rs : list Request) (table : list PackageData) :
  exists added, runRequests rs table = table ++ added.
Proof.
  unfold runRequests. revert table. induction rs as [|r rs IH]; intros table; simpl.
  - exists []. now rewrite app_nil_r.
  - destruct (IH (submit table r)) as [added ->]. unfold submit.
    destruct (createPackage_cases (requestedId r) (forUser r) (departure r) (pickup r) table)
      as [[why ->]|(-> & _ & _)]; simpl; [eauto|].
    eexists. rewrite <- app_assoc. reflexivity.
Qed.

(** X14. A package number is accepted at most once: after a call that
    created a package, every further call with the same id is rejected
    as already existing and leaves the table alone, whatever calls were
    made in between (accepted or rejected) and whatever its other
    arguments. *)
Theorem same_id_is_rejected_afterwards
  (pid u d pk u' d' pk' : string) (table table' : list PackageData) (p : PackageData)
  (rs : list Request) :
  createPackage pid u d pk table = (inr p, table') ->
  createPackage pid u' d' pk' (runRequests rs table')
  = (inl AlreadyExists, runRequests rs table').
Proof.
  intros Hc.
  destruct (createPackage_cases pid u d pk table) as [[why E]|(E & _ & _)];
    rewrite E in Hc; [discriminate|].
  injection Hc as <- <-.
  destruct (runRequests_appends rs
              (table ++ [{| id := pid; username := u; departureLocation := d;
                            pickupLocation := pk |}])) as [added ->].
  unfold createPackage.
  assert (Hk : existsb (fun q => String.eqb (id q) pid)
                 ((table ++ [{| id := pid; username := u; departureLocation := d;
                                pickupLocation := pk |}]) ++ added) = true).
  { apply known_id. rewrite !map_app. apply in_or_app. left.
    apply in_or_app. right. simpl. auto. }
  rewrite Hk. reflexivity.
Qed.

(** X15. A created package shows up at the end of its own user's list
    and in nobody else's; a rejected call changes no list. *)
Theorem created_package_is_listed_for_its_user_only
  (pid u d pk : string) (table : list PackageData) :
  let '(outcome, table') := createPackage pid u d pk table in
  match outcome with
  | inl _ => table' = table
  | inr p =>
      getPackages table' = getPackages table ++ [p] /\
      getPackagesForUser u table' = getPackagesForUser u table ++ [p] /\
      forall other, other <> u ->
                    getPackagesForUser other table' = getPackagesForUser other table
  end.
Proof.
  destruct (createPackage_cases pid u d pk table) as [[why ->]|(-> & _ & _)];
    [reflexivity|].
  unfold getPackages, getPackagesForUser. split; [reflexivity|].
  rewrite !List.filter_app. simpl. rewrite String.eqb_refl. split; [reflexivity|].
  intros other Hne. rewrite List.filter_app. simpl.
  apply String.eqb_neq in Hne. rewrite String.eqb_sym, Hne. now rewrite app_nil_r.
Qed.

End Table.

(** [String.prototype.trim].  A string holds the UTF-8 bytes of the
    text.  The characters stripped from both ends are the white space
    and line terminators of ECMAScript: U+0009 to U+000D, U+0020,
    U+00A0, U+1680, U+2000 to U+200A, U+2028, U+2029, U+202F, U+205F,
    U+3000 and U+FEFF, the ones above U+007F in their two- and
    three-byte encodings. *)
Definition whiteSpace1 (a : nat) : bool :=
  Nat.leb 9 a && Nat.leb a 13 || Nat.eqb a 32.

Definition whiteSpace2 (a b : nat) : bool := Nat.eqb a 194 && Nat.eqb b 160.

Definition whiteSpace3 (a b c : nat) : bool :=
  Nat.eqb a 225 && Nat.eqb b 154 && Nat.eqb c 128
  || Nat.eqb a 226 && Nat.eqb b 128
     && (Nat.leb 128 c && Nat.leb c 138 || Nat.eqb c 168 || Nat.eqb c 169 || Nat.eqb c 175)
  || Nat.eqb a 226 && Nat.eqb b 129 && Nat.eqb c 159
  || Nat.eqb a 227 && Nat.eqb b 128 && Nat.eqb c 128
  || Nat.eqb a 239 && Nat.eqb b 187 && Nat.eqb c 191.

(** Drops the white space at the head of [l]; with [fromEnd] the list is
    a reversed text and the encodings are read backwards. *)
Fixpoint strip (fromEnd : bool) (l : list Ascii.ascii) : list Ascii.ascii :=
  match l with
  | [] => []
  | a :: r1 =>
      if whiteSpace1 (Ascii.nat_of_ascii a) then strip fromEnd r1
      else
        match r1 with
        | [] => l
        | b :: r2 =>
            if (if fromEnd
                then whiteSpace2 (Ascii.nat_of_ascii b) (Ascii.nat_of_ascii a)
                else whiteSpace2 (Ascii.nat_of_ascii a) (Ascii.nat_of_ascii b))
            then strip fromEnd r2
            else
              match r2 with
              | [] => l
              | c :: r3 =>
                  if (if fromEnd
                      then whiteSpace3 (Ascii.nat_of_ascii c) (Ascii.nat_of_ascii b)
                             (Ascii.nat_of_ascii a)
                      else whiteSpace3 (Ascii.nat_of_ascii a) (Ascii.nat_of_ascii b)
                             (Ascii.nat_of_ascii c))
                  then strip fromEnd r3
                  else l
              end
        end
  end.

Definition trim (s : string) : string :=
  String.string_of_list_ascii
    (rev (strip true (rev (strip false (String.list_ascii_of_string s))))).

(** A tab, a line feed, a no-break space and an ideographic space. *)
Definition blanks : string :=
  String.string_of_list_ascii
    (map Ascii.ascii_of_nat [9; 10; 194; 160; 227; 128; 128]).

Example trim_both_ends :
  trim (blanks ++ " Entrepôt A,agadir " ++ blanks)%string = "Entrepôt A,agadir".
Proof. reflexivity. Qed.

Example trim_inner_space_kept : trim " Client X, taounate" = "Client X, taounate".
Proof. reflexivity. Qed.

Example createPackage_blank_id :
  createPackage trim blanks "user" "A" "B" packages = (inl EmptyId, packages).
Proof. reflexivity. Qed.

Example createPackage_duplicate_first :
  createPackage trim "PKG-12345" "" "" "" packages = (inl AlreadyExists, packages).
Proof. reflexivity. Qed.

Definition samplePackage9 : PackageData :=
  {| id := "PKG-9"; username := "user";
     departureLocation := "Gare, oujda"; pickupLocation := "Client W, sale" |}.

(** Calls made after [samplePackage9] was created: one is accepted, one
    is rejected for its blank id. *)
Definition sampleRequests : list Request :=
  [{| requestedId := "PKG-10"; forUser := "admin";
      departure := "Port, safi"; pickup := "Client Z, rabat" |};
   {| requestedId := blanks; forUser := "admin";
      departure := "Port, safi"; pickup := "Client Z, rabat" |}].

Example sampleRequests_ids :
  map id (runRequests trim sampleRequests (packages ++ [samplePackage9]))
  = ["PKG-12345"; "PKG-ABCDE"; "PKG-9"; "PKG-10"]%string.
Proof. reflexivity. Qed.

Lemma same_id_is_rejected_afterwards_witness :
  createPackage trim "PKG-9" "admin" "Port, safi" "Client Z, rabat"
    (runRequests trim sampleRequests (packages ++ [samplePackage9]))
  = (inl AlreadyExists, runRequests trim sampleRequests (packages ++ [samplePackage9])).
Proof.
  apply (same_id_is_rejected_afterwards trim "PKG-9" "user" "Gare, oujda"
           "Client W, sale" "admin" "Port, safi" "Client Z, rabat" packages
           (packages ++ [samplePackage9]) samplePackage9 sampleRequests).
  reflexivity.
Defined.

End Packages.

(* ===================================================================== *)
(** ** The REST snapshot and the dashboard's other effects               *)
(**    (trackingService.ts [fetchTrackingData]; TrackingDashboard.tsx)   *)
(* ===================================================================== *)

Module Snapshot.
Import Frames Packages.

Local Open Scope nat_scope.

(** How [fetch('/api/sensor/latest')] ends: it rejects, or it yields a
    response with its [ok] flag, its status and what [response.json()]
    gives ([None] when the body is not JSON, an empty body included). *)
Inductive Reply : Type :=
| Unreachable
| Answered (ok : bool) (status : nat) (body : option value).

(** The errors [fetchTrackingData] can raise.  [HttpFailure status] is
    the [Error] it throws itself; the others come from [fetch], from
    [json()] and from reading a property of [null] or [undefined]. *)
Inductive Failure : Type :=
| NetworkFailure
| HttpFailure (status : nat)
| BodyNotJson
| TypeFailure.

(** [v.k] as an expression that may throw. *)
Definition member (v : value) (k : string) : Failure + value :=
  match v with
  | VUndefined | VNull => inl TypeFailure
  | _ => inr (getProp v k)
  end.

Definition andThen {A B : Type} (x : Failure + A) (f : A -> Failure + B) : Failure + B :=
  match x with
  | inl e => inl e
  | inr a => f a
  end.

(** [fetchTrackingData(packageId)] *)
Definition fetchTrackingData (packageId : string) (reply : Reply) : Failure + TrackingData :=
  match reply with
  | Unreachable => inl NetworkFailure
  | Answered ok status body =>
      if negb ok then inl (HttpFailure status)
      else
        match body with
        | None => inl BodyNotJson
        | Some backendData =>
            andThen (member backendData "dhtData") (fun dht1 =>
            andThen (member dht1 "temperature") (fun temperature' =>
            andThen (member backendData "dhtData") (fun dht2 =>
            andThen (member dht2 "humidity") (fun humidity' =>
            andThen (member backendData "gpsData") (fun gps1 =>
            andThen (member gps1 "latitude") (fun latitude' =>
            andThen (member backendData "gpsData") (fun gps2 =>
            andThen (member gps2 "longitude") (fun longitude' =>
            andThen (member backendData "dhtData") (fun dht3 =>
            andThen (member dht3 "timestamp") (fun timestamp' =>
            inr {| temperature := temperature';
                   humidity := humidity';
                   coordinates := {| lat := latitude'; lon := longitude' |};
                   timestamp := timestamp';
                   packageId := VStr packageId |}))))))))))
        end
  end.

(** The dashboard state the REST path writes besides [UiState]. *)
Record Panel : Type := {
  view : UiState;
  error : option Failure
}.

(** [!selectedPackageId] *)
Definition unselected (selectedPackageId : option string) : bool :=
  match selectedPackageId with
  | None => true
  | Some s => String.eqb s ""
  end.

(** [loadTrackingData] up to its [await]: [None] when it returns at
    once. *)
Definition loadStart (selectedPackageId : option string) (p : Panel) : option Panel :=
  if unselected selectedPackageId then None
  else Some {| view := setIsLoading true (view p); error := None |}.

(** ... and from the settlement of [fetchTrackingData] on ([try],
    [catch], [finally]); the error shown is the message of [err]. *)
Definition loadFinish (outcome : Failure + TrackingData) (p : Panel) : Panel :=
  match outcome with
  | inr data =>
      {| view := setIsLoading false (setTrackingData (Some data) (view p)); error := error p |}
  | inl err =>
      {| view := setIsLoading false (view p); error := Some err |}
  end.

(** The push callback, which writes [trackingData] and [isLoading]
    only. *)
Definition pushed (selectedPackageId : string) (frame : string * value) (p : Panel) : Panel :=
  {| view := onMessage selectedPackageId (fst frame) (snd frame) (view p); error := error p |}.

Definition pushedAll (selectedPackageId : string) (frames : list (string * value)) (p : Panel)
  : Panel :=
  foldl (fun q f => pushed selectedPackageId f q) p frames.

(** The first effect, once the package list has arrived: the argument
    of [setPackages] and that of [setSelectedPackageId] when it is
    called; [None] without a logged-in user.  [user] is [user.username],
    [onBackToAdmin] tells the admin view, [selectedPackageId] is the
    value the effect closed over. *)
Definition packagesEffect
  (user : option string) (onBackToAdmin : bool)
  (selectedPackageIdFromAdmin selectedPackageId : option string)
  (table : list PackageData) : option (list PackageData * option string) :=
  match user with
  | None => None
  | Some username' =>
      let pkgs := if onBackToAdmin then getPackages table
                  else getPackagesForUser username' table in
      Some (pkgs,
            if negb (unselected selectedPackageIdFromAdmin) then selectedPackageIdFromAdmin
            else
              match pkgs with
              | first :: _ => if unselected selectedPackageId then Some (id first) else None
              | [] => None
              end)
  end.

Definition nullishB (v : value) : bool :=
  match v with
  | VUndefined | VNull => true
  | _ => false
  end.

Lemma member_ok (v : value) (k : string) :
  nullishB v = false -> member v k = inr (getProp v k).
Proof. destruct v; simpl; intros H; try reflexivity; discriminate. Qed.

Lemma member_fails (v : value) (k : string) :
  nullishB v = true -> member v k = inl TypeFailure.
Proof. destruct v; simpl; intros H; try reflexivity; discriminate. Qed.

Lemma getProp_nullish (v : value) (k : string) :
  nullishB v = true -> nullishB (getProp v k) = true.
Proof. destruct v; simpl; intros H; try reflexivity; discriminate. Qed.

Lemma nullish_keep (v d : value) : nullishB v = false -> nullish v d = v.
Proof. destruct v; simpl; intros H; try reflexivity; discriminate. Qed.

(** The snapshot of a JSON body of an ok response. *)
Lemma fetch_body_cases (pid : string) (status : nat) (bd : value) :
  (nullishB (getProp bd "dhtData") || nullishB (getProp bd "gpsData") = true ->
   fetchTrackingData pid (Answered true status (Some bd)) = inl TypeFailure) /\
  (nullishB (getProp bd "dhtData") || nullishB (getProp bd "gpsData") = false ->
   fetchTrackingData pid (Answered true status (Some bd))
   = inr {| temperature := fieldOf bd "dhtData" "temperature";
            humidity := fieldOf bd "dhtData" "humidity";
            coordinates := {| lat := fieldOf bd "gpsData" "latitude";
                              lon := fieldOf bd "gpsData" "longitude" |};
            timestamp := fieldOf bd "dhtData" "timestamp";
            packageId := VStr pid |}).
Proof.
  simpl. destruct (nullishB bd) eqn:Hbd.
  - rewrite (getProp_nullish bd "dhtData" Hbd). simpl.
    split; [|discriminate]. intros _. rewrite (member_fails bd "dhtData" Hbd). reflexivity.
  - rewrite !(member_ok bd _ Hbd). simpl.
    destruct (nullishB (getProp bd "dhtData")) eqn:Hd; simpl.
    + split; [|discriminate]. intros _. rewrite (member_fails _ "temperature" Hd).
      reflexivity.
    + rewrite !(member_ok _ _ Hd). simpl.
      destruct (nullishB (getProp bd "gpsData")) eqn:Hg; simpl.
      * split; [|discriminate]. intros _. rewrite (member_fails _ "latitude" Hg).
        reflexivity.
      * split; [discriminate|]. intros _. rewrite !(member_ok _ _ Hg). simpl.
        unfold fieldOf, optProp.
        destruct (getProp bd "dhtData"), (getProp bd "gpsData");
          try discriminate; reflexivity.
Qed.

(** X16. The REST snapshot does not default anything: it succeeds
    exactly when the response is ok, its body is JSON and both the
    [dhtData] and the [gpsData] group are present and not [null];
    a not-ok response fails with its status before the body is looked
    at, and a missing group raises a [TypeError].  On success the fields
    are the ones read from the body, missing ones staying [undefined],
    and the package id is the one asked for, whatever the body says. *)
Theorem snapshot_outcome (pid : string) (isOk : bool) (status : nat) (body : option value) :
  (isOk = false ->
   fetchTrackingData pid (Answered isOk status body) = inl (HttpFailure status)) /\
  (isOk = true -> body = None ->
   fetchTrackingData pid (Answered isOk status body) = inl BodyNotJson) /\
  (forall bd, isOk = true -> body = Some bd ->
     (nullishB (getProp bd "dhtData") || nullishB (getProp bd "gpsData") = true ->
      fetchTrackingData pid (Answered isOk status body) = inl TypeFailure) /\
     (nullishB (getProp bd "dhtData") || nullishB (getProp bd "gpsData") = false ->
      fetchTrackingData pid (Answered isOk status body)
      = inr {| temperature := fieldOf bd "dhtData" "temperature";
               humidity := fieldOf bd "dhtData" "humidity";
               coordinates := {| lat := fieldOf bd "gpsData" "latitude";
                                 lon := fieldOf bd "gpsData" "longitude" |};
               timestamp := fieldOf bd "dhtData" "timestamp";
               packageId := VStr pid |})).
Proof.
  split; [intros ->; reflexivity|]. split; [intros -> ->; reflexivity|].
  intros bd -> ->. apply fetch_body_cases.
Qed.

(** X17. The two channels agree on complete readings: when the snapshot
    of a body succeeds and the body has its five fields (none missing or
    [null]) and carries no package id, a push frame with that same body
    displays exactly what the snapshot returned. *)
Theorem snapshot_agrees_with_push
  (pid now : string) (status : nat) (bd : value) (td : TrackingData) (ui : UiState) :
  fetchTrackingData pid (Answered true status (Some bd)) = inr td ->
  nullishB (fieldOf bd "dhtData" "temperature") = false ->
  nullishB (fieldOf bd "dhtData" "humidity") = false ->
  nullishB (fieldOf bd "gpsData" "latitude") = false ->
  nullishB (fieldOf bd "gpsData" "longitude") = false ->
  nullishB (fieldOf bd "dhtData" "timestamp") = false ->
  nullishB (getProp bd "packageId") = true ->
  trackingData (onMessage pid now bd ui) = Some td.
Proof.
  intros Hfetch Ht Hh Hla Hlo Hts Hpid.
  destruct (fetch_body_cases pid status bd) as [Hbad Hgood].
  destruct (nullishB (getProp bd "dhtData") || nullishB (getProp bd "gpsData")) eqn:Hg.
  - rewrite (Hbad eq_refl) in Hfetch. discriminate.
  - rewrite (Hgood eq_refl) in Hfetch. injection Hfetch as <-.
    apply orb_false_iff in Hg as [Hd _].
    assert (Hm : truthy bd = true).
    { destruct bd; simpl in Hd; try discriminate. reflexivity. }
    assert (Hf : filteredOut pid bd = false).
    { unfold filteredOut. destruct (getProp bd "packageId"); simpl in Hpid;
        try discriminate; reflexivity. }
    rewrite (onMessage_mapped pid now bd ui Hm Hf). simpl. unfold transformed.
    rewrite !nullish_keep by assumption.
    destruct (getProp bd "packageId"); simpl in Hpid; try discriminate; reflexivity.
Qed.

Lemma onMessage_wsConnected (sel now : string) (msg : value) (ui : UiState) :
  wsConnected (onMessage sel now msg ui) = wsConnected ui.
Proof.
  unfold onMessage. destruct (negb (truthy msg)); [reflexivity|].
  destruct (filteredOut sel msg); reflexivity.
Qed.

(** The page right after the body of the second effect has run with
    the component state [u]: [loadTrackingData()] has made its request
    and awaits it, the connection to the primary URL is being made. *)
Definition mounted (primaryUrl : string) (throws : bool) (u : UiState) : Client.World :=
  Client.set_ui (fun _ => u) (Client.start primaryUrl throws).

(** The frame an event hands to the push callback, if any. *)
Definition frameOf (e : Client.Event) : list (string * value) :=
  match e with
  | Client.EvMessage _ (Some msg) iso => [(iso, msg)]
  | _ => []
  end.

(** The frames the event loop hands to the push callback, in order. *)
Definition framesOf (evs : list (Q * Client.Event)) : list (string * value) :=
  flat_map (fun ev => frameOf (snd ev)) evs.

(** The indicator after an event: [open] sets it, [close] and the
    cleanup clear it. *)
Definition indicatorAfter (e : Client.Event) (before : bool) : bool :=
  match e with
  | Client.EvOpen _ => true
  | Client.EvClose _ | Client.EvCleanup => false
  | _ => before
  end.

Definition connectivity (evs : list (Q * Client.Event)) (before : bool) : bool :=
  foldl (fun b ev => indicatorAfter (snd ev) b) before evs.

Lemma mounted_Core (primaryUrl fallbackUrl : string) (throws : bool) (u : UiState) :
  Client.Core (mounted primaryUrl throws u).
Proof.
  eapply Client.Core_ext; [..|exact (proj1 (Client.Inv_start primaryUrl fallbackUrl throws))];
    reflexivity.
Qed.

Lemma onMessage_data (sel now : string) (msg : value) (u u' : UiState) :
  trackingData u = trackingData u' ->
  trackingData (onMessage sel now msg u) = trackingData (onMessage sel now msg u').
Proof.
  intros E. unfold onMessage. destruct (negb (truthy msg)); [exact E|].
  destruct (filteredOut sel msg); [exact E | reflexivity].
Qed.

Lemma shown_step (sel : string) (e : Client.Event) (u : UiState) (q : Panel) :
  trackingData u = trackingData (view q) ->
  trackingData (Client.shownAfter sel e u)
  = trackingData (view (pushedAll sel (frameOf e) q)) /\
  wsConnected (Client.shownAfter sel e u) = indicatorAfter e (wsConnected u).
Proof.
  intros E. destruct e as [s|s parsed iso|s|s|t throws|]; simpl; auto.
  destruct parsed as [msg|]; simpl; [|auto].
  split; [now apply onMessage_data | apply onMessage_wsConnected].
Qed.

(** The component state after the events, read off the events alone. *)
Lemma shown_fields (sel : string) (evs : list (Q * Client.Event)) (u : UiState) (q : Panel) :
  trackingData u = trackingData (view q) ->
  trackingData (foldl (fun x ev => Client.shownAfter sel (snd ev) x) u evs)
  = trackingData (view (pushedAll sel (framesOf evs) q)) /\
  wsConnected (foldl (fun x ev => Client.shownAfter sel (snd ev) x) u evs)
  = connectivity evs (wsConnected u).
Proof.
  revert u q. induction evs as [|[at_ e] evs IH]; intros u q E.
  - simpl. auto.
  - destruct (shown_step sel e u q E) as [E1 W1].
    destruct (IH (Client.shownAfter sel e u) (pushedAll sel (frameOf e) q) E1) as [E2 W2].
    cbn [foldl snd]. rewrite E2, W2, W1. split; [|reflexivity].
    unfold framesOf, pushedAll. cbn [flat_map snd]. rewrite foldl_app. reflexivity.
Qed.

(** X18. Whatever the push channel does while [loadTrackingData] awaits
    the snapshot (the socket opens, frames arrive, it closes, timers
    fire, the cleanup runs), when the request settles [isLoading] is
    false and the indicator is what the last [open], [close] or cleanup
    made it; a successful snapshot replaces whatever the frames
    displayed and leaves the error cleared, a failed one records its
    error and keeps what the frames displayed. *)
Theorem snapshot_settles_the_panel
  (primaryUrl fallbackUrl sel : string) (throws : bool) (reply : Reply)
  (evs : list (Q * Client.Event)) (w : Client.World) (p p1 : Panel) :
  loadStart (Some sel) p = Some p1 ->
  Client.run primaryUrl fallbackUrl sel evs (mounted primaryUrl throws (view p1)) = Some w ->
  let final := loadFinish (fetchTrackingData sel reply)
                 {| view := Client.ui w; error := error p1 |} in
  isLoading (view final) = false /\
  wsConnected (view final) = connectivity evs (wsConnected (view p)) /\
  match fetchTrackingData sel reply with
  | inr data => trackingData (view final) = Some data /\ error final = None
  | inl err =>
      error final = Some err /\
      trackingData (view final) = trackingData (view (pushedAll sel (framesOf evs) p1))
  end.
Proof.
  unfold loadStart. simpl. destruct (String.eqb sel ""); [discriminate|].
  intros [= <-] Hrun.
  set (p1 := {| view := setIsLoading true (view p); error := None |}) in *.
  pose proof (Client.run_ui primaryUrl fallbackUrl sel evs _ w
                (mounted_Core primaryUrl fallbackUrl throws (view p1)) Hrun) as Hui.
  change (Client.ui (mounted primaryUrl throws (view p1))) with (view p1) in Hui.
  destruct (shown_fields sel evs (view p1) p1 eq_refl) as [Hd Hw].
  rewrite <- Hui in Hd, Hw.
  destruct (fetchTrackingData sel reply) as [err|data]; simpl;
    rewrite ?Hw, ?Hd; repeat split; reflexivity.
Qed.

(** X19. For a logged-in user outside the admin view the dashboard lists
    that user's packages only, in table order.  A selection handed over
    by the caller is taken as it is; without one, an existing selection
    is left alone, and otherwise the first of the user's own packages is
    selected (nothing is selected if the user has no package). *)
Theorem user_view_lists_own_packages
  (user : string) (fromAdmin selected : option string) (table : list PackageData) :
  match packagesEffect (Some user) false fromAdmin selected table with
  | None => False
  | Some (pkgs, chosen) =>
      pkgs = getPackagesForUser user table /\
      (forall p, In p pkgs -> In p table /\ username p = user) /\
      (unselected fromAdmin = false -> chosen = fromAdmin) /\
      (unselected fromAdmin = true -> unselected selected = false -> chosen = None) /\
      (unselected fromAdmin = true -> unselected selected = true ->
       match pkgs with
       | [] => chosen = None
       | first :: _ => chosen = Some (id first) /\ username first = user
       end)
  end.
Proof.
  unfold packagesEffect.
  assert (Hown : forall p, In p (getPackagesForUser user table) ->
                           In p table /\ username p = user).
  { intros p Hin. apply filter_In in Hin as [Hin E]. apply String.eqb_eq in E. auto. }
  split; [reflexivity|]. split; [exact Hown|].
  destruct (unselected fromAdmin); simpl.
  - split; [discriminate|].
    destruct (getPackagesForUser user table) as [|first rest] eqn:Hp.
    + split; reflexivity.
    + destruct (unselected selected); split; try discriminate; try reflexivity.
      intros _ _. split; [reflexivity|]. apply Hown. now left.
  - split; [reflexivity|]. split; discriminate.
Qed.

Definition isNumber (v : value) : bool :=
  match v with
  | VNum _ => true
  | _ => false
  end.

Lemma nullish_number (src : value) :
  nullishB src || isNumber src = true -> isNumber (nullish src (VNum 0)) = true.
Proof. destruct src; simpl; intros H; try reflexivity; discriminate. Qed.

(** X20. The push path always displays numbers: for a frame that reaches
    the mapping and whose temperature, humidity, latitude and longitude
    are each either missing, [null] or a number, the four displayed
    values are numbers (never [undefined]). *)
Theorem pushed_readings_are_numbers (sel now : string) (msg : value) (ui : UiState) :
  truthy msg = true -> filteredOut sel msg = false ->
  nullishB (fieldOf msg "dhtData" "temperature")
    || isNumber (fieldOf msg "dhtData" "temperature") = true ->
  nullishB (fieldOf msg "dhtData" "humidity")
    || isNumber (fieldOf msg "dhtData" "humidity") = true ->
  nullishB (fieldOf msg "gpsData" "latitude")
    || isNumber (fieldOf msg "gpsData" "latitude") = true ->
  nullishB (fieldOf msg "gpsData" "longitude")
    || isNumber (fieldOf msg "gpsData" "longitude") = true ->
  exists td,
    trackingData (onMessage sel now msg ui) = Some td /\
    isNumber (temperature td) = true /\ isNumber (humidity td) = true /\
    isNumber (lat (coordinates td)) = true /\ isNumber (lon (coordinates td)) = true.
Proof.
  intros Hm Hf Ht Hh Hla Hlo. exists (transformed sel now msg).
  rewrite (onMessage_mapped sel now msg ui Hm Hf). simpl.
  split; [reflexivity|]. auto using nullish_number.
Qed.

(** The frames the push callback maps: neither falsy nor meant for
    another package. *)
Definition accepted (selectedPackageId : string) (f : string * value) : bool :=
  truthy (snd f) && negb (filteredOut selectedPackageId (snd f)).

Lemma pushed_cases (sel : string) (f : string * value) (p : Panel) :
  view (pushed sel f p)
  = if accepted sel f
    then setIsLoading false
           (setTrackingData (Some (transformed sel (fst f) (snd f))) (view p))
    else view p.
Proof.
  unfold pushed, accepted, onMessage. simpl.
  destruct (truthy (snd f)); simpl; [|reflexivity].
  destruct (filteredOut sel (snd f)); reflexivity.
Qed.

(** X21. Push frames do not accumulate: after any sequence of frames the
    dashboard shows the mapping of the last frame that was not
    discarded, and nothing of the frames before it; if every frame was
    discarded, the displayed data and the loading flag are as before. *)
Theorem last_accepted_frame_wins
  (sel : string) (frames : list (string * value)) (p : Panel) :
  let shown := view (pushedAll sel frames p) in
  match rev (List.filter (accepted sel) frames) with
  | [] => trackingData shown = trackingData (view p) /\
          isLoading shown = isLoading (view p)
  | f :: _ => trackingData shown = Some (transformed sel (fst f) (snd f)) /\
              isLoading shown = false
  end.
Proof.
  unfold pushedAll. induction frames as [|f frames IH] using rev_ind.
  - simpl. auto.
  - rewrite foldl_app, List.filter_app, rev_app_distr.
    cbn [foldl List.filter]. rewrite pushed_cases.
    destruct (accepted sel f); simpl; [auto | exact IH].
Qed.

(** Two partial frames in a row: the position-only frame wipes the
    temperature of the frame before it. *)
Example partial_frames_do_not_merge :
  (fun td => (temperature td, lat (coordinates td)))
    <$> trackingData
          (view (pushedAll "PKG-1"
                   [("T1"%string, frame [("dhtData", sampleDht)]);
                    ("T2"%string, frame [("gpsData", sampleGps)])]
                   {| view := ui0; error := None |}))
  = Some (VNum 0, VNum (1701 # 50)).
Proof. reflexivity. Qed.

(** The body the backend would send for a full reading. *)
Definition fullBody : value :=
  frame [("dhtData", sampleDht); ("gpsData", sampleGps)].

Definition panel0 : Panel := {| view := ui0; error := Some NetworkFailure |}.

Example snapshot_without_gps :
  fetchTrackingData "PKG-1" (Answered true 200 (Some (frame [("dhtData", sampleDht)])))
  = inl TypeFailure.
Proof. reflexivity. Qed.

Example snapshot_keeps_undefined :
  temperature <$> (match fetchTrackingData "PKG-1"
                           (Answered true 200
                              (Some (frame [("dhtData", VObj []); ("gpsData", sampleGps)]))) with
                   | inr td => Some td
                   | inl _ => None
                   end)
  = Some VUndefined.
Proof. reflexivity. Qed.

Lemma snapshot_agrees_with_push_witness :
  trackingData (onMessage "PKG-1" "NOW" fullBody ui0)
  = Some (transformed "PKG-1" "NOW" fullBody).
Proof.
  apply (snapshot_agrees_with_push "PKG-1" "NOW" 200 fullBody
           (transformed "PKG-1" "NOW" fullBody) ui0); reflexivity.
Defined.

(** The socket opens and a full frame arrives before the snapshot
    request fails. *)
Definition sampleArrivals : list (Q * Client.Event) :=
  [(10%Q, Client.EvOpen 0); (15%Q, Client.EvMessage 0 (Some fullBody) "NOW")].

Definition sampleShown : Client.World :=
  Eval vm_compute in
    default Client.emptyWorld
      (Client.run Client.samplePrimary Client.sampleFallback "PKG-1" sampleArrivals
         (mounted Client.samplePrimary false (setIsLoading true ui0))).

Lemma snapshot_settles_the_panel_witness :
  isLoading (view (loadFinish (fetchTrackingData "PKG-1" (Answered false 500 None))
                     {| view := Client.ui sampleShown; error := None |})) = false /\
  wsConnected (Client.ui sampleShown) = true /\
  error (loadFinish (fetchTrackingData "PKG-1" (Answered false 500 None))
           {| view := Client.ui sampleShown; error := None |}) = Some (HttpFailure 500) /\
  trackingData (Client.ui sampleShown) = Some (transformed "PKG-1" "NOW" fullBody).
Proof.
  pose proof (snapshot_settles_the_panel Client.samplePrimary Client.sampleFallback
                "PKG-1" false (Answered false 500 None) sampleArrivals sampleShown panel0
                {| view := setIsLoading true ui0; error := None |}
                eq_refl eq_refl) as H.
  simpl in H. destruct H as (H1 & H2 & H3 & H4).
  split; [exact H1|]. split; [exact H2|]. split; [exact H3 | exact H4].
Defined.

Lemma pushed_readings_are_numbers_witness :
  exists td,
    trackingData (onMessage "PKG-1" "NOW" positionOnlyFrame ui0) = Some td /\
    isNumber (temperature td) = true /\ isNumber (humidity td) = true /\
    isNumber (lat (coordinates td)) = true /\ isNumber (lon (coordinates td)) = true.
Proof.
  apply (pushed_readings_are_numbers "PKG-1" "NOW" positionOnlyFrame ui0); reflexivity.
Defined.

End Snapshot.
